(** * nestjs-cqrs-analyzer: extraction of CQRS edges and their analysis

    A shallow embedding of
      - [src/file-analyzer/index.ts]        (edge extraction from the syntax tree),
      - [src/diagram-generators/mermaid-generator.ts] (edge budget),
      - [src/architecture-analyzer/index.ts] (metrics and issues),
    followed by the properties the specification states about them.

    Conventions of the embedding.
    - A JavaScript string is a [string]; a character is a code unit below 256.
    - An array is a [list]; [push] appends at the end.
    - A [Map] or [Set] is an association list or a duplicate-free list in
      insertion order, which is the order [forEach] visits.
    - A number is a [nat] or a [Z] where the code counts and an exact
      rational where it divides; the rounding of the quotient to a double
      is not modelled.
    - The mutable [result] object is threaded through the extraction
      functions: each takes the accumulated result and returns the new one.
    - Whatever the TypeScript compiler API derives from the source file
      for a node (its source text and the line and character of its start) is
      a field of the node. *)

From Stdlib Require Import List String Ascii Bool Arith ZArith QArith Qround Lia.
From Stdlib Require Import Permutation DecimalString DecimalNat.
Import ListNotations.

#[local] Set Warnings "-register-all".

Local Open Scope nat_scope.
Local Open Scope string_scope.
Local Open Scope list_scope.

(* ------------------------------------------------------------------ *)
(** ** Strings as the code uses them *)

Module Js.

Definition code (c : ascii) : nat := nat_of_ascii c.

Definition between (lo hi : nat) (c : ascii) : bool :=
  (lo <=? code c)%nat && (code c <=? hi)%nat.

(** The class [\s] of a regular expression, and the characters [trim]
    removes: tab, line feed, vertical tab, form feed, carriage return,
    space and the no-break space. *)
Definition isSpace (c : ascii) : bool :=
  between 9 13 c || (code c =? 32)%nat || (code c =? 160)%nat.

(** The class [[A-Za-z0-9_]]. *)
Definition isWordChar (c : ascii) : bool :=
  between 65 90 c || between 97 122 c || between 48 57 c || (code c =? 95)%nat.

(** [String.prototype.toLowerCase], one code unit at a time. *)
Definition lowerChar (c : ascii) : ascii :=
  if between 65 90 c then ascii_of_nat (code c + 32)
  else if between 192 222 c && negb (code c =? 215)%nat then ascii_of_nat (code c + 32)
  else c.

Fixpoint toLowerCase (s : string) : string :=
  match s with
  | EmptyString => EmptyString
  | String c s' => String (lowerChar c) (toLowerCase s')
  end.

(** [String.prototype.includes]. *)
Fixpoint includes (s sub : string) : bool :=
  String.prefix sub s ||
  match s with
  | EmptyString => false
  | String _ s' => includes s' sub
  end.

Fixpoint trimStart (s : string) : string :=
  match s with
  | EmptyString => EmptyString
  | String c s' => if isSpace c then trimStart s' else s
  end.

Fixpoint trimEnd (s : string) : string :=
  match s with
  | EmptyString => EmptyString
  | String c s' =>
      match trimEnd s' with
      | EmptyString => if isSpace c then EmptyString else String c EmptyString
      | t => String c t
      end
  end.

(** [String.prototype.trim]. *)
Definition trim (s : string) : string := trimEnd (trimStart s).

Fixpoint drop (n : nat) (s : string) : string :=
  match n, s with
  | O, _ => s
  | S _, EmptyString => EmptyString
  | S k, String _ s' => drop k s'
  end.

(** [Array.prototype.slice(0, e)]: a negative [e] counts from the end. *)
Definition slice0 {A : Type} (l : list A) (e : Z) : list A :=
  if (e <? 0)%Z then firstn (List.length l - Z.to_nat (- e)) l
  else firstn (Z.to_nat e) l.

End Js.

(* ------------------------------------------------------------------ *)
(** ** [src/types/index.ts] *)

Inductive BusType : Type := EventBus | QueryBus | CommandBus.

Inductive HandlerType : Type := QueryHandler | CommandHandler | EventsHandler.

Definition HandlerType_eqb (a b : HandlerType) : bool :=
  match a, b with
  | QueryHandler, QueryHandler => true
  | CommandHandler, CommandHandler => true
  | EventsHandler, EventsHandler => true
  | _, _ => false
  end.

Definition handlerTypeName (h : HandlerType) : string :=
  match h with
  | QueryHandler => "QueryHandler"
  | CommandHandler => "CommandHandler"
  | EventsHandler => "EventsHandler"
  end.

Record LineAndCharacter : Type := { line : nat; character : nat }.

Module BusUsage.
Record t : Type := {
  sourceFile : string;
  className : string;
  methodName : option string;
  busType : BusType;
  eventType : string;
  position : LineAndCharacter
}.
End BusUsage.

Module HandlerDeclaration.
Record t : Type := {
  sourceFile : string;
  className : string;
  handlerType : HandlerType;
  eventType : string;
  position : LineAndCharacter
}.
End HandlerDeclaration.

Record AnalysisResult : Type := {
  busUsages : list BusUsage.t;
  handlerDeclarations : list HandlerDeclaration.t
}.

Definition emptyResult : AnalysisResult :=
  {| busUsages := []; handlerDeclarations := [] |}.

(* ------------------------------------------------------------------ *)
(** ** The syntax tree

    The part of the TypeScript syntax tree the extraction looks at.  Every
    node carries what the compiler API computes for it from the source
    file: [sourceText] is [node.getText(sourceFile)] and [startPos] is
    [sourceFile.getLineAndCharacterOfPosition(node.getStart())].  The
    children are listed in the order [ts.forEachChild] visits them. *)

Record Span : Type := { sourceText : string; startPos : LineAndCharacter }.

Inductive Node : Type :=
| Identifier (sp : Span) (text : string)
| PrivateIdentifier (sp : Span) (text : string)
| PropertyAccessExpression (sp : Span) (expression name : Node)
| NewExpression (sp : Span) (expression : Node) (typeArguments arguments : list Node)
| CallExpression (sp : Span) (expression : Node) (typeArguments arguments : list Node)
| Decorator (sp : Span) (expression : Node)
    (** [name] is the text of the name identifier, [heritage] the type
        parameters and heritage clauses; decorators are among [modifiers]. *)
| ClassDeclaration (sp : Span) (modifiers : list Node) (name : option string)
    (heritage members : list Node)
    (** [rest] is everything after the name: parameters, type and body. *)
| MethodDeclaration (sp : Span) (modifiers : list Node) (name : Node) (rest : list Node)
| OtherNode (sp : Span) (children : list Node).

Definition span (n : Node) : Span :=
  match n with
  | Identifier sp _ | PrivateIdentifier sp _ | PropertyAccessExpression sp _ _
  | NewExpression sp _ _ _ | CallExpression sp _ _ _ | Decorator sp _
  | ClassDeclaration sp _ _ _ _ | MethodDeclaration sp _ _ _ | OtherNode sp _ => sp
  end.

Definition getText (n : Node) : string := sourceText (span n).

Definition getLineAndCharacter (n : Node) : LineAndCharacter := startPos (span n).

Definition isIdentifier (n : Node) : bool :=
  match n with Identifier _ _ => true | _ => false end.

Definition isPropertyAccessExpression (n : Node) : bool :=
  match n with PropertyAccessExpression _ _ _ => true | _ => false end.

Definition isCallExpression (n : Node) : bool :=
  match n with CallExpression _ _ _ _ => true | _ => false end.

Definition isClassDeclaration (n : Node) : bool :=
  match n with ClassDeclaration _ _ _ _ _ => true | _ => false end.

Definition isMethodDeclaration (n : Node) : bool :=
  match n with MethodDeclaration _ _ _ _ => true | _ => false end.

Definition isDecorator (n : Node) : bool :=
  match n with Decorator _ _ => true | _ => false end.

(** [ts.forEachChild]: the children of a node, in visiting order. *)
Definition childrenOf (n : Node) : list Node :=
  match n with
  | Identifier _ _ | PrivateIdentifier _ _ => []
  | PropertyAccessExpression _ e nm => [e; nm]
  | NewExpression _ e targs args => e :: targs ++ args
  | CallExpression _ e targs args => e :: targs ++ args
  | Decorator _ e => [e]
  | ClassDeclaration _ mods _ her mems => mods ++ her ++ mems
  | MethodDeclaration _ mods nm rest => mods ++ nm :: rest
  | OtherNode _ cs => cs
  end.

(* ------------------------------------------------------------------ *)
(** ** [src/file-analyzer/index.ts]: looking up the enclosing declarations

    [node.parent] links a node to its ancestors.  The traversal below keeps
    the ancestors of the node it visits, innermost first, so the chain a
    lookup walks ([current = node], then [current.parent], ...) is the node
    followed by that list. *)

Fixpoint findParentClass (chain : list Node) : option string :=
  match chain with
  | [] => None
  | current :: parents =>
      match current with
      | ClassDeclaration _ _ (Some nm) _ _ => Some nm
      | _ => findParentClass parents
      end
  end.

Fixpoint findMethodName (chain : list Node) : option string :=
  match chain with
  | [] => None
  | current :: parents =>
      match current with
      | MethodDeclaration _ _ nm _ =>
          match nm with
          | Identifier _ t => Some t
          | _ => None
          end
      | _ => findMethodName parents
      end
  end.

(** ** Inference of the event type and of the bus *)

(** [extractTypeArgument(node, sourceFile)], given [node.typeArguments] and
    [node.arguments] of the call expression [node]. *)
Definition extractTypeArgument (typeArguments arguments : list Node) : string :=
  match typeArguments with
  | typeArg :: _ => getText typeArg
  | [] =>
      match arguments with
      | firstArg :: _ =>
          match firstArg with
          | NewExpression _ (Identifier _ t) _ _ => t
          | Identifier _ t => t
          | PropertyAccessExpression _ _ (Identifier _ t) => t
          | _ => "Unknown"
          end
      | [] => "Unknown"
      end
  end.

Definition determineBusType (objectName : string) : option BusType :=
  let lowerName := Js.toLowerCase objectName in
  if Js.includes lowerName "event" && Js.includes lowerName "bus" then Some EventBus
  else if Js.includes lowerName "query" && Js.includes lowerName "bus" then Some QueryBus
  else if Js.includes lowerName "command" && Js.includes lowerName "bus" then Some CommandBus
  else None.

Definition getObjectName (expr : Node) : string :=
  match expr with
  | Identifier _ t => t
  | PropertyAccessExpression _ _ (Identifier _ t) => t
  | _ => ""
  end.

Definition dispatchMethods : list string := ["publish"; "execute"; "dispatch"].

Definition isDispatchMethod (methodName : string) : bool :=
  existsb (String.eqb methodName) dispatchMethods.

(** [a || b] on strings: the empty string is falsy. *)
Definition orElse (a : option string) (b : string) : string :=
  match a with
  | Some s => if String.eqb s "" then b else s
  | None => b
  end.

Definition pushBusUsage (u : BusUsage.t) (result : AnalysisResult) : AnalysisResult :=
  {| busUsages := busUsages result ++ [u];
     handlerDeclarations := handlerDeclarations result |}.

Definition pushHandler (h : HandlerDeclaration.t) (result : AnalysisResult) : AnalysisResult :=
  {| busUsages := busUsages result;
     handlerDeclarations := handlerDeclarations result ++ [h] |}.

(** [processPotentialBusUsage(node, sourceFile, filePath, result)];
    [parents] are the ancestors of [node].  It is only called on call
    expressions. *)
Definition processPotentialBusUsage (node : Node) (parents : list Node)
    (filePath : string) (result : AnalysisResult) : AnalysisResult :=
  match node with
  | CallExpression _ (PropertyAccessExpression _ receiver (Identifier _ methodName))
      typeArguments arguments =>
      if negb (isDispatchMethod methodName) then result
      else
        let objectName := getObjectName receiver in
        match determineBusType objectName with
        | None => result
        | Some busType =>
            let className := orElse (findParentClass (node :: parents)) "Unknown" in
            let enclosingMethod := findMethodName (node :: parents) in
            let eventType := extractTypeArgument typeArguments arguments in
            pushBusUsage
              {| BusUsage.sourceFile := filePath;
                 BusUsage.className := className;
                 BusUsage.methodName := enclosingMethod;
                 BusUsage.busType := busType;
                 BusUsage.eventType := eventType;
                 BusUsage.position := getLineAndCharacter node |}
              result
        end
  | _ => result
  end.

(* ------------------------------------------------------------------ *)
(** ** Handler declarations, path A: the scan of the class text

    [nodeText.matchAll] with the global pattern that reads: an at sign; as
    group 1 one of [QueryHandler], [CommandHandler], [EventsHandler]; any
    number of white space characters; an opening parenthesis; as group 2 any
    number of characters other than a closing parenthesis; a closing
    parenthesis.  The pattern has no choice point that succeeds in two
    ways: the three names are no prefixes of one another, what follows the
    white space is not white space and what follows group 2 is the
    closing parenthesis.  So matching at a position is one pass from left to
    right. *)

Module Regex.

(** The white space: the number of characters taken and what is left. *)
Fixpoint spaces (s : string) : nat * string :=
  match s with
  | EmptyString => (0, s)
  | String c s' =>
      if Js.isSpace c then let (n, r) := spaces s' in (S n, r) else (0, s)
  end.

(** Group 2 and the closing parenthesis: the captured group and the
    number of characters taken, the parenthesis included; no match when
    no parenthesis closes. *)
Fixpoint untilClose (s : string) : option (string * nat) :=
  match s with
  | EmptyString => None
  | String c s' =>
      if Ascii.eqb c ")" then Some (EmptyString, 1)
      else match untilClose s' with
           | Some (g, n) => Some (String c g, S n)
           | None => None
           end
  end.

(** What follows the name: white space, parenthesis, group 2, parenthesis. *)
Definition afterName (s : string) : option (string * nat) :=
  let (n, r) := spaces s in
  match r with
  | String "(" r' =>
      match untilClose r' with
      | Some (g, m) => Some (g, n + 1 + m)
      | None => None
      end
  | _ => None
  end.

(** One alternative of group 1, with what follows it. *)
Definition alternative (h : HandlerType) (s : string)
  : option (HandlerType * string * nat) :=
  let nm := handlerTypeName h in
  if String.prefix nm s then
    match afterName (Js.drop (String.length nm) s) with
    | Some (g, n) => Some (h, g, String.length nm + n)
    | None => None
    end
  else None.

Definition orTry {A : Type} (a b : option A) : option A :=
  match a with Some _ => a | None => b end.

(** The whole pattern, anchored at the start of [s]: groups 1 and 2 and
    the length of the match. *)
Definition matchAt (s : string) : option (HandlerType * string * nat) :=
  match s with
  | String "@" s' =>
      match orTry (alternative QueryHandler s')
              (orTry (alternative CommandHandler s') (alternative EventsHandler s')) with
      | Some (h, g, n) => Some (h, g, S n)
      | None => None
      end
  | _ => None
  end.

(** [matchAll] with the [g] flag: after a match the search resumes behind
    it, otherwise one character further.  [skip] counts the characters
    of the last match still to step over. *)
Fixpoint matchAllFrom (skip : nat) (s : string) : list (HandlerType * string) :=
  match s with
  | EmptyString => []
  | String _ s' =>
      match skip with
      | S k => matchAllFrom k s'
      | O =>
          match matchAt s with
          | Some (h, g, n) => (h, g) :: matchAllFrom (n - 1) s'
          | None => matchAllFrom 0 s'
          end
      end
  end.

Definition matchAll (s : string) : list (HandlerType * string) := matchAllFrom 0 s.

(** The run of [[A-Za-z0-9_]] at the start of [s]. *)
Fixpoint word (s : string) : string :=
  match s with
  | EmptyString => EmptyString
  | String c s' => if Js.isWordChar c then String c (word s') else EmptyString
  end.

(** [argsText.match] with the pattern of one or more [[A-Za-z0-9_]]:
    the first match. *)
Fixpoint firstWord (s : string) : option string :=
  match s with
  | EmptyString => None
  | String c s' => if Js.isWordChar c then Some (word s) else firstWord s'
  end.

End Regex.

Definition sameHandler (className : string) (handlerType : HandlerType)
    (h : HandlerDeclaration.t) : bool :=
  String.eqb (HandlerDeclaration.className h) className
  && HandlerType_eqb (HandlerDeclaration.handlerType h) handlerType.

(** The body of the loop over [decoratorMatches]. *)
Definition lexicalEdge (filePath className : string) (pos : LineAndCharacter)
    (m : HandlerType * string) : HandlerDeclaration.t :=
  let handlerType := fst m in
  let argsText := Js.trim (snd m) in
  let eventType :=
    match Regex.firstWord argsText with
    | Some classNameMatch => classNameMatch
    | None => "Unknown"
    end in
  {| HandlerDeclaration.sourceFile := filePath;
     HandlerDeclaration.className := className;
     HandlerDeclaration.handlerType := handlerType;
     HandlerDeclaration.eventType := eventType;
     HandlerDeclaration.position := pos |}.

Definition lexicalEdges (filePath className : string) (pos : LineAndCharacter)
    (nodeText : string) : list HandlerDeclaration.t :=
  map (lexicalEdge filePath className pos) (Regex.matchAll nodeText).

(** ** Path B: the decorators of the compiler API *)

Definition handlerTypeOfName (decoratorName : string) : option HandlerType :=
  if String.eqb decoratorName "QueryHandler" then Some QueryHandler
  else if String.eqb decoratorName "CommandHandler" then Some CommandHandler
  else if String.eqb decoratorName "EventsHandler" then Some EventsHandler
  else None.

(** The handler a decorator declares: its expression is a call of an
    identifier that is one of the three names. *)
Definition structuralHandler (decorator : Node) : option (HandlerType * string) :=
  match decorator with
  | Decorator _ (CallExpression _ (Identifier _ decoratorName) typeArguments arguments) =>
      match handlerTypeOfName decoratorName with
      | Some handlerType => Some (handlerType, extractTypeArgument typeArguments arguments)
      | None => None
      end
  | _ => None
  end.

(** The body of the loop over [decorators]. *)
Definition structuralStep (filePath className : string) (pos : LineAndCharacter)
    (result : AnalysisResult) (decorator : Node) : AnalysisResult :=
  match structuralHandler decorator with
  | None => result
  | Some (handlerType, eventType) =>
      let exists_ :=
        existsb (sameHandler className handlerType) (handlerDeclarations result) in
      if exists_ then result
      else pushHandler
             {| HandlerDeclaration.sourceFile := filePath;
                HandlerDeclaration.className := className;
                HandlerDeclaration.handlerType := handlerType;
                HandlerDeclaration.eventType := eventType;
                HandlerDeclaration.position := pos |}
             result
  end.

(** [ts.getDecorators(node)]. *)
Definition getDecorators (modifiers : list Node) : list Node :=
  filter isDecorator modifiers.

Section Extraction.

(** Whether the compiler API in use has [ts.canHaveDecorators] and
    [ts.getDecorators] (TypeScript 4.8 and later). *)
Variable decoratorApi : bool.

(** [processHandlerDeclaration(node, sourceFile, filePath, result)].  It
    is only called on class declarations.  Nothing in the [try] block
    throws on the trees of this model, so the [catch] is not reached. *)
Definition processHandlerDeclaration (node : Node) (filePath : string)
    (result : AnalysisResult) : AnalysisResult :=
  match node with
  | ClassDeclaration _ modifiers (Some className) _ _ =>
      let nodeText := getText node in
      let result1 :=
        fold_left (fun r h => pushHandler h r)
          (lexicalEdges filePath className (getLineAndCharacter node) nodeText)
          result in
      if decoratorApi then
        fold_left (structuralStep filePath className (getLineAndCharacter node))
          (getDecorators modifiers) result1
      else result1
  | _ => result
  end.

(** [visitNode(node, sourceFile, filePath, result)]. *)
Fixpoint visitNode (parents : list Node) (filePath : string) (node : Node)
    (result : AnalysisResult) {struct node} : AnalysisResult :=
  let result1 :=
    if isCallExpression node
    then processPotentialBusUsage node parents filePath result else result in
  let result2 :=
    if isClassDeclaration node
    then processHandlerDeclaration node filePath result1 else result1 in
  let visit := visitNode (node :: parents) filePath in
  let visitEach :=
    fix each (children : list Node) (r : AnalysisResult) : AnalysisResult :=
      match children with
      | [] => r
      | child :: more => each more (visit child r)
      end in
  match node with
  | Identifier _ _ | PrivateIdentifier _ _ => result2
  | PropertyAccessExpression _ e nm => visit nm (visit e result2)
  | NewExpression _ e targs args => visitEach args (visitEach targs (visit e result2))
  | CallExpression _ e targs args => visitEach args (visitEach targs (visit e result2))
  | Decorator _ e => visit e result2
  | ClassDeclaration _ mods _ her mems =>
      visitEach mems (visitEach her (visitEach mods result2))
  | MethodDeclaration _ mods nm rest =>
      visitEach rest (visit nm (visitEach mods result2))
  | OtherNode _ cs => visitEach cs result2
  end.

(** [analyzeFile], from the parsed source file on. *)
Definition analyzeFile (filePath : string) (sourceFile : Node)
    (result : AnalysisResult) : AnalysisResult :=
  visitNode [] filePath sourceFile result.

End Extraction.

(* ------------------------------------------------------------------ *)
(** ** [src/diagram-generators/mermaid-generator.ts]: the edge budget

    The block of [MermaidGenerator.generateDiagram] that applies
    [maxEdges] to the two edge lists before anything is drawn.  [maxEdges]
    is an integer ([parseInt] of the command line option, 0 by default);
    [/] is the division of numbers, so [maxEdges / 2] is a rational. *)

Definition half (maxEdges : Z) : Q := (maxEdges # 2)%Q.

(** [n > q] for a length [n]. *)
Definition exceeds (n : nat) (q : Q) : bool :=
  negb (Qle_bool (inject_Z (Z.of_nat n)) q).

Definition applyMaxEdges (maxEdges : Z) (result : AnalysisResult) : AnalysisResult :=
  let busUsages0 := busUsages result in
  let handlerDeclarations0 := handlerDeclarations result in
  let totalEdges := List.length busUsages0 + List.length handlerDeclarations0 in
  if (0 <? maxEdges)%Z && (maxEdges <? Z.of_nat totalEdges)%Z then
    let busUsages1 :=
      if exceeds (List.length busUsages0) (half maxEdges)
      then Js.slice0 busUsages0 (Qfloor (half maxEdges))
      else busUsages0 in
    let remainingEdges := (maxEdges - Z.of_nat (List.length busUsages1))%Z in
    let handlerDeclarations1 :=
      if (0 <? remainingEdges)%Z
         && (remainingEdges <? Z.of_nat (List.length handlerDeclarations0))%Z
      then Js.slice0 handlerDeclarations0 remainingEdges
      else handlerDeclarations0 in
    {| busUsages := busUsages1; handlerDeclarations := handlerDeclarations1 |}
  else result.

(* ------------------------------------------------------------------ *)
(** ** [Map] and [Set] with string keys, in insertion order *)

Module JsMap.

Definition t (V : Type) : Type := list (string * V).

Fixpoint get {V : Type} (m : t V) (k : string) : option V :=
  match m with
  | [] => None
  | (k', v) :: m' => if String.eqb k' k then Some v else get m' k
  end.

Definition has {V : Type} (m : t V) (k : string) : bool :=
  match get m k with Some _ => true | None => false end.

(** [set] keeps the place of a key that is present and appends a new one. *)
Fixpoint set {V : Type} (m : t V) (k : string) (v : V) : t V :=
  match m with
  | [] => [(k, v)]
  | (k', v') :: m' =>
      if String.eqb k' k then (k', v) :: m' else (k', v') :: set m' k v
  end.

Definition keys {V : Type} (m : t V) : list string := map fst m.

Definition size {V : Type} (m : t V) : nat := List.length m.

End JsMap.

Module JsSet.

Definition t : Type := list string.

Definition has (s : t) (x : string) : bool := existsb (String.eqb x) s.

Definition add (s : t) (x : string) : t := if has s x then s else s ++ [x].

Definition size (s : t) : nat := List.length s.

End JsSet.

(* ------------------------------------------------------------------ *)
(** ** [src/architecture-analyzer/index.ts] *)

Inductive IssueSeverity : Type := INFO | WARNING | ERROR.

(** The values the [context] field takes. *)
Inductive IssueContext : Type :=
| NoContext
| Connections (c : list (string * nat))
| Producers (c : list (string * list string))
| Handlers (c : list (string * list string)).

Record ArchitectureIssue : Type := {
  type_ : string;
  severity : IssueSeverity;
  description : string;
  elements : list string;
  context : IssueContext
}.

Record Metrics : Type := {
  totalClasses : nat;
  totalEvents : nat;
  eventProducers : nat;
  eventConsumers : nat;
  dualRoleClassesCount : nat;
  orphanEvents : nat;
  orphanHandlersCount : nat;
  averageConnections : Q
}.

Record ArchitectureAnalysisResult : Type := {
  issues : list ArchitectureIssue;
  metrics : Metrics
}.

Section Analyzer.

Variable result : AnalysisResult.

Definition busUsers : JsSet.t :=
  fold_left (fun s usage => JsSet.add s (BusUsage.className usage))
    (busUsages result) [].

Definition handlerClasses : JsSet.t :=
  fold_left (fun s handler => JsSet.add s (HandlerDeclaration.className handler))
    (handlerDeclarations result) [].

Definition dualRoleClasses : JsSet.t :=
  fold_left
    (fun s className => if JsSet.has handlerClasses className
                        then JsSet.add s className else s)
    busUsers [].

(** [classCouplingCount.get(k) || 0], then [set(k, count + 1)]. *)
Definition bump (m : JsMap.t nat) (k : string) : JsMap.t nat :=
  let count := match JsMap.get m k with Some c => c | None => 0 end in
  JsMap.set m k (count + 1).

Definition classCouplingCount : JsMap.t nat :=
  fold_left (fun m handler => bump m (HandlerDeclaration.className handler))
    (handlerDeclarations result)
    (fold_left (fun m usage => bump m (BusUsage.className usage))
       (busUsages result) []).

Definition highCouplingClasses : list (string * nat) :=
  fold_left
    (fun acc entry => if (5 <? snd entry)%nat then acc ++ [(fst entry, snd entry)] else acc)
    classCouplingCount [].

(** [if (!m.has(k)) m.set(k, []); m.get(k)?.push(c)]. *)
Definition record (m : JsMap.t (list string)) (k c : string) : JsMap.t (list string) :=
  let m1 := if negb (JsMap.has m k) then JsMap.set m k [] else m in
  match JsMap.get m1 k with
  | Some l => JsMap.set m1 k (l ++ [c])
  | None => m1
  end.

Definition eventEmitters : JsMap.t (list string) :=
  fold_left (fun m usage => record m (BusUsage.eventType usage) (BusUsage.className usage))
    (busUsages result) [].

Definition eventHandlers : JsMap.t (list string) :=
  fold_left
    (fun m handler =>
       record m (HandlerDeclaration.eventType handler) (HandlerDeclaration.className handler))
    (handlerDeclarations result) [].

(** [!other.has(k) || other.get(k)?.length === 0]. *)
Definition missingIn (other : JsMap.t (list string)) (k : string) : bool :=
  negb (JsMap.has other k)
  || match JsMap.get other k with
     | Some l => (List.length l =? 0)%nat
     | None => false
     end.

Definition unhandledEvents : list string :=
  fold_left
    (fun acc entry => if missingIn eventHandlers (fst entry) then acc ++ [fst entry] else acc)
    eventEmitters [].

Definition orphanHandlers : list string :=
  fold_left
    (fun acc entry => if missingIn eventEmitters (fst entry) then acc ++ [fst entry] else acc)
    eventHandlers [].

Definition totalConnections : nat :=
  fold_left (fun total entry => total + snd entry) classCouplingCount 0.

Definition classCount : nat :=
  fold_left (fun n (_ : string * nat) => n + 1) classCouplingCount 0.

Definition average : Q :=
  if (0 <? classCount)%nat
  then (inject_Z (Z.of_nat totalConnections) / inject_Z (Z.of_nat classCount))%Q
  else 0%Q.

Definition allEventTypes : JsSet.t :=
  fold_left (fun s handler => JsSet.add s (HandlerDeclaration.eventType handler))
    (handlerDeclarations result)
    (fold_left (fun s usage => JsSet.add s (BusUsage.eventType usage))
       (busUsages result) []).

Definition orEmpty (o : option (list string)) : list string :=
  match o with Some l => l | None => [] end.

Definition issueList : list ArchitectureIssue :=
  (if (0 <? JsSet.size dualRoleClasses)%nat then
     [{| type_ := "SingleResponsibilityViolation";
         severity := WARNING;
         description := "Classes that both produce and consume events may violate the Single Responsibility Principle";
         elements := dualRoleClasses;
         context := NoContext |}]
   else [])
  ++ (if (0 <? List.length highCouplingClasses)%nat then
        [{| type_ := "HighCoupling";
            severity := WARNING;
            description := "Classes with too many connections may be difficult to maintain and test";
            elements := map fst highCouplingClasses;
            context := Connections highCouplingClasses |}]
      else [])
  ++ (if (0 <? List.length unhandledEvents)%nat then
        [{| type_ := "UnhandledEvents";
            severity := ERROR;
            description := "Events that are produced but not handled may indicate incomplete implementation";
            elements := unhandledEvents;
            context :=
              Producers (map (fun e => (e, orEmpty (JsMap.get eventEmitters e)))
                           unhandledEvents) |}]
      else [])
  ++ (if (0 <? List.length orphanHandlers)%nat then
        [{| type_ := "OrphanHandlers";
            severity := WARNING;
            description := "Handlers for events that are not produced may be dead code";
            elements := orphanHandlers;
            context :=
              Handlers (map (fun e => (e, orEmpty (JsMap.get eventHandlers e)))
                          orphanHandlers) |}]
      else []).

Definition analyzeArchitecture : ArchitectureAnalysisResult :=
  {| issues := issueList;
     metrics :=
       {| totalClasses := JsMap.size classCouplingCount;
          totalEvents := JsSet.size allEventTypes;
          eventProducers := JsSet.size busUsers;
          eventConsumers := JsSet.size handlerClasses;
          dualRoleClassesCount := JsSet.size dualRoleClasses;
          orphanEvents := List.length unhandledEvents;
          orphanHandlersCount := List.length orphanHandlers;
          averageConnections := average |} |}.

End Analyzer.

(* ------------------------------------------------------------------ *)
(** ** The rules in the words of the specification

    Definitions written from the specification, to be compared with the
    ones above that are written from the code. *)

Module Spec.

(** The two-stage truncation of section 4.4.  A count [n] exceeds half
    the budget when [maxEdges < 2 * n]; the floor of half the budget is
    the integer quotient. *)
Definition truncation {A B : Type} (maxEdges : Z) (bus : list A) (handlers : list B)
  : list A * list B :=
  let bus' :=
    if (maxEdges <? 2 * Z.of_nat (List.length bus))%Z
    then firstn (Z.to_nat (maxEdges / 2)) bus else bus in
  let remaining := (maxEdges - Z.of_nat (List.length bus'))%Z in
  let handlers' :=
    if (0 <? remaining)%Z && (remaining <? Z.of_nat (List.length handlers))%Z
    then firstn (Z.to_nat remaining) handlers else handlers in
  (bus', handlers').

End Spec.

Module SpecExtraction.

(** A case-insensitive substring test: some substring of [name] is
    [word] once its letters are lowered. *)
Definition containsIgnoringCase (word name : string) : Prop :=
  exists pre mid post,
    name = (pre ++ mid ++ post)%string /\ Js.toLowerCase mid = word.

(** The name a class declaration has, if it has one. *)
Definition namedClass (n : Node) : option string :=
  match n with
  | ClassDeclaration _ _ (Some nm) _ _ => Some nm
  | _ => None
  end.

Definition unnamed (n : Node) : Prop := namedClass n = None.

Definition notMethod (n : Node) : Prop := isMethodDeclaration n = false.

(** The method lookup as section 4.1 words it: walk upward and stop at
    the first method declaration with an identifier name. *)
Fixpoint firstMethodWithIdentifierName (chain : list Node) : option string :=
  match chain with
  | [] => None
  | MethodDeclaration _ _ (Identifier _ t) _ :: _ => Some t
  | _ :: parents => firstMethodWithIdentifierName parents
  end.

Definition isNewOfIdentifier (n : Node) : bool :=
  match n with NewExpression _ (Identifier _ _) _ _ => true | _ => false end.

Definition isAccessOfIdentifier (n : Node) : bool :=
  match n with PropertyAccessExpression _ _ (Identifier _ _) => true | _ => false end.

(** The text of an identifier; of a new-expression, the text of the
    callee; of a property access, the text of its rightmost segment. *)
Definition identifierText (n : Node) : string :=
  match n with
  | Identifier _ t => t
  | NewExpression _ (Identifier _ t) _ _ => t
  | PropertyAccessExpression _ _ (Identifier _ t) => t
  | _ => ""
  end.

(** The ordered fallback of section 4.2 for the event type. *)
Definition inferredEventType (typeArguments arguments : list Node) : string :=
  match hd_error typeArguments with
  | Some typeArg => getText typeArg
  | None =>
      match hd_error arguments with
      | Some firstArg =>
          if isNewOfIdentifier firstArg then identifierText firstArg
          else if isIdentifier firstArg then identifierText firstArg
          else if isAccessOfIdentifier firstArg then identifierText firstArg
          else "Unknown"
      | None => "Unknown"
      end
  end.

(** Path A detects a handler of kind [k] in the text of a class. *)
Definition lexicallyDetected (classText : string) (k : HandlerType) : bool :=
  existsb (fun m => HandlerType_eqb (fst m) k) (Regex.matchAll classText).

(** Path B detects a handler of kind [k] among the modifiers of a class. *)
Definition structurallyDetected (modifiers : list Node) (k : HandlerType) : bool :=
  existsb
    (fun d => match structuralHandler d with
              | Some (k', _) => HandlerType_eqb k' k
              | None => false
              end)
    (getDecorators modifiers).

(** The edges of a (class, handler kind) pair in a result. *)
Definition edgesOf (c : string) (k : HandlerType) (r : AnalysisResult)
  : list HandlerDeclaration.t :=
  filter (sameHandler c k) (handlerDeclarations r).

End SpecExtraction.

Module SpecAnalyzer.

(** The class names of all edges, bus usages first. *)
Definition classNames (r : AnalysisResult) : list string :=
  map BusUsage.className (busUsages r)
  ++ map HandlerDeclaration.className (handlerDeclarations r).

(** The coupling count of a class: the number of bus-usage edges plus the
    number of handler edges that mention it. *)
Definition coupling (r : AnalysisResult) (c : string) : nat :=
  count_occ string_dec (classNames r) c.

(** The event types among the bus-usage edges and among the handler edges. *)
Definition emitted (r : AnalysisResult) : list string :=
  map BusUsage.eventType (busUsages r).

Definition handled (r : AnalysisResult) : list string :=
  map HandlerDeclaration.eventType (handlerDeclarations r).

(** The ratio of section 4.5, item 8, over the distinct classes. *)
Definition averageOver (r : AnalysisResult) (classes : list string) : Q :=
  if (List.length classes =? 0)%nat then 0%Q
  else (inject_Z (Z.of_nat (list_sum (map (coupling r) classes)))
        / inject_Z (Z.of_nat (List.length classes)))%Q.

(** Every list held by the map has an element. *)
Definition populated (m : JsMap.t (list string)) : Prop :=
  forall k l, JsMap.get m k = Some l -> l <> [].

(** The map counts the occurrences of each name in [seen], and holds no
    name that does not occur. *)
Definition counts (m : JsMap.t nat) (seen : list string) : Prop :=
  NoDup (JsMap.keys m)
  /\ forall k, JsMap.get m k
               = (let n := count_occ string_dec seen k in
                  if (n =? 0)%nat then None else Some n).

End SpecAnalyzer.

(* ------------------------------------------------------------------ *)
(** ** Trees of parsed source

    What the scanner guarantees of the tokens of a source unit that parses:
    an identifier has at least one character, and so has the source text
    of a type argument.  The extraction itself checks neither. *)

Definition nonEmpty (s : string) : bool := negb (String.eqb s "").

Fixpoint lexemesPresent (n : Node) : bool :=
  let typeArgument t := nonEmpty (getText t) && lexemesPresent t in
  match n with
  | Identifier _ t | PrivateIdentifier _ t => nonEmpty t
  | PropertyAccessExpression _ e nm => lexemesPresent e && lexemesPresent nm
  | NewExpression _ e targs args =>
      lexemesPresent e && forallb typeArgument targs && forallb lexemesPresent args
  | CallExpression _ e targs args =>
      lexemesPresent e && forallb typeArgument targs && forallb lexemesPresent args
  | Decorator _ e => lexemesPresent e
  | ClassDeclaration _ mods _ her mems =>
      forallb lexemesPresent mods && forallb lexemesPresent her
      && forallb lexemesPresent mems
  | MethodDeclaration _ mods nm rest =>
      forallb lexemesPresent mods && lexemesPresent nm && forallb lexemesPresent rest
  | OtherNode _ cs => forallb lexemesPresent cs
  end.


(* ------------------------------------------------------------------ *)
(** ** Concrete source units *)

Module Examples.

Local Open Scope string_scope.

Definition at_ (l c : nat) (txt : string) : Span :=
  {| sourceText := txt; startPos := {| line := l; character := c |} |}.

(** [this.commandBus.execute(new CreateOrderCommand())] *)
Definition placeOrderCall : Node :=
  CallExpression (at_ 2 4 "this.commandBus.execute(new CreateOrderCommand())")
    (PropertyAccessExpression (at_ 2 4 "this.commandBus.execute")
       (PropertyAccessExpression (at_ 2 4 "this.commandBus")
          (OtherNode (at_ 2 4 "this") [])
          (Identifier (at_ 2 9 "commandBus") "commandBus"))
       (Identifier (at_ 2 20 "execute") "execute"))
    []
    [NewExpression (at_ 2 28 "new CreateOrderCommand()")
       (Identifier (at_ 2 32 "CreateOrderCommand") "CreateOrderCommand") [] []].

Definition placeOrderText : string :=
  "placeOrder() { this.commandBus.execute(new CreateOrderCommand()); }".

Definition orderServiceText : string :=
  "class OrderService { placeOrder() { this.commandBus.execute(new CreateOrderCommand()); } }".

(** The source unit of scenario 1: class [OrderService] with the method
    [placeOrder], whose body is the call above. *)
Definition orderServiceUnit : Node :=
  OtherNode (at_ 0 0 orderServiceText)
    [ClassDeclaration (at_ 0 0 orderServiceText) [] (Some "OrderService") []
       [MethodDeclaration (at_ 1 2 placeOrderText) []
          (Identifier (at_ 1 2 "placeOrder") "placeOrder")
          [OtherNode (at_ 1 15 "{ this.commandBus.execute(new CreateOrderCommand()); }")
             [OtherNode (at_ 2 4 "this.commandBus.execute(new CreateOrderCommand());")
                [placeOrderCall]]]]].

(** The source unit
    [class A { outer() { class B { 'inner'() { this.commandBus.execute(new X()); } } } }]:
    the call stands in a method with a string-literal name, in a class
    declared inside the method [outer] of class [A]. *)
Definition innerCall : Node :=
  CallExpression (at_ 0 42 "this.commandBus.execute(new X())")
    (PropertyAccessExpression (at_ 0 42 "this.commandBus.execute")
       (PropertyAccessExpression (at_ 0 42 "this.commandBus")
          (OtherNode (at_ 0 42 "this") [])
          (Identifier (at_ 0 47 "commandBus") "commandBus"))
       (Identifier (at_ 0 58 "execute") "execute"))
    []
    [NewExpression (at_ 0 66 "new X()") (Identifier (at_ 0 70 "X") "X") [] []].

Definition innerStatement : Node :=
  OtherNode (at_ 0 42 "this.commandBus.execute(new X());") [innerCall].

Definition innerBody : Node :=
  OtherNode (at_ 0 40 "{ this.commandBus.execute(new X()); }") [innerStatement].

Definition innerMethod : Node :=
  MethodDeclaration (at_ 0 30 "'inner'() { this.commandBus.execute(new X()); }") []
    (OtherNode (at_ 0 30 "'inner'") []) [innerBody].

Definition classB : Node :=
  ClassDeclaration (at_ 0 20 "class B { 'inner'() { this.commandBus.execute(new X()); } }")
    [] (Some "B") [] [innerMethod].

Definition outerBody : Node :=
  OtherNode (at_ 0 18 "{ class B { 'inner'() { this.commandBus.execute(new X()); } } }")
    [classB].

Definition outerMethod : Node :=
  MethodDeclaration
    (at_ 0 10 "outer() { class B { 'inner'() { this.commandBus.execute(new X()); } } }") []
    (Identifier (at_ 0 10 "outer") "outer") [outerBody].

Definition nestedText : string :=
  "class A { outer() { class B { 'inner'() { this.commandBus.execute(new X()); } } } }".

Definition classA : Node :=
  ClassDeclaration (at_ 0 0 nestedText) [] (Some "A") [] [outerMethod].

Definition nestedUnit : Node := OtherNode (at_ 0 0 nestedText) [classA].

(** The call followed by its ancestors, innermost first. *)
Definition nestedChain : list Node :=
  [innerCall; innerStatement; innerBody; innerMethod; classB;
   outerBody; outerMethod; classA; nestedUnit].

(** [@EventsHandler(OrderCreated) @EventsHandler(OrderShipped) export class OrderSaga {}] *)
Definition orderSagaText : string :=
  "@EventsHandler(OrderCreated) @EventsHandler(OrderShipped) export class OrderSaga {}".

Definition handlerDecorator (c : nat) (kind event : string) : Node :=
  Decorator (at_ 0 c ("@" ++ kind ++ "(" ++ event ++ ")"))
    (CallExpression (at_ 0 (c + 1) (kind ++ "(" ++ event ++ ")"))
       (Identifier (at_ 0 (c + 1) kind) kind) []
       [Identifier (at_ 0 (c + 2 + String.length kind) event) event]).

Definition orderSaga : Node :=
  ClassDeclaration (at_ 0 0 orderSagaText)
    [handlerDecorator 0 "EventsHandler" "OrderCreated";
     handlerDecorator 29 "EventsHandler" "OrderShipped";
     OtherNode (at_ 0 58 "export") []]
    (Some "OrderSaga") [] [].

Definition sagaEdge (event : string) : HandlerDeclaration.t :=
  {| HandlerDeclaration.sourceFile := "order.saga.ts";
     HandlerDeclaration.className := "OrderSaga";
     HandlerDeclaration.handlerType := EventsHandler;
     HandlerDeclaration.eventType := event;
     HandlerDeclaration.position := {| line := 0; character := 0 |} |}.

(** [@CommandHandler(Commands.CreateOrder) class CreateOrderHandler {}]:
    path A reads [Commands], path B reads [CreateOrder]. *)
Definition createOrderHandlerText : string :=
  "@CommandHandler(Commands.CreateOrder) class CreateOrderHandler {}".

Definition createOrderHandler : Node :=
  ClassDeclaration (at_ 0 0 createOrderHandlerText)
    [Decorator (at_ 0 0 "@CommandHandler(Commands.CreateOrder)")
       (CallExpression (at_ 0 1 "CommandHandler(Commands.CreateOrder)")
          (Identifier (at_ 0 1 "CommandHandler") "CommandHandler") []
          [PropertyAccessExpression (at_ 0 16 "Commands.CreateOrder")
             (Identifier (at_ 0 16 "Commands") "Commands")
             (Identifier (at_ 0 25 "CreateOrder") "CreateOrder")])]
    (Some "CreateOrderHandler") [] [].

(** Scenario 3 next to scenario 1: [OrderService] sends
    [CreateOrderCommand], which [OrderHandler] handles, and
    [ShipOrderCommand], which nothing handles; [AuditHandler] handles
    [OrderAudited], which nothing sends. *)
Definition usage (cls meth event : string) : BusUsage.t :=
  {| BusUsage.sourceFile := "order.service.ts";
     BusUsage.className := cls;
     BusUsage.methodName := Some meth;
     BusUsage.busType := CommandBus;
     BusUsage.eventType := event;
     BusUsage.position := {| line := 2; character := 4 |} |}.

Definition handler (cls event : string) : HandlerDeclaration.t :=
  {| HandlerDeclaration.sourceFile := "handlers.ts";
     HandlerDeclaration.className := cls;
     HandlerDeclaration.handlerType := CommandHandler;
     HandlerDeclaration.eventType := event;
     HandlerDeclaration.position := {| line := 0; character := 0 |} |}.

Definition orders : AnalysisResult :=
  {| busUsages := [usage "OrderService" "placeOrder" "CreateOrderCommand";
                   usage "OrderService" "shipOrder" "ShipOrderCommand"];
     handlerDeclarations := [handler "OrderHandler" "CreateOrderCommand";
                             handler "AuditHandler" "OrderAudited"] |}.

End Examples.

(* ------------------------------------------------------------------ *)
(** ** [src/file-analyzer/index.ts]: which files are analysed *)

Module JsString.

(** [String.prototype.endsWith]: the search string is compared with the
    substring that starts [length p] characters before the end. *)
Definition endsWith (s p : string) : bool :=
  if (String.length p <=? String.length s)%nat
  then String.eqb (Js.drop (String.length s - String.length p) s) p
  else false.

End JsString.

Definition excludePatterns : list string :=
  [".d.ts"; ".spec.ts"; ".test.ts"; ".mock.ts"; ".fixture.ts"; ".e2e-spec.ts"].

Definition isTypeScriptFile (fileName : string) : bool :=
  if negb (JsString.endsWith fileName ".ts") then false
  else negb (existsb (fun pattern => JsString.endsWith fileName pattern) excludePatterns).

(** What [excludePatterns] leaves of a pattern before its [.ts]. *)
Definition excludedStems : list string :=
  [".d"; ".spec"; ".test"; ".mock"; ".fixture"; ".e2e-spec"].

(* ------------------------------------------------------------------ *)
(** ** [src/analyzer.ts]: several units, then the budget, then the analysis

    [CQRSAnalyzer.analyze] starts [analyzeFile] for every file at once and
    waits for all of them.  An [analyzeFile] reads its file and then parses
    and visits it without a further suspension point, so the visits run one
    after another, in the order in which the reads complete.  [units] are
    the parsed files in that order, each with its path. *)

Definition analyzeUnits (decoratorApi : bool) (units : list (string * Node))
    (result : AnalysisResult) : AnalysisResult :=
  fold_left (fun r unit => analyzeFile decoratorApi (fst unit) (snd unit) r) units result.

(** The budget block of [CQRSAnalyzer.analyze].  It differs from the one
    of [generateDiagram] in testing [this.options.maxEdges] for truthiness
    first and in assigning to the fields of the result. *)
Definition limitAnalysis (maxEdges : Z) (analysisResult : AnalysisResult) : AnalysisResult :=
  let totalEdges :=
    List.length (busUsages analysisResult)
    + List.length (handlerDeclarations analysisResult) in
  if negb (maxEdges =? 0)%Z && (0 <? maxEdges)%Z
     && (maxEdges <? Z.of_nat totalEdges)%Z then
    let busUsages1 :=
      if exceeds (List.length (busUsages analysisResult)) (half maxEdges)
      then Js.slice0 (busUsages analysisResult) (Qfloor (half maxEdges))
      else busUsages analysisResult in
    let remainingEdges := (maxEdges - Z.of_nat (List.length busUsages1))%Z in
    let handlerDeclarations1 :=
      if (0 <? remainingEdges)%Z
         && (remainingEdges <? Z.of_nat (List.length (handlerDeclarations analysisResult)))%Z
      then Js.slice0 (handlerDeclarations analysisResult) remainingEdges
      else handlerDeclarations analysisResult in
    {| busUsages := busUsages1; handlerDeclarations := handlerDeclarations1 |}
  else analysisResult.

(** The part of [CQRSAnalyzer.analyze] between the extraction and the
    writing of files: the limited result and its analysis. *)
Definition analyzeLimited (maxEdges : Z) (analysisResult : AnalysisResult)
  : AnalysisResult * ArchitectureAnalysisResult :=
  let limited := limitAnalysis maxEdges analysisResult in
  (limited, analyzeArchitecture limited).

(* ------------------------------------------------------------------ *)
(** ** Relations between results, used to state what the traversal keeps *)

(** [r'] is [r] with edges of the file [filePath] appended. *)
Definition appended (filePath : string) (r r' : AnalysisResult) : Prop :=
  exists us hs,
    busUsages r' = busUsages r ++ us
    /\ handlerDeclarations r' = handlerDeclarations r ++ hs
    /\ Forall (fun u => BusUsage.sourceFile u = filePath) us
    /\ Forall (fun h => HandlerDeclaration.sourceFile h = filePath) hs.

(** [g] appends to the list [proj] selects the same edges whatever the
    result it is applied to. *)
Definition fixedAppend {A : Type} (proj : AnalysisResult -> list A)
    (g : AnalysisResult -> AnalysisResult) : Prop :=
  exists l, forall r, proj (g r) = proj r ++ l.

(** The test path B applies to a decorator, for the handler kind [k]. *)
Definition declares (k : HandlerType) (decorator : Node) : bool :=
  match structuralHandler decorator with
  | Some (k', _) => HandlerType_eqb k' k
  | None => false
  end.

(** No character of [s] is a word character. *)
Definition wordless (s : string) : bool :=
  negb (existsb Js.isWordChar (list_ascii_of_string s)).

(** Every character of [s] is a word character. *)
Definition wordOnly (s : string) : bool :=
  forallb Js.isWordChar (list_ascii_of_string s).

(** [s] is empty or starts with a character that is no word character. *)
Definition wordEnds (s : string) : bool :=
  match s with
  | EmptyString => true
  | String c _ => negb (Js.isWordChar c)
  end.

Module Examples2.

Local Open Scope string_scope.

(** A decorator [@CommandHandler<event>(handlerOptions)]: the type
    argument keeps path A from matching. *)
Definition typedDecorator (c : nat) (event : string) : Node :=
  Decorator (Examples.at_ 0 c ("@CommandHandler<" ++ event ++ ">(handlerOptions)"))
    (CallExpression
       (Examples.at_ 0 (c + 1) ("CommandHandler<" ++ event ++ ">(handlerOptions)"))
       (Identifier (Examples.at_ 0 (c + 1) "CommandHandler") "CommandHandler")
       [OtherNode (Examples.at_ 0 (c + 16) event)
          [Identifier (Examples.at_ 0 (c + 16) event) event]]
       [Identifier (Examples.at_ 0 (c + 18 + String.length event) "handlerOptions")
          "handlerOptions"]).

(** [@CommandHandler<CreateOrder>(handlerOptions) class OrderHandler {}] *)
Definition typedHandlerText : string :=
  "@CommandHandler<CreateOrder>(handlerOptions) class OrderHandler {}".

Definition typedHandler : Node :=
  ClassDeclaration (Examples.at_ 0 0 typedHandlerText) [typedDecorator 0 "CreateOrder"]
    (Some "OrderHandler") [] [].

Definition typedUnit : string * Node :=
  ("typed.handler.ts", OtherNode (Examples.at_ 0 0 typedHandlerText) [typedHandler]).

(** The same class with a second decorator of the kind,
    [@CommandHandler<CancelOrder>(handlerOptions)]. *)
Definition twiceTypedText : string :=
  "@CommandHandler<CreateOrder>(handlerOptions) @CommandHandler<CancelOrder>(handlerOptions) class OrderHandler {}".

Definition twiceTypedModifiers : list Node :=
  [typedDecorator 0 "CreateOrder"; typedDecorator 45 "CancelOrder"].

(** [@CommandHandler(CancelOrder) class OrderHandler {}], a class of the
    same name in another file. *)
Definition plainHandlerText : string :=
  "@CommandHandler(CancelOrder) class OrderHandler {}".

Definition plainHandler : Node :=
  ClassDeclaration (Examples.at_ 0 0 plainHandlerText)
    [Examples.handlerDecorator 0 "CommandHandler" "CancelOrder"]
    (Some "OrderHandler") [] [].

Definition plainUnit : string * Node :=
  ("plain.handler.ts", OtherNode (Examples.at_ 0 0 plainHandlerText) [plainHandler]).

(** [this.queryBus.execute(a.);], a source unit with a syntax error.  The
    parser recovers from it and still delivers a tree: the name that is
    missing after the dot is an identifier of no characters. *)
Definition recoveredCall : Node :=
  CallExpression (Examples.at_ 0 0 "this.queryBus.execute(a.)")
    (PropertyAccessExpression (Examples.at_ 0 0 "this.queryBus.execute")
       (PropertyAccessExpression (Examples.at_ 0 0 "this.queryBus")
          (OtherNode (Examples.at_ 0 0 "this") [])
          (Identifier (Examples.at_ 0 5 "queryBus") "queryBus"))
       (Identifier (Examples.at_ 0 14 "execute") "execute"))
    []
    [PropertyAccessExpression (Examples.at_ 0 22 "a.")
       (Identifier (Examples.at_ 0 22 "a") "a")
       (Identifier (Examples.at_ 0 24 "") "")].

Definition recoveredUnit : Node :=
  OtherNode (Examples.at_ 0 0 "this.queryBus.execute(a.);")
    [OtherNode (Examples.at_ 0 0 "this.queryBus.execute(a.);") [recoveredCall]].

End Examples2.

(* ------------------------------------------------------------------ *)
(** ** What the indices of the analyzer are meant to hold *)

(** The classes that send, and that handle, a given event type: one entry
    per edge, in the order of the edges. *)
Definition producersOf (r : AnalysisResult) (e : string) : list string :=
  map BusUsage.className
    (filter (fun u => String.eqb (BusUsage.eventType u) e) (busUsages r)).

Definition consumersOf (r : AnalysisResult) (e : string) : list string :=
  map HandlerDeclaration.className
    (filter (fun h => String.eqb (HandlerDeclaration.eventType h) e)
       (handlerDeclarations r)).

(** A map holds a list only when the list has an element. *)
Definition whenPopulated (l : list string) : option (list string) :=
  match l with
  | [] => None
  | _ => Some l
  end.

Definition producerNames (r : AnalysisResult) : list string :=
  map BusUsage.className (busUsages r).

Definition consumerNames (r : AnalysisResult) : list string :=
  map HandlerDeclaration.className (handlerDeclarations r).

(* ------------------------------------------------------------------ *)
(** ** [src/diagram-generators/mermaid-generator.ts]: the diagram text

    [generateMermaidContent] builds the text by appending to one string.
    The two loops that number the nodes carry the text, the map from names
    to node ids and the counter. *)

Module Mermaid.

Local Open Scope string_scope.

Definition nl : string := String (ascii_of_nat 10) EmptyString.

Definition quote : string := String (ascii_of_nat 34) EmptyString.

(** [s.replace(...)] with the global pattern of a single or a double
    quote, and the empty replacement. *)
Fixpoint stripQuotes (s : string) : string :=
  match s with
  | EmptyString => EmptyString
  | String c s' =>
      if (Js.code c =? 39)%nat || (Js.code c =? 34)%nat then stripQuotes s'
      else String c (stripQuotes s')
  end.

(** A counter in a template literal: the decimal digits of the number. *)
Definition showNat (n : nat) : string := NilEmpty.string_of_uint (Nat.to_uint n).

Definition busTypeName (b : BusType) : string :=
  match b with
  | EventBus => "EventBus"
  | QueryBus => "QueryBus"
  | CommandBus => "CommandBus"
  end.

Record Options : Type := { title : string; includeLegend : bool }.

Definition NodeState : Type := (string * JsMap.t string * nat)%type.

(** A string in a condition: the empty string and [undefined] are falsy. *)
Definition truthy (o : option string) : bool :=
  match o with
  | Some s => negb (String.eqb s "")
  | None => false
  end.

Definition idText (o : option string) : string :=
  match o with Some s => s | None => "" end.

Definition busUsersOf (busUsages : list BusUsage.t) : JsSet.t :=
  fold_left (fun s usage => JsSet.add s (BusUsage.className usage)) busUsages [].

Definition handlerClassesOf (handlerDeclarations : list HandlerDeclaration.t) : JsSet.t :=
  fold_left (fun s handler => JsSet.add s (HandlerDeclaration.className handler))
    handlerDeclarations [].

Definition eventTypesOf (busUsages : list BusUsage.t)
    (handlerDeclarations : list HandlerDeclaration.t) : JsSet.t :=
  fold_left (fun s handler => JsSet.add s (HandlerDeclaration.eventType handler))
    handlerDeclarations
    (fold_left (fun s usage => JsSet.add s (BusUsage.eventType usage)) busUsages []).

(** [new Set([...busUsers, ...handlerClasses])]. *)
Definition allClassesOf (busUsers handlerClasses : JsSet.t) : JsSet.t :=
  fold_left JsSet.add (busUsers ++ handlerClasses)%list [].

(** The body of [allClasses.forEach]. *)
Definition classNode (busUsers handlerClasses : JsSet.t) (st : NodeState)
    (className : string) : NodeState :=
  let '(mermaidContent, classNodes, counter) := st in
  let nodeId := "class_" ++ showNat counter in
  let classNodes1 := JsMap.set classNodes className nodeId in
  let isBusUser := JsSet.has busUsers className in
  let isHandler := JsSet.has handlerClasses className in
  let styleClass :=
    if isBusUser && isHandler then "both"
    else if isBusUser then "producer"
    else if isHandler then "consumer"
    else "" in
  let escapedClassName := stripQuotes className in
  let content1 :=
    mermaidContent ++ "  " ++ nodeId ++ "[" ++ quote ++ escapedClassName ++ quote ++ "]" ++ nl in
  let content2 :=
    if negb (String.eqb styleClass "")
    then content1 ++ "  class " ++ nodeId ++ " " ++ styleClass ++ nl
    else content1 in
  (content2, classNodes1, counter + 1).

(** The body of [eventTypes.forEach]. *)
Definition eventNode (st : NodeState) (eventType : string) : NodeState :=
  let '(mermaidContent, eventNodes, counter) := st in
  let nodeId := "event_" ++ showNat counter in
  let eventNodes1 := JsMap.set eventNodes eventType nodeId in
  let escapedEventType := stripQuotes eventType in
  let content1 :=
    mermaidContent ++ "  " ++ nodeId ++ "[" ++ quote ++ escapedEventType ++ quote ++ "]" ++ nl in
  (content1 ++ "  class " ++ nodeId ++ " event" ++ nl, eventNodes1, counter + 1).

(** The body of [busUsages.forEach] among the relationships. *)
Definition usageArrow (classNodes eventNodes : JsMap.t string) (mermaidContent : string)
    (usage : BusUsage.t) : string :=
  let classNodeId := JsMap.get classNodes (BusUsage.className usage) in
  let eventNodeId := JsMap.get eventNodes (BusUsage.eventType usage) in
  if truthy classNodeId && truthy eventNodeId
  then mermaidContent ++ "  " ++ idText classNodeId ++ " -->|"
       ++ busTypeName (BusUsage.busType usage) ++ "| " ++ idText eventNodeId ++ nl
  else mermaidContent.

(** The body of [handlerDeclarations.forEach] among the relationships. *)
Definition handlerArrow (classNodes eventNodes : JsMap.t string) (mermaidContent : string)
    (handler : HandlerDeclaration.t) : string :=
  let classNodeId := JsMap.get classNodes (HandlerDeclaration.className handler) in
  let eventNodeId := JsMap.get eventNodes (HandlerDeclaration.eventType handler) in
  if truthy classNodeId && truthy eventNodeId
  then mermaidContent ++ "  " ++ idText eventNodeId ++ " -->|"
       ++ handlerTypeName (HandlerDeclaration.handlerType handler) ++ "| "
       ++ idText classNodeId ++ nl
  else mermaidContent.

Definition legend : string :=
  nl ++ "  %% Legend" ++ nl
  ++ "  subgraph Legend" ++ nl
  ++ "    leg_producer[" ++ quote ++ "Producer" ++ quote ++ "]" ++ nl
  ++ "    leg_consumer[" ++ quote ++ "Consumer" ++ quote ++ "]" ++ nl
  ++ "    leg_both[" ++ quote ++ "Both" ++ quote ++ "]" ++ nl
  ++ "    leg_event[" ++ quote ++ "Event/Command/Query" ++ quote ++ "]" ++ nl
  ++ "  end" ++ nl
  ++ "  class leg_producer producer" ++ nl
  ++ "  class leg_consumer consumer" ++ nl
  ++ "  class leg_both both" ++ nl
  ++ "  class leg_event event" ++ nl.

Definition styles : string :=
  nl ++ "  %% Style definitions" ++ nl
  ++ "  classDef producer fill:#d4e6f1,stroke:#2874a6,stroke-width:1px" ++ nl
  ++ "  classDef consumer fill:#d5f5e3,stroke:#1e8449,stroke-width:1px" ++ nl
  ++ "  classDef both fill:#e8daef,stroke:#8e44ad,stroke-width:1px" ++ nl
  ++ "  classDef event fill:#fcf3cf,stroke:#d4ac0d,stroke-width:1px,style:rounded" ++ nl.

Definition generateMermaidContent (busUsages : list BusUsage.t)
    (handlerDeclarations : list HandlerDeclaration.t) (options : Options) : string :=
  let content0 := "flowchart LR" ++ nl ++ "  %% " ++ title options ++ nl ++ nl in
  let busUsers := busUsersOf busUsages in
  let handlerClasses := handlerClassesOf handlerDeclarations in
  let eventTypes := eventTypesOf busUsages handlerDeclarations in
  let content1 := content0 ++ "  %% Classes" ++ nl in
  let allClasses := allClassesOf busUsers handlerClasses in
  let '(content2, classNodes, _) :=
    fold_left (classNode busUsers handlerClasses) allClasses (content1, [], 1) in
  let content3 := content2 ++ nl ++ "  %% Events/Commands/Queries" ++ nl in
  let '(content4, eventNodes, _) := fold_left eventNode eventTypes (content3, [], 1) in
  let content5 := content4 ++ nl ++ "  %% Relationships" ++ nl in
  let content6 := fold_left (usageArrow classNodes eventNodes) busUsages content5 in
  let content7 := fold_left (handlerArrow classNodes eventNodes) handlerDeclarations content6 in
  let content8 := if includeLegend options then content7 ++ legend else content7 in
  content8 ++ styles.

(** *** The text without the loops

    The node ids in the order of the set, numbered from [n]. *)
Fixpoint numbered (prefix : string) (n : nat) (names : list string) : JsMap.t string :=
  match names with
  | [] => []
  | name :: more => (name, prefix ++ showNat n) :: numbered prefix (S n) more
  end.

Fixpoint concat (parts : list string) : string :=
  match parts with
  | [] => ""
  | p :: more => p ++ concat more
  end.

Definition classLines (busUsers handlerClasses : JsSet.t) (node : string * string) : string :=
  "  " ++ snd node ++ "[" ++ quote ++ stripQuotes (fst node) ++ quote ++ "]" ++ nl
  ++ "  class " ++ snd node ++ " "
  ++ (if JsSet.has handlerClasses (fst node)
      then if JsSet.has busUsers (fst node) then "both" else "consumer"
      else "producer")
  ++ nl.

Definition eventLines (node : string * string) : string :=
  "  " ++ snd node ++ "[" ++ quote ++ stripQuotes (fst node) ++ quote ++ "]" ++ nl
  ++ "  class " ++ snd node ++ " event" ++ nl.

Definition usageLine (classNodes eventNodes : JsMap.t string) (usage : BusUsage.t) : string :=
  "  " ++ idText (JsMap.get classNodes (BusUsage.className usage)) ++ " -->|"
  ++ busTypeName (BusUsage.busType usage) ++ "| "
  ++ idText (JsMap.get eventNodes (BusUsage.eventType usage)) ++ nl.

Definition handlerLine (classNodes eventNodes : JsMap.t string)
    (handler : HandlerDeclaration.t) : string :=
  "  " ++ idText (JsMap.get eventNodes (HandlerDeclaration.eventType handler)) ++ " -->|"
  ++ handlerTypeName (HandlerDeclaration.handlerType handler) ++ "| "
  ++ idText (JsMap.get classNodes (HandlerDeclaration.className handler)) ++ nl.

Definition diagramText (busUsages : list BusUsage.t)
    (handlerDeclarations : list HandlerDeclaration.t) (options : Options) : string :=
  let busUsers := busUsersOf busUsages in
  let handlerClasses := handlerClassesOf handlerDeclarations in
  let classNodes := numbered "class_" 1 (allClassesOf busUsers handlerClasses) in
  let eventNodes := numbered "event_" 1 (eventTypesOf busUsages handlerDeclarations) in
  "flowchart LR" ++ nl ++ "  %% " ++ title options ++ nl ++ nl
  ++ "  %% Classes" ++ nl
  ++ concat (map (classLines busUsers handlerClasses) classNodes)
  ++ nl ++ "  %% Events/Commands/Queries" ++ nl
  ++ concat (map eventLines eventNodes)
  ++ nl ++ "  %% Relationships" ++ nl
  ++ concat (map (usageLine classNodes eventNodes) busUsages)
  ++ concat (map (handlerLine classNodes eventNodes) handlerDeclarations)
  ++ (if includeLegend options then legend else "")
  ++ styles.

End Mermaid.

(* ------------------------------------------------------------------ *)
(** ** [src/architecture-analyzer/index.ts]: the report

    [generateMarkdownReport] pushes lines to an array and joins them with
    line feeds; the lines are grouped here by the part of the report that
    pushes them, in the order of the source.  The counts of the metrics are integers; [toFixed2] stands
    for [Number.prototype.toFixed(2)] on the average, which is a matter of
    the number format of the language and is left open. *)

Module Report.

Local Open Scope string_scope.

Definition IssueSeverity_eqb (a b : IssueSeverity) : bool :=
  match a, b with
  | INFO, INFO | WARNING, WARNING | ERROR, ERROR => true
  | _, _ => false
  end.

(** The body of the three [forEach] loops over the issues of a severity. *)
Definition issueLines (issue : ArchitectureIssue) : list string :=
  List.app
    ["#### " ++ type_ issue;
     "";
     description issue;
     "";
     "**Affected Elements:**";
     ""]
    (List.app (map (fun element => "- " ++ element) (elements issue)) [""]).

Definition severityLines (heading : string) (group : list ArchitectureIssue) : list string :=
  if (0 <? List.length group)%nat
  then List.app [heading; ""] (flat_map issueLines group)
  else [].

Section Lines.

Variable toFixed2 : Q -> string.

Definition issueSection (issues_ : list ArchitectureIssue) : list string :=
  if (List.length issues_ =? 0)%nat then
    ["## Issues";
     "";
     "No issues detected in the architecture.";
     ""]
  else
    let errorIssues :=
      filter (fun i => IssueSeverity_eqb (severity i) ERROR) issues_ in
    let warningIssues :=
      filter (fun i => IssueSeverity_eqb (severity i) WARNING) issues_ in
    let infoIssues :=
      filter (fun i => IssueSeverity_eqb (severity i) INFO) issues_ in
    List.app ["## Issues"; ""]
      (List.app (severityLines "### Errors" errorIssues)
         (List.app (severityLines "### Warnings" warningIssues)
            (severityLines "### Information" infoIssues))).

Definition metricLines (metrics_ : Metrics) : list string :=
  ["## Architecture Metrics";
   "";
   "| Metric | Value |";
   "| ------ | ----- |";
   "| Total Classes | " ++ Mermaid.showNat (totalClasses metrics_) ++ " |";
   "| Total Events/Commands/Queries | " ++ Mermaid.showNat (totalEvents metrics_) ++ " |";
   "| Event Producers | " ++ Mermaid.showNat (eventProducers metrics_) ++ " |";
   "| Event Consumers | " ++ Mermaid.showNat (eventConsumers metrics_) ++ " |";
   "| Classes with Dual Roles | " ++ Mermaid.showNat (dualRoleClassesCount metrics_) ++ " |";
   "| Unhandled Events | " ++ Mermaid.showNat (orphanEvents metrics_) ++ " |";
   "| Orphan Handlers | " ++ Mermaid.showNat (orphanHandlersCount metrics_) ++ " |";
   "| Average Connections per Class | " ++ toFixed2 (averageConnections metrics_) ++ " |";
   ""].

Definition recommendations : list string :=
  ["## Recommendations";
   "";
   "1. **Single Responsibility Principle**: Classes should either produce events or handle them, not both.";
   "2. **Reduce Coupling**: Classes with many connections should be refactored into smaller, more focused components.";
   "3. **Complete Implementation**: Ensure all events have appropriate handlers.";
   "4. **Remove Dead Code**: Remove handlers for events that are not produced.";
   "5. **Consistent Naming**: Use consistent naming conventions for events, commands, and queries.";
   ""].

Definition reportLines (analysis : ArchitectureAnalysisResult) : list string :=
  List.app ["# CQRS Architecture Analysis Report"; ""]
    (List.app (metricLines (metrics analysis))
       (List.app (issueSection (issues analysis)) recommendations)).

Definition generateMarkdownReport (analysis : ArchitectureAnalysisResult) : string :=
  String.concat Mermaid.nl (reportLines analysis).

End Lines.

End Report.

(* ------------------------------------------------------------------ *)
(** * Properties *)

(** ** The edge budget *)

Section Budget.

Local Open Scope Z_scope.

Lemma exceeds_half (n : nat) (maxEdges : Z) :
  exceeds n (half maxEdges) = (maxEdges <? 2 * Z.of_nat n).
Proof.
  unfold exceeds, half, Qle_bool. cbn [Qnum Qden inject_Z].
  destruct (Z.leb_spec (Z.of_nat n * 2) (maxEdges * 1));
    destruct (Z.ltb_spec maxEdges (2 * Z.of_nat n)); simpl; try reflexivity; lia.
Qed.

Lemma floor_half (maxEdges : Z) : Qfloor (half maxEdges) = maxEdges / 2.
Proof. reflexivity. Qed.

Lemma slice0_firstn {A : Type} (l : list A) (e : Z) :
  0 <= e -> Js.slice0 l e = firstn (Z.to_nat e) l.
Proof.
  intros He. unfold Js.slice0.
  destruct (Z.ltb_spec e 0); [lia | reflexivity].
Qed.

Lemma applyMaxEdges_over (maxEdges : Z) (r : AnalysisResult) :
  0 < maxEdges ->
  maxEdges < Z.of_nat (List.length (busUsages r) + List.length (handlerDeclarations r)) ->
  (busUsages (applyMaxEdges maxEdges r), handlerDeclarations (applyMaxEdges maxEdges r))
  = Spec.truncation maxEdges (busUsages r) (handlerDeclarations r).
Proof.
  intros Hpos Hover. unfold applyMaxEdges, Spec.truncation.
  destruct (Z.ltb_spec 0 maxEdges) as [_ | ?]; [ | lia].
  destruct (Z.ltb_spec maxEdges
              (Z.of_nat (List.length (busUsages r) + List.length (handlerDeclarations r))))
    as [_ | ?]; [ | lia].
  cbn [andb busUsages handlerDeclarations].
  rewrite exceeds_half, floor_half.
  assert (Hh : 0 <= maxEdges / 2) by (apply Z.div_pos; lia).
  rewrite (slice0_firstn _ _ Hh).
  set (bus' := if maxEdges <? 2 * Z.of_nat (List.length (busUsages r))
               then firstn (Z.to_nat (maxEdges / 2)) (busUsages r) else busUsages r).
  destruct (Z.ltb_spec 0 (maxEdges - Z.of_nat (List.length bus'))) as [Hr | Hr];
    cbn [andb]; [ | reflexivity].
  rewrite slice0_firstn by lia. reflexivity.
Qed.

Lemma applyMaxEdges_within (maxEdges : Z) (r : AnalysisResult) :
  Z.of_nat (List.length (busUsages r) + List.length (handlerDeclarations r)) <= maxEdges ->
  applyMaxEdges maxEdges r = r.
Proof.
  intros Hle. unfold applyMaxEdges.
  destruct (Z.ltb_spec maxEdges
              (Z.of_nat (List.length (busUsages r) + List.length (handlerDeclarations r))))
    as [? | _]; [lia | ].
  rewrite andb_false_r. reflexivity.
Qed.

(** After the rule has been applied to a list pair over a positive
    budget, the pair fits the budget. *)
Lemma truncation_fits {A B : Type} (maxEdges : Z) (bus : list A) (handlers : list B) :
  0 < maxEdges ->
  maxEdges < Z.of_nat (List.length bus + List.length handlers) ->
  Z.of_nat (List.length (fst (Spec.truncation maxEdges bus handlers))
            + List.length (snd (Spec.truncation maxEdges bus handlers))) <= maxEdges.
Proof.
  intros Hpos Hover. unfold Spec.truncation. cbn [fst snd].
  set (bus' := if maxEdges <? 2 * Z.of_nat (List.length bus)
               then firstn (Z.to_nat (maxEdges / 2)) bus else bus).
  assert (Hb : 2 * Z.of_nat (List.length bus') <= maxEdges).
  { subst bus'. destruct (Z.ltb_spec maxEdges (2 * Z.of_nat (List.length bus))).
    - rewrite length_firstn.
      assert (2 * (maxEdges / 2) <= maxEdges) by (apply Z.mul_div_le; lia).
      assert (0 <= maxEdges / 2) by (apply Z.div_pos; lia).
      lia.
    - assumption. }
  destruct (Z.ltb_spec 0 (maxEdges - Z.of_nat (List.length bus'))) as [Hr | Hr];
    [ | lia].
  destruct (Z.ltb_spec (maxEdges - Z.of_nat (List.length bus'))
              (Z.of_nat (List.length handlers))) as [Hh | Hh]; cbn [andb].
  - rewrite length_firstn. lia.
  - lia.
Qed.

Lemma firstn_prefix {A : Type} (n : nat) (l : list A) :
  exists tail, l = firstn n l ++ tail.
Proof. exists (skipn n l). symmetry. apply firstn_skipn. Qed.

(** C2.  Over a positive budget that the combined edge count exceeds,
    the code applies the two-stage rule of the specification: the bus
    usages are cut to the prefix of length floor(maxEdges/2) when their
    count exceeds maxEdges/2, then the handler declarations are cut to
    the prefix of length remaining = maxEdges - (bus usages kept) when
    remaining is positive and their count exceeds it.  Both outputs are
    prefixes of the inputs, so nothing is reordered or sampled.  With
    budget 3, four bus usages and two handler declarations, one bus usage
    and both handler declarations are kept. *)
Theorem applyMaxEdges_two_stage (maxEdges : Z) (r : AnalysisResult) :
  0 < maxEdges ->
  maxEdges < Z.of_nat (List.length (busUsages r) + List.length (handlerDeclarations r)) ->
  let out := applyMaxEdges maxEdges r in
  (busUsages out, handlerDeclarations out)
  = Spec.truncation maxEdges (busUsages r) (handlerDeclarations r)
  /\ (exists dropped, busUsages r = busUsages out ++ dropped)
  /\ (exists dropped, handlerDeclarations r = handlerDeclarations out ++ dropped)
  /\ (maxEdges = 3 -> List.length (busUsages r) = 4%nat ->
      List.length (handlerDeclarations r) = 2%nat ->
      busUsages out = firstn 1 (busUsages r)
      /\ handlerDeclarations out = handlerDeclarations r).
Proof.
  intros Hpos Hover out.
  pose proof (applyMaxEdges_over maxEdges r Hpos Hover) as Heq.
  fold out in Heq. split; [exact Heq | ].
  assert (Hb : busUsages out
               = fst (Spec.truncation maxEdges (busUsages r) (handlerDeclarations r)))
    by (rewrite <- Heq; reflexivity).
  assert (Hh : handlerDeclarations out
               = snd (Spec.truncation maxEdges (busUsages r) (handlerDeclarations r)))
    by (rewrite <- Heq; reflexivity).
  clear Heq. unfold Spec.truncation in Hb, Hh. cbn [fst snd] in Hb, Hh.
  rewrite <- Hb in Hh.
  split; [ | split; [ | intros H3 H4 H2; split]].
  - rewrite Hb. destruct (maxEdges <? 2 * Z.of_nat (List.length (busUsages r))).
    + apply firstn_prefix.
    + exists []. symmetry. apply app_nil_r.
  - rewrite Hh.
    match goal with |- context [if ?c then _ else _] => destruct c end.
    + apply firstn_prefix.
    + exists []. symmetry. apply app_nil_r.
  - rewrite Hb. subst maxEdges. rewrite H4. reflexivity.
  - assert (Hone : busUsages out = firstn 1 (busUsages r))
      by (rewrite Hb; subst maxEdges; rewrite H4; reflexivity).
    rewrite Hh, Hone, length_firstn, H4, H2. subst maxEdges. reflexivity.
Qed.

Lemma applyMaxEdges_two_stage_witness :
  let u := {| BusUsage.sourceFile := "a.ts"; BusUsage.className := "A";
              BusUsage.methodName := None; BusUsage.busType := CommandBus;
              BusUsage.eventType := "X"; BusUsage.position := {| line := 0; character := 0 |} |} in
  let h := {| HandlerDeclaration.sourceFile := "b.ts"; HandlerDeclaration.className := "B";
              HandlerDeclaration.handlerType := CommandHandler;
              HandlerDeclaration.eventType := "X";
              HandlerDeclaration.position := {| line := 0; character := 0 |} |} in
  let r := {| busUsages := [u; u; u; u]; handlerDeclarations := [h; h] |} in
  busUsages (applyMaxEdges 3 r) = [u] /\ handlerDeclarations (applyMaxEdges 3 r) = [h; h].
Proof.
  intros u h r.
  destruct (applyMaxEdges_two_stage 3 r) as (_ & _ & _ & Hs).
  - lia.
  - simpl. lia.
  - apply Hs; reflexivity.
Defined.

(** C6.  For a positive budget, applying the truncation a second time
    with the same budget changes nothing. *)
Theorem applyMaxEdges_idempotent (maxEdges : Z) (r : AnalysisResult) :
  0 < maxEdges ->
  applyMaxEdges maxEdges (applyMaxEdges maxEdges r) = applyMaxEdges maxEdges r.
Proof.
  intros Hpos.
  destruct (Z.lt_ge_cases maxEdges
              (Z.of_nat (List.length (busUsages r) + List.length (handlerDeclarations r))))
    as [Hover | Hin].
  - apply applyMaxEdges_within.
    pose proof (applyMaxEdges_over maxEdges r Hpos Hover) as Heq.
    pose proof (truncation_fits maxEdges (busUsages r) (handlerDeclarations r) Hpos Hover)
      as Hfit.
    rewrite <- Heq in Hfit. exact Hfit.
  - rewrite (applyMaxEdges_within maxEdges r Hin). apply applyMaxEdges_within, Hin.
Qed.

Lemma applyMaxEdges_idempotent_witness :
  let u := {| BusUsage.sourceFile := "a.ts"; BusUsage.className := "A";
              BusUsage.methodName := None; BusUsage.busType := EventBus;
              BusUsage.eventType := "E"; BusUsage.position := {| line := 1; character := 2 |} |} in
  let h := {| HandlerDeclaration.sourceFile := "b.ts"; HandlerDeclaration.className := "B";
              HandlerDeclaration.handlerType := EventsHandler;
              HandlerDeclaration.eventType := "E";
              HandlerDeclaration.position := {| line := 3; character := 0 |} |} in
  let r := {| busUsages := [u; u; u]; handlerDeclarations := [h; h; h; h] |} in
  applyMaxEdges 5 (applyMaxEdges 5 r) = applyMaxEdges 5 r.
Proof.
  intros u h r. apply (applyMaxEdges_idempotent 5 r). lia.
Defined.

End Budget.

(* ------------------------------------------------------------------ *)
(** ** Strings *)

Section Strings.

Local Open Scope string_scope.

Lemma prefix_app (w s : string) :
  String.prefix w s = true <-> exists post, s = w ++ post.
Proof.
  revert s. induction w as [ | c w IH]; intros s.
  - split; [intros _; exists s; reflexivity | intros _; destruct s; reflexivity].
  - destruct s as [ | d s]; simpl.
    + split; [discriminate | intros [post H]; discriminate].
    + destruct (ascii_dec c d) as [-> | Hne].
      * rewrite IH. split; intros [post H]; exists post.
        -- now rewrite H.
        -- now injection H.
      * split; [discriminate | ].
        intros [post H]. injection H as H1 _. now elim Hne.
Qed.

Lemma includes_app (s w : string) :
  Js.includes s w = true <-> exists pre post, s = pre ++ w ++ post.
Proof.
  induction s as [ | c s IH].
  - cbn [Js.includes]. rewrite orb_false_r, prefix_app. split.
    + intros [post H]. exists "", post. exact H.
    + intros (pre & post & H). destruct pre; [ | discriminate].
      exists post. exact H.
  - cbn [Js.includes]. rewrite orb_true_iff, prefix_app, IH. split.
    + intros [[post H] | (pre & post & H)].
      * exists "", post. exact H.
      * exists (String c pre), post. simpl. now rewrite H.
    + intros (pre & post & H). destruct pre as [ | d pre].
      * left. exists post. exact H.
      * right. simpl in H. injection H as _ H. exists pre, post. exact H.
Qed.

Lemma toLowerCase_app (a b : string) :
  Js.toLowerCase (a ++ b) = Js.toLowerCase a ++ Js.toLowerCase b.
Proof. induction a as [ | c a IH]; simpl; [reflexivity | now rewrite IH]. Qed.

Lemma toLowerCase_split (s a b : string) :
  Js.toLowerCase s = a ++ b ->
  exists s1 s2, s = s1 ++ s2 /\ Js.toLowerCase s1 = a /\ Js.toLowerCase s2 = b.
Proof.
  revert s. induction a as [ | c a IH]; intros s H.
  - exists "", s. repeat split. exact H.
  - destruct s as [ | d s]; [discriminate | ].
    simpl in H. injection H as Hc H.
    destruct (IH s H) as (s1 & s2 & -> & H1 & H2).
    exists (String d s1), s2. simpl. now rewrite Hc, H1.
Qed.

(** [includes] on the lowered name is the case-insensitive substring test. *)
Lemma includes_lower (name word : string) :
  Js.includes (Js.toLowerCase name) word = true
  <-> SpecExtraction.containsIgnoringCase word name.
Proof.
  rewrite includes_app. unfold SpecExtraction.containsIgnoringCase. split.
  - intros (pre & post & H).
    destruct (toLowerCase_split _ _ _ H) as (s1 & s23 & -> & _ & H23).
    destruct (toLowerCase_split _ _ _ H23) as (s2 & s3 & -> & H2 & _).
    exists s1, s2, s3. split; [reflexivity | exact H2].
  - intros (pre & mid & post & -> & Hm).
    exists (Js.toLowerCase pre), (Js.toLowerCase post).
    now rewrite !toLowerCase_app, Hm.
Qed.

End Strings.

(* ------------------------------------------------------------------ *)
(** ** Bus usages *)

Section BusUsages.

Lemma isDispatchMethod_exact (m : string) :
  isDispatchMethod m = true <-> m = "publish" \/ m = "execute" \/ m = "dispatch".
Proof.
  unfold isDispatchMethod, dispatchMethods. cbn [existsb].
  rewrite !orb_true_iff, !String.eqb_eq. intuition discriminate.
Qed.

(** What a call does to the result, by the shape of its callee. *)
Lemma processPotentialBusUsage_call sp spa spm receiver m typeArguments arguments
    parents filePath result :
  let node := CallExpression sp
                (PropertyAccessExpression spa receiver (Identifier spm m))
                typeArguments arguments in
  processPotentialBusUsage node parents filePath result =
  if isDispatchMethod m then
    match determineBusType (getObjectName receiver) with
    | Some busType =>
        pushBusUsage
          {| BusUsage.sourceFile := filePath;
             BusUsage.className := orElse (findParentClass (node :: parents)) "Unknown";
             BusUsage.methodName := findMethodName (node :: parents);
             BusUsage.busType := busType;
             BusUsage.eventType := extractTypeArgument typeArguments arguments;
             BusUsage.position := getLineAndCharacter node |}
          result
    | None => result
    end
  else result.
Proof.
  intros node. subst node. cbn [processPotentialBusUsage].
  destruct (isDispatchMethod m); reflexivity.
Qed.

(** A call that records an edge is a dispatch through a recognised bus. *)
Lemma processPotentialBusUsage_recorded node parents filePath result u :
  busUsages (processPotentialBusUsage node parents filePath result)
  = busUsages result ++ [u] ->
  exists sp spa spm receiver m typeArguments arguments busType,
    node = CallExpression sp (PropertyAccessExpression spa receiver (Identifier spm m))
             typeArguments arguments
    /\ isDispatchMethod m = true
    /\ determineBusType (getObjectName receiver) = Some busType
    /\ u = {| BusUsage.sourceFile := filePath;
              BusUsage.className := orElse (findParentClass (node :: parents)) "Unknown";
              BusUsage.methodName := findMethodName (node :: parents);
              BusUsage.busType := busType;
              BusUsage.eventType := extractTypeArgument typeArguments arguments;
              BusUsage.position := getLineAndCharacter node |}.
Proof.
  intros H.
  assert (Hne : forall l : list BusUsage.t, l = l ++ [u] -> False).
  { intros l Hl. apply (f_equal (@List.length _)) in Hl.
    rewrite length_app in Hl. simpl in Hl. lia. }
  destruct node as [ | | | | sp callee targs args | | | | ];
    try (exfalso; apply (Hne _ H)).
  destruct callee as [ | | spa receiver nm | | | | | | ];
    try (exfalso; apply (Hne _ H)).
  destruct nm as [spm m | | | | | | | | ];
    try (exfalso; apply (Hne _ H)).
  rewrite processPotentialBusUsage_call in H.
  destruct (isDispatchMethod m) eqn:Hm; [ | exfalso; apply (Hne _ H)].
  destruct (determineBusType (getObjectName receiver)) as [b | ] eqn:Hb;
    [ | exfalso; apply (Hne _ H)].
  exists sp, spa, spm, receiver, m, targs, args, b.
  repeat split; try assumption.
  cbn [pushBusUsage busUsages] in H. apply app_inv_head in H.
  now injection H as <-.
Qed.

Lemma extractTypeArgument_ordered (typeArguments arguments : list Node) :
  extractTypeArgument typeArguments arguments
  = SpecExtraction.inferredEventType typeArguments arguments.
Proof.
  unfold extractTypeArgument, SpecExtraction.inferredEventType.
  destruct typeArguments as [ | typeArg ?]; [ | reflexivity].
  destruct arguments as [ | firstArg ?]; [reflexivity | ].
  cbn [hd_error].
  destruct firstArg as [ | | ? ? nm | ? callee ? ? | | | | | ]; try reflexivity.
  - destruct nm; reflexivity.
  - destruct callee; reflexivity.
Qed.

(** C3.  The event type of a bus usage follows the ordered fallback of
    the specification: the source text of the first type argument if the
    call has one; else, from the first argument, the callee of a
    new-expression when it is an identifier, else the argument itself
    when it is an identifier, else the rightmost segment of a property
    access when it is an identifier; else "Unknown".  Every call that
    records an edge records this value.  The unit of scenario 1 yields
    the single edge OrderService / placeOrder / CommandBus /
    CreateOrderCommand. *)
Theorem eventType_ordered_fallback :
  (forall typeArguments arguments,
      extractTypeArgument typeArguments arguments
      = SpecExtraction.inferredEventType typeArguments arguments)
  /\ (forall node parents filePath result u,
         busUsages (processPotentialBusUsage node parents filePath result)
         = busUsages result ++ [u] ->
         exists sp callee typeArguments arguments,
           node = CallExpression sp callee typeArguments arguments
           /\ BusUsage.eventType u
              = SpecExtraction.inferredEventType typeArguments arguments)
  /\ (forall decoratorApi,
         analyzeFile decoratorApi "order.service.ts" Examples.orderServiceUnit emptyResult
         = {| busUsages :=
                [{| BusUsage.sourceFile := "order.service.ts";
                    BusUsage.className := "OrderService";
                    BusUsage.methodName := Some "placeOrder";
                    BusUsage.busType := CommandBus;
                    BusUsage.eventType := "CreateOrderCommand";
                    BusUsage.position := {| line := 2; character := 4 |} |}];
              handlerDeclarations := [] |}).
Proof.
  split; [exact extractTypeArgument_ordered | split].
  - intros node parents filePath result u H.
    destruct (processPotentialBusUsage_recorded _ _ _ _ _ H)
      as (sp & spa & spm & receiver & m & targs & args & b & -> & _ & _ & ->).
    eexists _, _, _, _. split; [reflexivity | ].
    apply extractTypeArgument_ordered.
  - intros []; vm_compute; reflexivity.
Qed.

Lemma eventType_ordered_fallback_witness :
  exists sp callee typeArguments arguments,
    Examples.placeOrderCall = CallExpression sp callee typeArguments arguments
    /\ BusUsage.eventType
         {| BusUsage.sourceFile := "order.service.ts";
            BusUsage.className := "Unknown";
            BusUsage.methodName := None;
            BusUsage.busType := CommandBus;
            BusUsage.eventType := "CreateOrderCommand";
            BusUsage.position := {| line := 2; character := 4 |} |}
       = SpecExtraction.inferredEventType typeArguments arguments.
Proof.
  apply (proj1 (proj2 eventType_ordered_fallback)
           Examples.placeOrderCall [] "order.service.ts" emptyResult).
  reflexivity.
Defined.

Lemma determineBusType_cases (name : string) :
  let has word := SpecExtraction.containsIgnoringCase word name in
  (has "event" /\ has "bus" -> determineBusType name = Some EventBus)
  /\ (~ (has "event" /\ has "bus") -> has "query" /\ has "bus" ->
      determineBusType name = Some QueryBus)
  /\ (~ (has "event" /\ has "bus") -> ~ (has "query" /\ has "bus") ->
      has "command" /\ has "bus" -> determineBusType name = Some CommandBus)
  /\ (~ (has "event" /\ has "bus") -> ~ (has "query" /\ has "bus") ->
      ~ (has "command" /\ has "bus") -> determineBusType name = None).
Proof.
  intros has. subst has. cbv beta. unfold determineBusType. cbv zeta.
  rewrite <- !includes_lower.
  destruct (Js.includes (Js.toLowerCase name) "event");
    destruct (Js.includes (Js.toLowerCase name) "bus");
    destruct (Js.includes (Js.toLowerCase name) "query");
    destruct (Js.includes (Js.toLowerCase name) "command");
    cbn [andb]; intuition congruence.
Qed.

(** C4.  The dispatch methods are exactly publish, execute and
    dispatch.  The bus type of a receiver name is decided by
    case-insensitive substring tests in the order event+bus, query+bus,
    command+bus, and is absent when none holds.  A call whose callee is
    a property access records an edge of the inferred bus type when the
    method is a dispatch method and the receiver name has a bus type; in
    every other case, the result is left as it was. *)
Theorem busType_priority_order :
  (forall m, isDispatchMethod m = true
             <-> m = "publish" \/ m = "execute" \/ m = "dispatch")
  /\ (forall name,
         let has word := SpecExtraction.containsIgnoringCase word name in
         (has "event" /\ has "bus" -> determineBusType name = Some EventBus)
         /\ (~ (has "event" /\ has "bus") -> has "query" /\ has "bus" ->
             determineBusType name = Some QueryBus)
         /\ (~ (has "event" /\ has "bus") -> ~ (has "query" /\ has "bus") ->
             has "command" /\ has "bus" -> determineBusType name = Some CommandBus)
         /\ (~ (has "event" /\ has "bus") -> ~ (has "query" /\ has "bus") ->
             ~ (has "command" /\ has "bus") -> determineBusType name = None))
  /\ (forall sp spa receiver nm typeArguments arguments parents filePath result,
         let node := CallExpression sp (PropertyAccessExpression spa receiver nm)
                       typeArguments arguments in
         let out := processPotentialBusUsage node parents filePath result in
         match nm with
         | Identifier _ m =>
             if isDispatchMethod m then
               match determineBusType (getObjectName receiver) with
               | Some busType =>
                   exists u, out = pushBusUsage u result
                             /\ BusUsage.busType u = busType
               | None => out = result
               end
             else out = result
         | _ => out = result
         end).
Proof.
  split; [exact isDispatchMethod_exact | split; [exact determineBusType_cases | ]].
  intros sp spa receiver nm targs args parents filePath result node out.
  destruct nm as [spm m | | | | | | | | ]; try reflexivity.
  subst out node. rewrite processPotentialBusUsage_call.
  destruct (isDispatchMethod m); [ | reflexivity].
  destruct (determineBusType (getObjectName receiver)); [ | reflexivity].
  eexists. split; reflexivity.
Qed.

Lemma busType_priority_order_witness :
  determineBusType "myEventQueryBus" = Some EventBus
  /\ determineBusType "QUERY_COMMAND_BUS" = Some QueryBus.
Proof.
  destruct (proj1 (proj2 busType_priority_order) "myEventQueryBus") as (He & _).
  destruct (proj1 (proj2 busType_priority_order) "QUERY_COMMAND_BUS") as (_ & Hq & _).
  split.
  - apply He. split; apply includes_lower; reflexivity.
  - apply Hq.
    + intros [He' _]. apply includes_lower in He'. discriminate.
    + split; apply includes_lower; reflexivity.
Defined.

(** C10.  When the receiver of a dispatch call is neither an identifier
    nor a property access whose property is an identifier, its name is
    the empty string, the empty name has no bus type, and the call
    leaves the result as it was. *)
Theorem unnamed_receiver_skipped sp spa spm receiver m typeArguments arguments
    parents filePath result :
  isDispatchMethod m = true ->
  isIdentifier receiver = false ->
  SpecExtraction.isAccessOfIdentifier receiver = false ->
  getObjectName receiver = ""
  /\ determineBusType (getObjectName receiver) = None
  /\ processPotentialBusUsage
       (CallExpression sp (PropertyAccessExpression spa receiver (Identifier spm m))
          typeArguments arguments)
       parents filePath result = result.
Proof.
  intros Hm Hi Ha.
  assert (Hn : getObjectName receiver = "").
  { destruct receiver as [ | | ? ? nm | | | | | | ]; try reflexivity.
    - discriminate.
    - destruct nm; try reflexivity. discriminate. }
  split; [exact Hn | ].
  assert (Hb : determineBusType (getObjectName receiver) = None)
    by (rewrite Hn; reflexivity).
  split; [exact Hb | ].
  rewrite processPotentialBusUsage_call, Hm, Hb. reflexivity.
Qed.

(** [getBus().execute(cmd)]: the receiver is a call. *)
Lemma unnamed_receiver_skipped_witness :
  let receiver :=
    CallExpression (Examples.at_ 0 0 "getBus()")
      (Identifier (Examples.at_ 0 0 "getBus") "getBus") [] [] in
  let call :=
    CallExpression (Examples.at_ 0 0 "getBus().execute(cmd)")
      (PropertyAccessExpression (Examples.at_ 0 0 "getBus().execute") receiver
         (Identifier (Examples.at_ 0 9 "execute") "execute"))
      [] [Identifier (Examples.at_ 0 17 "cmd") "cmd"] in
  processPotentialBusUsage call [] "a.ts" emptyResult = emptyResult.
Proof.
  intros receiver call.
  apply (unnamed_receiver_skipped
           (Examples.at_ 0 0 "getBus().execute(cmd)")
           (Examples.at_ 0 0 "getBus().execute")
           (Examples.at_ 0 9 "execute") receiver "execute" []
           [Identifier (Examples.at_ 0 17 "cmd") "cmd"] [] "a.ts" emptyResult);
    reflexivity.
Defined.

End BusUsages.

(* ------------------------------------------------------------------ *)
(** ** The enclosing class and method *)

Section Lookups.

#[local] Abbreviation unnamed := SpecExtraction.unnamed.
#[local] Abbreviation notMethod := SpecExtraction.notMethod.

Lemma findParentClass_step (current : Node) (parents : list Node) :
  findParentClass (current :: parents) =
  match SpecExtraction.namedClass current with
  | Some nm => Some nm
  | None => findParentClass parents
  end.
Proof.
  destruct current as [ | | | | | | ? ? [nm | ] ? ? | | ]; reflexivity.
Qed.

Lemma findParentClass_first (before after : list Node) (cls : Node) (c : string) :
  Forall unnamed before ->
  SpecExtraction.namedClass cls = Some c ->
  findParentClass (before ++ cls :: after) = Some c.
Proof.
  intros Hb Hc. induction Hb as [ | n before Hn _ IH].
  - cbn [app]. rewrite findParentClass_step, Hc. reflexivity.
  - cbn [app]. rewrite findParentClass_step. unfold SpecExtraction.unnamed in Hn.
    rewrite Hn. exact IH.
Qed.

Lemma findParentClass_none (chain : list Node) :
  Forall unnamed chain -> findParentClass chain = None.
Proof.
  intros H. induction H as [ | n chain Hn _ IH]; [reflexivity | ].
  rewrite findParentClass_step. unfold SpecExtraction.unnamed in Hn. rewrite Hn. exact IH.
Qed.

Lemma findMethodName_skip (current : Node) (parents : list Node) :
  notMethod current ->
  findMethodName (current :: parents) = findMethodName parents.
Proof.
  unfold SpecExtraction.notMethod. destruct current; try reflexivity. discriminate.
Qed.

Lemma findMethodName_first (before after : list Node) sp mods nm rest :
  Forall notMethod before ->
  findMethodName (before ++ MethodDeclaration sp mods nm rest :: after)
  = match nm with Identifier _ t => Some t | _ => None end.
Proof.
  intros Hb. induction Hb as [ | n before Hn _ IH].
  - reflexivity.
  - cbn [app]. rewrite (findMethodName_skip _ _ Hn). exact IH.
Qed.

Lemma findMethodName_none (chain : list Node) :
  Forall notMethod chain -> findMethodName chain = None.
Proof.
  intros H. induction H as [ | n chain Hn _ IH]; [reflexivity | ].
  rewrite (findMethodName_skip _ _ Hn). exact IH.
Qed.

(** C5, as the specification words it, fails: the method lookup does not
    go on to the first method declaration with an identifier name.  In
    [class A { outer() { class B { 'inner'() { ...call... } } } }] it stops
    at ['inner'] and yields no name, where the wording yields [outer]. *)
Lemma findMethodName_stops_at_innermost :
  ~ (forall chain,
        findMethodName chain = SpecExtraction.firstMethodWithIdentifierName chain).
Proof.
  intros H. specialize (H Examples.nestedChain). vm_compute in H. discriminate.
Qed.

Example nestedUnit_edge (decoratorApi : bool) :
  busUsages (analyzeFile decoratorApi "nested.ts" Examples.nestedUnit emptyResult)
  = [{| BusUsage.sourceFile := "nested.ts";
        BusUsage.className := "B";
        BusUsage.methodName := None;
        BusUsage.busType := CommandBus;
        BusUsage.eventType := "X";
        BusUsage.position := {| line := 0; character := 42 |} |}].
Proof. destruct decoratorApi; reflexivity. Qed.

(** C5, amended.  The class lookup walks the chain upward and returns
    the name of the first class declaration that has a name; when there
    is none it returns nothing and the class name of the edge is
    "Unknown".  The method lookup walks the chain upward and stops at the
    first method declaration: it returns the name when the name is an
    identifier and nothing otherwise; when no method declaration
    encloses the node it returns nothing.  An edge carries these two
    values as its class name and method name. *)
Theorem enclosing_lookups :
  (forall before cls after c,
      Forall (fun n => SpecExtraction.namedClass n = None) before ->
      SpecExtraction.namedClass cls = Some c ->
      findParentClass (before ++ cls :: after) = Some c)
  /\ (forall chain,
         Forall (fun n => SpecExtraction.namedClass n = None) chain ->
         findParentClass chain = None
         /\ orElse (findParentClass chain) "Unknown" = "Unknown")
  /\ (forall before sp mods nm rest after,
         Forall (fun n => isMethodDeclaration n = false) before ->
         findMethodName (before ++ MethodDeclaration sp mods nm rest :: after)
         = match nm with Identifier _ t => Some t | _ => None end)
  /\ (forall chain,
         Forall (fun n => isMethodDeclaration n = false) chain ->
         findMethodName chain = None)
  /\ (forall node parents filePath result u,
         busUsages (processPotentialBusUsage node parents filePath result)
         = busUsages result ++ [u] ->
         BusUsage.className u = orElse (findParentClass (node :: parents)) "Unknown"
         /\ BusUsage.methodName u = findMethodName (node :: parents)).
Proof.
  split; [ | split; [ | split; [ | split]]].
  - intros before cls after c. apply findParentClass_first.
  - intros chain H. rewrite (findParentClass_none chain H). split; reflexivity.
  - intros before sp mods nm rest after. apply findMethodName_first.
  - exact findMethodName_none.
  - intros node parents filePath result u H.
    destruct (processPotentialBusUsage_recorded _ _ _ _ _ H)
      as (sp & spa & spm & receiver & m & targs & args & b & _ & _ & _ & ->).
    split; reflexivity.
Qed.

Lemma enclosing_lookups_witness :
  findParentClass Examples.nestedChain = Some "B"
  /\ findMethodName Examples.nestedChain = None
  /\ findMethodName (skipn 4 Examples.nestedChain) = Some "outer"
  /\ findParentClass [Examples.innerCall; Examples.innerStatement] = None.
Proof.
  destruct enclosing_lookups as (Hc & Hn & Hm & _ & _).
  split; [ | split; [ | split]].
  - apply (Hc [Examples.innerCall; Examples.innerStatement; Examples.innerBody;
               Examples.innerMethod] Examples.classB).
    + repeat constructor.
    + reflexivity.
  - apply (Hm [Examples.innerCall; Examples.innerStatement; Examples.innerBody]).
    repeat constructor.
  - apply (Hm [Examples.classB; Examples.outerBody]). repeat constructor.
  - apply Hn. repeat constructor.
Defined.

End Lookups.

(* ------------------------------------------------------------------ *)
(** ** Handler declarations: the two paths and their reconciliation *)

Section Handlers.

Lemma HandlerType_eqb_eq (a b : HandlerType) : HandlerType_eqb a b = true <-> a = b.
Proof. destruct a, b; simpl; split; congruence. Qed.

Lemma pushAll_handlers (l : list HandlerDeclaration.t) (r : AnalysisResult) :
  fold_left (fun r h => pushHandler h r) l r
  = {| busUsages := busUsages r; handlerDeclarations := handlerDeclarations r ++ l |}.
Proof.
  revert r. induction l as [ | h l IH]; intros r.
  - simpl. rewrite app_nil_r. destruct r; reflexivity.
  - simpl. rewrite IH. cbn [pushHandler busUsages handlerDeclarations].
    rewrite <- app_assoc. reflexivity.
Qed.

(** A step of path B either leaves the result or appends an edge of the
    class whose (class, kind) pair the result did not hold. *)
Lemma structuralStep_guarded filePath className pos r d :
  structuralStep filePath className pos r d = r
  \/ exists h,
      structuralStep filePath className pos r d = pushHandler h r
      /\ HandlerDeclaration.className h = className
      /\ existsb (sameHandler className (HandlerDeclaration.handlerType h))
           (handlerDeclarations r) = false.
Proof.
  unfold structuralStep.
  destruct (structuralHandler d) as [[k e] | ]; [ | now left].
  destruct (existsb (sameHandler className k) (handlerDeclarations r)) eqn:He;
    [now left | right].
  eexists. split; [reflexivity | split; [reflexivity | exact He]].
Qed.

Lemma existsb_filter_nil {A : Type} (p : A -> bool) (l : list A) :
  existsb p l = false -> filter p l = [].
Proof.
  induction l as [ | a l IH]; [reflexivity | ].
  simpl. destruct (p a); [discriminate | exact IH].
Qed.

(** Once a pair is in the result, path B adds no edge for it. *)
Lemma structural_fold_keeps filePath className pos k ds r :
  existsb (sameHandler className k) (handlerDeclarations r) = true ->
  filter (sameHandler className k)
    (handlerDeclarations (fold_left (structuralStep filePath className pos) ds r))
  = filter (sameHandler className k) (handlerDeclarations r).
Proof.
  revert r. induction ds as [ | d ds IH]; intros r Hex; [reflexivity | ].
  cbn [fold_left].
  destruct (structuralStep_guarded filePath className pos r d)
    as [-> | (h & -> & Hc & Hno)]; [now apply IH | ].
  assert (Hk : sameHandler className k h = false).
  { destruct (sameHandler className k h) eqn:Hs; [ | reflexivity].
    unfold sameHandler in Hs. apply andb_true_iff in Hs as [_ Hs].
    apply HandlerType_eqb_eq in Hs. rewrite Hs in Hno. congruence. }
  rewrite IH.
  - cbn [pushHandler handlerDeclarations]. rewrite filter_app. simpl.
    rewrite Hk. apply app_nil_r.
  - cbn [pushHandler handlerDeclarations]. rewrite existsb_app, Hex. reflexivity.
Qed.

Lemma processHandlerDeclaration_class api sp mods className her mems filePath r :
  processHandlerDeclaration api
    (ClassDeclaration sp mods (Some className) her mems) filePath r
  = let lexical := lexicalEdges filePath className (startPos sp) (sourceText sp) in
    let r1 := {| busUsages := busUsages r;
                 handlerDeclarations := handlerDeclarations r ++ lexical |} in
    if api
    then fold_left (structuralStep filePath className (startPos sp)) (getDecorators mods) r1
    else r1.
Proof.
  cbn [processHandlerDeclaration]. rewrite pushAll_handlers. reflexivity.
Qed.

Lemma lexical_sameHandler filePath className pos k (m : HandlerType * string) :
  sameHandler className k (lexicalEdge filePath className pos m)
  = HandlerType_eqb (fst m) k.
Proof.
  unfold sameHandler, lexicalEdge. cbn. rewrite String.eqb_refl. reflexivity.
Qed.

Lemma lexicallyDetected_edges filePath className pos text k :
  SpecExtraction.lexicallyDetected text k
  = existsb (sameHandler className k) (lexicalEdges filePath className pos text).
Proof.
  unfold SpecExtraction.lexicallyDetected, lexicalEdges.
  induction (Regex.matchAll text) as [ | m l IH]; [reflexivity | ].
  cbn [existsb map]. rewrite lexical_sameHandler, IH. reflexivity.
Qed.

(** C1, as the specification words it, fails: when both paths detect a
    handler kind for a class, the class does not always end with exactly
    one edge for the pair.  Path A appends an edge per lexical occurrence
    without looking at the result, so two [@EventsHandler] decorators on
    one class leave two [EventsHandler] edges. *)
Lemma one_edge_per_lexical_occurrence :
  ~ (forall api sp mods className her mems filePath k,
        SpecExtraction.lexicallyDetected (sourceText sp) k = true ->
        SpecExtraction.structurallyDetected mods k = true ->
        List.length
          (SpecExtraction.edgesOf className k
             (processHandlerDeclaration api
                (ClassDeclaration sp mods (Some className) her mems)
                filePath emptyResult)) = 1).
Proof.
  intros H.
  specialize (H true (Examples.at_ 0 0 Examples.orderSagaText)
                [Examples.handlerDecorator 0 "EventsHandler" "OrderCreated";
                 Examples.handlerDecorator 29 "EventsHandler" "OrderShipped";
                 OtherNode (Examples.at_ 0 58 "export") []]
                "OrderSaga" [] [] "order.saga.ts" EventsHandler
                eq_refl eq_refl).
  vm_compute in H. discriminate.
Qed.

Example orderSaga_edges :
  processHandlerDeclaration true Examples.orderSaga "order.saga.ts" emptyResult
  = {| busUsages := [];
       handlerDeclarations :=
         [Examples.sagaEdge "OrderCreated"; Examples.sagaEdge "OrderShipped"] |}.
Proof. reflexivity. Qed.

(** C1, amended.  A step of path B appends an edge only if the
    accumulated result holds no edge with the same (class, handler kind)
    pair.  When path A detects a handler kind for a class, path B adds
    nothing for that pair: the edges of the pair are those accumulated
    before followed by one edge per occurrence path A found, each with
    the event type path A inferred.  So when nothing was accumulated for
    the pair and path A found one occurrence, exactly one edge of the pair
    results and it is path A's, whatever event type path B infers. *)
Theorem lexical_path_wins :
  (forall filePath className pos r d,
      structuralStep filePath className pos r d = r
      \/ exists h,
          structuralStep filePath className pos r d = pushHandler h r
          /\ HandlerDeclaration.className h = className
          /\ existsb (sameHandler className (HandlerDeclaration.handlerType h))
               (handlerDeclarations r) = false)
  /\ (forall api sp mods className her mems filePath r k,
         let node := ClassDeclaration sp mods (Some className) her mems in
         let lexical := lexicalEdges filePath className (startPos sp) (sourceText sp) in
         SpecExtraction.lexicallyDetected (sourceText sp) k = true ->
         SpecExtraction.edgesOf className k (processHandlerDeclaration api node filePath r)
         = SpecExtraction.edgesOf className k r ++ filter (sameHandler className k) lexical)
  /\ (forall api sp mods className her mems filePath r k a,
         let node := ClassDeclaration sp mods (Some className) her mems in
         let lexical := lexicalEdges filePath className (startPos sp) (sourceText sp) in
         SpecExtraction.edgesOf className k r = [] ->
         filter (sameHandler className k) lexical = [a] ->
         SpecExtraction.edgesOf className k (processHandlerDeclaration api node filePath r)
         = [a]).
Proof.
  assert (Hmain : forall api sp mods className her mems filePath r k,
    existsb (sameHandler className k)
      (lexicalEdges filePath className (startPos sp) (sourceText sp)) = true ->
    SpecExtraction.edgesOf className k
      (processHandlerDeclaration api
         (ClassDeclaration sp mods (Some className) her mems) filePath r)
    = SpecExtraction.edgesOf className k r
      ++ filter (sameHandler className k)
           (lexicalEdges filePath className (startPos sp) (sourceText sp))).
  { intros api sp mods className her mems filePath r k Hdet.
    unfold SpecExtraction.edgesOf.
    rewrite processHandlerDeclaration_class. cbv zeta.
    destruct api.
    - rewrite structural_fold_keeps.
      + cbn [handlerDeclarations]. apply filter_app.
      + cbn [handlerDeclarations]. rewrite existsb_app, Hdet. apply orb_true_r.
    - cbn [handlerDeclarations]. apply filter_app. }
  split; [exact structuralStep_guarded | split].
  - intros api sp mods className her mems filePath r k node lexical Hdet.
    apply Hmain.
    rewrite <- (lexicallyDetected_edges filePath className (startPos sp)). exact Hdet.
  - intros api sp mods className her mems filePath r k a node lexical Hr Ha.
    subst node lexical. rewrite Hmain, Hr, Ha; [reflexivity | ].
    destruct (existsb (sameHandler className k)
                (lexicalEdges filePath className (startPos sp) (sourceText sp))) eqn:He;
      [reflexivity | ].
    apply existsb_filter_nil in He. rewrite He in Ha. discriminate.
Qed.

(** For [@CommandHandler(Commands.CreateOrder) class CreateOrderHandler {}]
    path A infers [Commands], path B [CreateOrder]; the edge is path A's. *)
Lemma lexical_path_wins_witness :
  structuralHandler
    (Decorator (Examples.at_ 0 0 "@CommandHandler(Commands.CreateOrder)")
       (CallExpression (Examples.at_ 0 1 "CommandHandler(Commands.CreateOrder)")
          (Identifier (Examples.at_ 0 1 "CommandHandler") "CommandHandler") []
          [PropertyAccessExpression (Examples.at_ 0 16 "Commands.CreateOrder")
             (Identifier (Examples.at_ 0 16 "Commands") "Commands")
             (Identifier (Examples.at_ 0 25 "CreateOrder") "CreateOrder")]))
  = Some (CommandHandler, "CreateOrder")
  /\ SpecExtraction.edgesOf "CreateOrderHandler" CommandHandler
       (processHandlerDeclaration true Examples.createOrderHandler "h.ts" emptyResult)
     = [{| HandlerDeclaration.sourceFile := "h.ts";
           HandlerDeclaration.className := "CreateOrderHandler";
           HandlerDeclaration.handlerType := CommandHandler;
           HandlerDeclaration.eventType := "Commands";
           HandlerDeclaration.position := {| line := 0; character := 0 |} |}].
Proof.
  split; [reflexivity | ].
  apply (proj2 (proj2 lexical_path_wins) true
           (Examples.at_ 0 0 Examples.createOrderHandlerText)); reflexivity.
Defined.

End Handlers.

(* ------------------------------------------------------------------ *)
(** ** The traversal *)

Section Traversal.

(** Induction on a tree through the children [ts.forEachChild] visits. *)
Lemma Node_children_ind (P : Node -> Prop) :
  (forall n, Forall P (childrenOf n) -> P n) -> forall n, P n.
Proof.
  intros step.
  refine (fix IH (n : Node) : P n :=
            let all := fix all (l : list Node) : Forall P l :=
                         match l with
                         | [] => Forall_nil P
                         | c :: cs => Forall_cons c (IH c) (all cs)
                         end in
            step n _).
  destruct n as [ | | sp e nm | sp e targs args | sp e targs args | sp e
                | sp mods nm her mems | sp mods nm rest | sp cs ]; cbn [childrenOf].
  - constructor.
  - constructor.
  - exact (Forall_cons e (IH e) (Forall_cons nm (IH nm) (Forall_nil P))).
  - exact (Forall_cons e (IH e) (proj2 (Forall_app P targs args) (conj (all targs) (all args)))).
  - exact (Forall_cons e (IH e) (proj2 (Forall_app P targs args) (conj (all targs) (all args)))).
  - exact (Forall_cons e (IH e) (Forall_nil P)).
  - exact (proj2 (Forall_app P mods (her ++ mems))
             (conj (all mods)
                (proj2 (Forall_app P her mems) (conj (all her) (all mems))))).
  - exact (proj2 (Forall_app P mods (nm :: rest))
             (conj (all mods) (Forall_cons nm (IH nm) (all rest)))).
  - exact (all cs).
Qed.

Variable decoratorApi : bool.

(** The traversal visits the node, then its children from left to right. *)
Lemma visitNode_children parents filePath node r :
  visitNode decoratorApi parents filePath node r
  = fold_left (fun acc child => visitNode decoratorApi (node :: parents) filePath child acc)
      (childrenOf node)
      (let r1 := if isCallExpression node
                 then processPotentialBusUsage node parents filePath r else r in
       if isClassDeclaration node
       then processHandlerDeclaration decoratorApi node filePath r1 else r1).
Proof.
  assert (Heach : forall ps l acc,
    (fix each (children : list Node) (r0 : AnalysisResult) : AnalysisResult :=
       match children with
       | [] => r0
       | child :: more => each more (visitNode decoratorApi ps filePath child r0)
       end) l acc
    = fold_left (fun acc child => visitNode decoratorApi ps filePath child acc) l acc).
  { intros ps l. induction l as [ | c l IH]; intros acc; [reflexivity | apply IH]. }
  destruct node; cbn [visitNode childrenOf fold_left];
    rewrite ?Heach, ?fold_left_app; reflexivity.
Qed.

End Traversal.

(* ------------------------------------------------------------------ *)
(** ** Event types are never empty *)

Section EventTypes.


Lemma firstWord_nonempty (s w : string) : Regex.firstWord s = Some w -> w <> "".
Proof.
  induction s as [ | c s IH]; [discriminate | ].
  cbn [Regex.firstWord]. destruct (Js.isWordChar c) eqn:Hc; [ | exact IH].
  intros H. injection H as <-. cbn [Regex.word]. rewrite Hc. discriminate.
Qed.

(** Path A needs nothing of the tree: the words it reads are runs of at
    least one character. *)
Lemma lexicalEdge_eventType filePath className pos m :
  HandlerDeclaration.eventType (lexicalEdge filePath className pos m) <> "".
Proof.
  unfold lexicalEdge. cbn [HandlerDeclaration.eventType].
  destruct (Regex.firstWord (Js.trim (snd m))) as [w | ] eqn:Hw.
  - exact (firstWord_nonempty _ _ Hw).
  - discriminate.
Qed.







Variable decoratorApi : bool.




End EventTypes.


Example recoveredUnit_edge (decoratorApi : bool) :
  busUsages (analyzeFile decoratorApi "broken.ts" Examples2.recoveredUnit emptyResult)
  = [{| BusUsage.sourceFile := "broken.ts";
        BusUsage.className := "Unknown";
        BusUsage.methodName := None;
        BusUsage.busType := QueryBus;
        BusUsage.eventType := "";
        BusUsage.position := {| line := 0; character := 0 |} |}]
  /\ lexemesPresent Examples2.recoveredUnit = false.
Proof. destruct decoratorApi; split; reflexivity. Qed.



(* ------------------------------------------------------------------ *)
(** ** Maps in insertion order *)

Section Maps.

Context {V : Type}.

Implicit Types (m : JsMap.t V) (k : string) (v : V).

Lemma get_set m k v k' :
  JsMap.get (JsMap.set m k v) k' = if String.eqb k k' then Some v else JsMap.get m k'.
Proof.
  induction m as [ | [k0 v0] m IH]; cbn [JsMap.set JsMap.get].
  - reflexivity.
  - destruct (String.eqb_spec k0 k) as [-> | Hne]; cbn [JsMap.get].
    + destruct (String.eqb k k'); reflexivity.
    + rewrite IH. destruct (String.eqb_spec k0 k') as [-> | ?]; [ | reflexivity].
      destruct (String.eqb_spec k k') as [-> | ?]; [now elim Hne | reflexivity].
Qed.

Lemma has_In m k : JsMap.has m k = true <-> In k (JsMap.keys m).
Proof.
  unfold JsMap.has, JsMap.keys.
  induction m as [ | [k0 v0] m IH]; cbn [JsMap.get map In fst].
  - split; [discriminate | contradiction].
  - destruct (String.eqb_spec k0 k) as [-> | Hne].
    + split; [now left | reflexivity].
    + rewrite IH. split; [now right | intros [? | ?]; [now elim Hne | assumption]].
Qed.

Lemma get_None m k : JsMap.get m k = None <-> ~ In k (JsMap.keys m).
Proof.
  rewrite <- has_In. unfold JsMap.has.
  destruct (JsMap.get m k); split; congruence.
Qed.

Lemma keys_set m k v :
  JsMap.keys (JsMap.set m k v)
  = if JsMap.has m k then JsMap.keys m else JsMap.keys m ++ [k].
Proof.
  unfold JsMap.has, JsMap.keys.
  induction m as [ | [k0 v0] m IH]; cbn [JsMap.set JsMap.get map app fst].
  - reflexivity.
  - destruct (String.eqb_spec k0 k) as [-> | Hne]; cbn [map fst].
    + reflexivity.
    + rewrite IH. destruct (JsMap.get m k); reflexivity.
Qed.

Lemma In_keys_set m k v k' :
  In k' (JsMap.keys (JsMap.set m k v)) <-> k' = k \/ In k' (JsMap.keys m).
Proof.
  rewrite keys_set. destruct (JsMap.has m k) eqn:Hh.
  - apply has_In in Hh. split; [now right | intros [-> | ?]; assumption].
  - rewrite in_app_iff. cbn [In]. intuition.
Qed.

Lemma NoDup_keys_set m k v :
  NoDup (JsMap.keys m) -> NoDup (JsMap.keys (JsMap.set m k v)).
Proof.
  intros Hm. rewrite keys_set. destruct (JsMap.has m k) eqn:Hh; [exact Hm | ].
  assert (Hk : ~ In k (JsMap.keys m)) by (rewrite <- has_In; congruence).
  apply NoDup_app; [exact Hm | repeat constructor; intros [] | ].
  intros x Hx [<- | []]. exact (Hk Hx).
Qed.

Lemma In_get m k v :
  NoDup (JsMap.keys m) -> In (k, v) m -> JsMap.get m k = Some v.
Proof.
  unfold JsMap.keys.
  induction m as [ | [k0 v0] m IH]; cbn [map fst In JsMap.get]; [contradiction | ].
  intros Hnd [Heq | Hin].
  - injection Heq as -> ->. now rewrite String.eqb_refl.
  - inversion Hnd as [ | ? ? Hk0 Hm]; subst.
    destruct (String.eqb_spec k0 k) as [-> | _]; [ | now apply IH].
    elim Hk0. apply in_map_iff. now exists (k, v).
Qed.

Lemma filter_keys (p : string -> bool) m acc :
  fold_left (fun acc (entry : string * V) =>
               if p (fst entry) then acc ++ [fst entry] else acc) m acc
  = acc ++ filter p (JsMap.keys m).
Proof.
  unfold JsMap.keys. revert acc.
  induction m as [ | e m IH]; intros acc; cbn [fold_left map filter].
  - now rewrite app_nil_r.
  - rewrite IH. destruct (p (fst e)); [ | reflexivity].
    now rewrite <- app_assoc.
Qed.

End Maps.

Lemma fold_left_map {A B C : Type} (f : A -> B -> A) (g : C -> B) (l : list C) (a : A) :
  fold_left (fun acc x => f acc (g x)) l a = fold_left f (map g l) a.
Proof. revert a. induction l as [ | x l IH]; intros a; [reflexivity | apply IH]. Qed.

(* ------------------------------------------------------------------ *)
(** ** Producers and consumers of an event type *)

Section Events.

#[local] Abbreviation populated := SpecAnalyzer.populated.

Lemma record_keys m k c k' :
  In k' (JsMap.keys (record m k c)) <-> k' = k \/ In k' (JsMap.keys m).
Proof.
  unfold record.
  set (m1 := if negb (JsMap.has m k) then JsMap.set m k [] else m).
  assert (H1 : In k' (JsMap.keys m1) <-> k' = k \/ In k' (JsMap.keys m)).
  { subst m1. destruct (JsMap.has m k) eqn:Hh; cbn [negb].
    - apply has_In in Hh. split; [now right | intros [-> | ?]; assumption].
    - apply In_keys_set. }
  destruct (JsMap.get m1 k); [ | exact H1].
  rewrite In_keys_set, H1. intuition.
Qed.

Lemma record_populated m k c : populated m -> populated (record m k c).
Proof.
  intros Hm k' l. unfold record.
  set (m1 := if negb (JsMap.has m k) then JsMap.set m k [] else m).
  assert (H1 : forall k0, k0 <> k -> JsMap.get m1 k0 = JsMap.get m k0).
  { intros k0 Hk0. subst m1. destruct (negb (JsMap.has m k)); [ | reflexivity].
    rewrite get_set. destruct (String.eqb_spec k k0) as [-> | _];
      [now elim Hk0 | reflexivity]. }
  assert (Hk : exists l0, JsMap.get m1 k = Some l0).
  { subst m1. unfold JsMap.has. destruct (JsMap.get m k) as [l0 | ] eqn:Hg; cbn [negb].
    - now exists l0.
    - exists []. rewrite get_set, String.eqb_refl. reflexivity. }
  destruct Hk as [l0 ->]. rewrite get_set.
  destruct (String.eqb_spec k k') as [-> | Hne].
  - intros H. injection H as <-. now destruct l0.
  - rewrite H1 by congruence. apply Hm.
Qed.

Lemma recorded_keys (l : list (string * string)) m k :
  In k (JsMap.keys (fold_left (fun m p => record m (fst p) (snd p)) l m))
  <-> In k (JsMap.keys m) \/ In k (map fst l).
Proof.
  revert m. induction l as [ | p l IH]; intros m; cbn [fold_left map In].
  - intuition.
  - rewrite IH, record_keys. intuition.
Qed.

Lemma recorded_populated (l : list (string * string)) m :
  populated m -> populated (fold_left (fun m p => record m (fst p) (snd p)) l m).
Proof.
  revert m. induction l as [ | p l IH]; intros m Hm; [exact Hm | ].
  cbn [fold_left]. apply IH, record_populated, Hm.
Qed.

Lemma missingIn_absent m k :
  populated m -> (missingIn m k = true <-> ~ In k (JsMap.keys m)).
Proof.
  intros Hm. rewrite <- has_In. unfold missingIn, JsMap.has.
  destruct (JsMap.get m k) as [l | ] eqn:Hg; cbn [negb orb].
  - specialize (Hm k l Hg). destruct l; [now elim Hm | ].
    cbn. split; [discriminate | intros H; now elim H].
  - split; [discriminate | reflexivity].
Qed.

Variable r : AnalysisResult.

Lemma eventEmitters_keys k :
  In k (JsMap.keys (eventEmitters r)) <-> In k (SpecAnalyzer.emitted r).
Proof.
  unfold eventEmitters, SpecAnalyzer.emitted.
  rewrite (fold_left_map (fun m p => record m (fst p) (snd p))
             (fun usage => (BusUsage.eventType usage, BusUsage.className usage))).
  rewrite recorded_keys, map_map. cbn [fst JsMap.keys map In]. intuition.
Qed.

Lemma eventHandlers_keys k :
  In k (JsMap.keys (eventHandlers r)) <-> In k (SpecAnalyzer.handled r).
Proof.
  unfold eventHandlers, SpecAnalyzer.handled.
  rewrite (fold_left_map (fun m p => record m (fst p) (snd p))
             (fun h => (HandlerDeclaration.eventType h, HandlerDeclaration.className h))).
  rewrite recorded_keys, map_map. cbn [fst JsMap.keys map In]. intuition.
Qed.

Lemma eventEmitters_populated : populated (eventEmitters r).
Proof.
  unfold eventEmitters.
  rewrite (fold_left_map (fun m p => record m (fst p) (snd p))
             (fun usage => (BusUsage.eventType usage, BusUsage.className usage))).
  apply recorded_populated. intros k l H. discriminate.
Qed.

Lemma eventHandlers_populated : populated (eventHandlers r).
Proof.
  unfold eventHandlers.
  rewrite (fold_left_map (fun m p => record m (fst p) (snd p))
             (fun h => (HandlerDeclaration.eventType h, HandlerDeclaration.className h))).
  apply recorded_populated. intros k l H. discriminate.
Qed.

Lemma unhandledEvents_filter :
  unhandledEvents r
  = filter (missingIn (eventHandlers r)) (JsMap.keys (eventEmitters r)).
Proof. unfold unhandledEvents. now rewrite filter_keys. Qed.

Lemma orphanHandlers_filter :
  orphanHandlers r
  = filter (missingIn (eventEmitters r)) (JsMap.keys (eventHandlers r)).
Proof. unfold orphanHandlers. now rewrite filter_keys. Qed.

Lemma unhandledEvents_In e :
  In e (unhandledEvents r)
  <-> In e (SpecAnalyzer.emitted r) /\ ~ In e (SpecAnalyzer.handled r).
Proof.
  rewrite unhandledEvents_filter, filter_In, eventEmitters_keys.
  rewrite (missingIn_absent _ _ eventHandlers_populated), eventHandlers_keys.
  reflexivity.
Qed.

Lemma orphanHandlers_In e :
  In e (orphanHandlers r)
  <-> In e (SpecAnalyzer.handled r) /\ ~ In e (SpecAnalyzer.emitted r).
Proof.
  rewrite orphanHandlers_filter, filter_In, eventHandlers_keys.
  rewrite (missingIn_absent _ _ eventEmitters_populated), eventEmitters_keys.
  reflexivity.
Qed.

End Events.

(** C8.  The unhandled events are exactly the event types present in
    the emitter map and absent or empty in the handler map, that is, the
    event types of bus-usage edges that no handler edge has; the orphan
    handlers are exactly those present in the handler map and absent or
    empty in the emitter map, that is, the event types of handler edges
    that no bus-usage edge has.  No event type is in both. *)
Theorem unhandled_orphan_disjoint (r : AnalysisResult) (e : string) :
  (In e (unhandledEvents r)
   <-> JsMap.has (eventEmitters r) e = true /\ missingIn (eventHandlers r) e = true)
  /\ (In e (orphanHandlers r)
      <-> JsMap.has (eventHandlers r) e = true /\ missingIn (eventEmitters r) e = true)
  /\ (In e (unhandledEvents r)
      <-> In e (SpecAnalyzer.emitted r) /\ ~ In e (SpecAnalyzer.handled r))
  /\ (In e (orphanHandlers r)
      <-> In e (SpecAnalyzer.handled r) /\ ~ In e (SpecAnalyzer.emitted r))
  /\ ~ (In e (unhandledEvents r) /\ In e (orphanHandlers r)).
Proof.
  split; [ | split; [ | split; [ | split]]].
  - rewrite unhandledEvents_filter, filter_In, has_In. reflexivity.
  - rewrite orphanHandlers_filter, filter_In, has_In. reflexivity.
  - apply unhandledEvents_In.
  - apply orphanHandlers_In.
  - rewrite unhandledEvents_In, orphanHandlers_In. tauto.
Qed.

Lemma unhandled_orphan_disjoint_witness :
  In "ShipOrderCommand" (unhandledEvents Examples.orders)
  /\ ~ In "ShipOrderCommand" (orphanHandlers Examples.orders)
  /\ ~ In "CreateOrderCommand" (unhandledEvents Examples.orders).
Proof.
  destruct (unhandled_orphan_disjoint Examples.orders "ShipOrderCommand")
    as (_ & _ & Hu & _ & Hd).
  destruct (unhandled_orphan_disjoint Examples.orders "CreateOrderCommand")
    as (_ & _ & Hc & _ & _).
  assert (Hin : In "ShipOrderCommand" (unhandledEvents Examples.orders)).
  { apply Hu. split; [right; left; reflexivity | ].
    intros [H | [H | []]]; discriminate. }
  split; [exact Hin | split].
  - intros Ho. apply Hd. split; assumption.
  - intros H. apply Hc in H as [_ H]. apply H. left. reflexivity.
Defined.

(* ------------------------------------------------------------------ *)
(** ** Coupling counts and their average *)

Section Coupling.

#[local] Abbreviation counts := SpecAnalyzer.counts.

Lemma bump_counts m seen k : counts m seen -> counts (bump m k) (seen ++ [k]).
Proof.
  intros [Hnd Hget]. unfold bump. split; [now apply NoDup_keys_set | ].
  intros k'. rewrite get_set, count_occ_app. cbn [count_occ]. cbv zeta.
  destruct (String.eqb_spec k k') as [<- | Hne].
  - destruct (string_dec k k) as [_ | H]; [ | now elim H].
    rewrite Hget. cbv zeta.
    destruct (Nat.eqb_spec (count_occ string_dec seen k) 0) as [-> | H0].
    + reflexivity.
    + destruct (Nat.eqb_spec (count_occ string_dec seen k + 1) 0); [lia | reflexivity].
  - destruct (string_dec k k') as [H | _]; [now elim Hne | ].
    rewrite Hget, Nat.add_0_r. reflexivity.
Qed.

Lemma bumped_counts (l : list string) m seen :
  counts m seen -> counts (fold_left bump l m) (seen ++ l).
Proof.
  revert m seen. induction l as [ | k l IH]; intros m seen Hm.
  - now rewrite app_nil_r.
  - cbn [fold_left]. replace (seen ++ k :: l) with ((seen ++ [k]) ++ l)
      by (now rewrite <- app_assoc).
    apply IH, bump_counts, Hm.
Qed.

Lemma sum_set (m : JsMap.t nat) k v :
  list_sum (map snd (JsMap.set m k v))
  + match JsMap.get m k with Some c => c | None => 0 end
  = list_sum (map snd m) + v.
Proof.
  induction m as [ | [k0 v0] m IH]; cbn [JsMap.set JsMap.get].
  - simpl. lia.
  - destruct (String.eqb_spec k0 k) as [-> | _]; simpl in *; lia.
Qed.

Lemma sum_bumped (l : list string) (m : JsMap.t nat) :
  list_sum (map snd (fold_left bump l m)) = list_sum (map snd m) + List.length l.
Proof.
  revert m. induction l as [ | k l IH]; intros m; cbn [fold_left List.length]; [lia | ].
  rewrite IH. unfold bump.
  pose proof (sum_set m k (match JsMap.get m k with Some c => c | None => 0 end + 1)).
  lia.
Qed.

Lemma sum_entries {A : Type} (f : A -> nat) (l : list A) (a : nat) :
  fold_left (fun total entry => total + f entry) l a = a + list_sum (map f l).
Proof.
  revert a. induction l as [ | x l IH]; intros a; simpl; [lia | ].
  rewrite IH. lia.
Qed.

Variable r : AnalysisResult.

Lemma classCouplingCount_names :
  classCouplingCount r = fold_left bump (SpecAnalyzer.classNames r) [].
Proof.
  unfold classCouplingCount, SpecAnalyzer.classNames.
  rewrite fold_left_app.
  rewrite (fold_left_map bump HandlerDeclaration.className).
  rewrite (fold_left_map bump BusUsage.className). reflexivity.
Qed.

Lemma classCouplingCount_counts :
  counts (classCouplingCount r) (SpecAnalyzer.classNames r).
Proof.
  rewrite classCouplingCount_names.
  apply (bumped_counts (SpecAnalyzer.classNames r) [] []).
  split; [constructor | reflexivity].
Qed.

Lemma classCouplingCount_values :
  map snd (classCouplingCount r)
  = map (SpecAnalyzer.coupling r) (JsMap.keys (classCouplingCount r)).
Proof.
  destruct classCouplingCount_counts as [Hnd Hget].
  unfold JsMap.keys. rewrite map_map. apply map_ext_in.
  intros [k v] Hin. cbn [fst snd].
  pose proof (In_get _ _ _ Hnd Hin) as Hk. rewrite Hget in Hk. cbv zeta in Hk.
  unfold SpecAnalyzer.coupling.
  destruct (count_occ string_dec (SpecAnalyzer.classNames r) k =? 0)%nat;
    congruence.
Qed.

Lemma totalConnections_sum :
  totalConnections r
  = list_sum (map (SpecAnalyzer.coupling r) (JsMap.keys (classCouplingCount r))).
Proof.
  unfold totalConnections. rewrite sum_entries, classCouplingCount_values. reflexivity.
Qed.

Lemma classCount_keys : classCount r = List.length (JsMap.keys (classCouplingCount r)).
Proof.
  unfold classCount.
  rewrite (sum_entries (fun _ => 1)). unfold JsMap.keys. rewrite length_map.
  induction (classCouplingCount r) as [ | e m IH]; [reflexivity | ].
  simpl in *. now rewrite <- IH.
Qed.

Lemma no_class_no_edge :
  JsMap.size (classCouplingCount r) = 0 ->
  busUsages r = [] /\ handlerDeclarations r = [].
Proof.
  intros Hsize.
  assert (Hm : classCouplingCount r = [])
    by (destruct (classCouplingCount r); [reflexivity | discriminate]).
  destruct classCouplingCount_counts as [_ Hget].
  assert (Hn : SpecAnalyzer.classNames r = []).
  { destruct (SpecAnalyzer.classNames r) as [ | c l] eqn:Hl; [reflexivity | ].
    specialize (Hget c). rewrite Hm in Hget. cbn [JsMap.get count_occ] in Hget.
    destruct (string_dec c c) as [_ | H]; [discriminate | now elim H]. }
  unfold SpecAnalyzer.classNames in Hn. apply app_eq_nil in Hn as [Hb Hh].
  split; eapply map_eq_nil; eassumption.
Qed.

End Coupling.

(** C7.  The analyzer is a total function of the result.  When no class
    has any edge, there are no edges at all: the issues are empty, every
    derived collection is empty and the average is 0, the division being
    guarded.  In general the coupling map holds, once each, the classes
    with a nonzero coupling count, each with the number of bus-usage and
    handler edges that mention it, and the average is the sum of these
    counts divided by the number of these classes (0 when there is none). *)
Theorem analyzer_average (r : AnalysisResult) :
  (JsMap.size (classCouplingCount r) = 0 ->
   issues (analyzeArchitecture r) = []
   /\ averageConnections (metrics (analyzeArchitecture r)) = 0%Q
   /\ busUsers r = [] /\ handlerClasses r = [] /\ dualRoleClasses r = []
   /\ highCouplingClasses r = []
   /\ eventEmitters r = [] /\ eventHandlers r = []
   /\ unhandledEvents r = [] /\ orphanHandlers r = [] /\ allEventTypes r = [])
  /\ NoDup (JsMap.keys (classCouplingCount r))
  /\ (forall c, JsMap.get (classCouplingCount r) c
                = if (SpecAnalyzer.coupling r c =? 0)%nat then None
                  else Some (SpecAnalyzer.coupling r c))
  /\ averageConnections (metrics (analyzeArchitecture r))
     = SpecAnalyzer.averageOver r (JsMap.keys (classCouplingCount r))
  /\ list_sum (map (SpecAnalyzer.coupling r) (JsMap.keys (classCouplingCount r)))
     = List.length (busUsages r) + List.length (handlerDeclarations r).
Proof.
  split; [ | split; [ | split; [ | split]]].
  - intros Hsize. destruct (no_class_no_edge r Hsize) as [Hb Hh].
    destruct r as [bus hs]. cbn [busUsages handlerDeclarations] in Hb, Hh.
    subst bus hs. repeat split; reflexivity.
  - apply (classCouplingCount_counts r).
  - apply (classCouplingCount_counts r).
  - cbn [analyzeArchitecture metrics averageConnections].
    unfold average, SpecAnalyzer.averageOver.
    rewrite totalConnections_sum, classCount_keys.
    destruct (List.length (JsMap.keys (classCouplingCount r))); reflexivity.
  - rewrite <- classCouplingCount_values, classCouplingCount_names, sum_bumped.
    unfold SpecAnalyzer.classNames. rewrite length_app, !length_map. reflexivity.
Qed.

Lemma analyzer_average_witness :
  issues (analyzeArchitecture emptyResult) = []
  /\ averageConnections (metrics (analyzeArchitecture emptyResult)) = 0%Q
  /\ averageConnections (metrics (analyzeArchitecture Examples.orders)) = (4 # 3)%Q.
Proof.
  destruct (proj1 (analyzer_average emptyResult) eq_refl) as (Hi & Ha & _).
  split; [exact Hi | split; [exact Ha | ]].
  rewrite (proj1 (proj2 (proj2 (proj2 (analyzer_average Examples.orders))))).
  reflexivity.
Defined.

(* ------------------------------------------------------------------ *)
(** * Further properties of the code *)

(** ** The files that are analysed *)

Section SourceFiles.

Local Open Scope string_scope.

Lemma drop_app (a b : string) : Js.drop (String.length a) (a ++ b) = b.
Proof. induction a as [ | c a IH]; [now destruct b | exact IH]. Qed.

Lemma length_append (a b : string) :
  String.length (a ++ b) = String.length a + String.length b.
Proof. induction a as [ | c a IH]; simpl; [reflexivity | now rewrite IH]. Qed.

Lemma drop_split (n : nat) (s : string) :
  n <= String.length s ->
  exists pre, s = pre ++ Js.drop n s /\ String.length pre = n.
Proof.
  revert s. induction n as [ | n IH]; intros s Hn.
  - exists "". split; reflexivity.
  - destruct s as [ | c s]; [simpl in Hn; lia | ].
    simpl in Hn. destruct (IH s) as (pre & Hs & Hl); [lia | ].
    exists (String c pre). simpl. split; [now rewrite <- Hs | now rewrite Hl].
Qed.

Lemma endsWith_app (s p : string) :
  JsString.endsWith s p = true <-> exists pre, s = pre ++ p.
Proof.
  unfold JsString.endsWith. split.
  - destruct (Nat.leb_spec (String.length p) (String.length s)) as [Hle | ];
      [ | discriminate].
    intros H. apply String.eqb_eq in H.
    destruct (drop_split (String.length s - String.length p) s) as (pre & Hs & _);
      [lia | ].
    exists pre. now rewrite <- H.
  - intros [pre ->]. rewrite length_append.
    destruct (Nat.leb_spec (String.length p) (String.length pre + String.length p));
      [ | lia].
    replace (String.length pre + String.length p - String.length p)
      with (String.length pre) by lia.
    rewrite drop_app. apply String.eqb_refl.
Qed.

Lemma append_inj_r (a b c : string) : a ++ c = b ++ c -> a = b.
Proof.
  revert b. induction a as [ | x a IH]; intros b H.
  - destruct b as [ | y b]; [reflexivity | ].
    apply (f_equal String.length) in H. simpl in H. rewrite length_append in H. lia.
  - destruct b as [ | y b].
    + apply (f_equal String.length) in H. simpl in H. rewrite length_append in H. lia.
    + simpl in H. injection H as -> H. now rewrite (IH b H).
Qed.

Lemma append_assoc (a b c : string) : (a ++ b) ++ c = a ++ (b ++ c).
Proof. induction a as [ | x a IH]; simpl; [reflexivity | now rewrite IH]. Qed.

Lemma endsWith_common (s p c : string) :
  JsString.endsWith (s ++ c) (p ++ c) = JsString.endsWith s p.
Proof.
  apply eq_true_iff_eq. rewrite !endsWith_app. split.
  - intros [pre H]. exists pre. rewrite <- append_assoc in H.
    exact (append_inj_r _ _ _ H).
  - intros [pre ->]. exists pre. apply append_assoc.
Qed.

(** X1.  A file name is analysed exactly when it ends in [.ts] and what
    stands before that [.ts] does not end in [.d], [.spec], [.test],
    [.mock], [.fixture] or [.e2e-spec].  A name that does not end in [.ts]
    is never analysed. *)
Theorem isTypeScriptFile_stem :
  (forall stem,
      isTypeScriptFile (stem ++ ".ts")
      = negb (existsb (JsString.endsWith stem) excludedStems))
  /\ (forall fileName,
         (forall stem, fileName <> stem ++ ".ts") -> isTypeScriptFile fileName = false).
Proof.
  split.
  - intros stem. unfold isTypeScriptFile.
    assert (Hts : JsString.endsWith (stem ++ ".ts") ".ts" = true)
      by (apply endsWith_app; now exists stem).
    rewrite Hts. cbn [negb]. f_equal.
    unfold excludePatterns, excludedStems. cbn [existsb].
    rewrite <- !(endsWith_common stem _ ".ts"). reflexivity.
  - intros fileName Hno. unfold isTypeScriptFile.
    destruct (JsString.endsWith fileName ".ts") eqn:He; [ | reflexivity].
    apply endsWith_app in He as [stem ->]. now elim (Hno stem).
Qed.

Lemma isTypeScriptFile_stem_witness :
  isTypeScriptFile "order.service.TS" = false.
Proof.
  apply (proj2 isTypeScriptFile_stem). intros stem H.
  assert (He : JsString.endsWith "order.service.TS" ".ts" = true)
    by (apply endsWith_app; now exists stem).
  discriminate.
Defined.

End SourceFiles.

(* ------------------------------------------------------------------ *)
(** ** What the traversal keeps *)

Section Visit.

Variable decoratorApi : bool.
Variable filePath : string.

(** A property of the result that both extraction steps keep is kept by
    the traversal of a tree. *)
Lemma visitNode_invariant (P : AnalysisResult -> Prop) :
  (forall node parents r, P r -> P (processPotentialBusUsage node parents filePath r)) ->
  (forall node r, P r -> P (processHandlerDeclaration decoratorApi node filePath r)) ->
  forall node parents r, P r -> P (visitNode decoratorApi parents filePath node r).
Proof.
  intros Hbus Hhandler node.
  induction node as [node IH] using Node_children_ind.
  intros parents r Hr. rewrite visitNode_children.
  set (start := let r1 := if isCallExpression node
                          then processPotentialBusUsage node parents filePath r else r in
                if isClassDeclaration node
                then processHandlerDeclaration decoratorApi node filePath r1 else r1).
  assert (Hstart : P start).
  { subst start. cbv zeta.
    destruct (isCallExpression node); destruct (isClassDeclaration node); auto. }
  clearbody start. revert start Hstart.
  induction (childrenOf node) as [ | c cs IHcs]; intros start Hstart; [exact Hstart | ].
  cbn [fold_left]. inversion IH; subst. apply IHcs; auto.
Qed.

Lemma fixedAppend_id {A : Type} (proj : AnalysisResult -> list A) :
  fixedAppend proj (fun r => r).
Proof. exists []. intros r. now rewrite app_nil_r. Qed.

Lemma fixedAppend_compose {A : Type} (proj : AnalysisResult -> list A) g1 g2 :
  fixedAppend proj g1 -> fixedAppend proj g2 -> fixedAppend proj (fun r => g2 (g1 r)).
Proof.
  intros [l1 H1] [l2 H2]. exists (l1 ++ l2). intros r.
  now rewrite H2, H1, app_assoc.
Qed.

Lemma fixedAppend_ext {A : Type} (proj : AnalysisResult -> list A) g1 g2 :
  (forall r, g1 r = g2 r) -> fixedAppend proj g1 -> fixedAppend proj g2.
Proof. intros He [l H]. exists l. intros r. now rewrite <- He. Qed.

Lemma visitNode_fixedAppend {A : Type} (proj : AnalysisResult -> list A) :
  (forall node parents, fixedAppend proj (processPotentialBusUsage node parents filePath)) ->
  (forall node, fixedAppend proj (processHandlerDeclaration decoratorApi node filePath)) ->
  forall node parents, fixedAppend proj (visitNode decoratorApi parents filePath node).
Proof.
  intros Hbus Hhandler node.
  induction node as [node IH] using Node_children_ind.
  intros parents.
  apply (fixedAppend_ext proj
           (fun r =>
              fold_left (fun acc child =>
                           visitNode decoratorApi (node :: parents) filePath child acc)
                (childrenOf node)
                ((fun r1 => if isClassDeclaration node
                            then processHandlerDeclaration decoratorApi node filePath r1
                            else r1)
                   (if isCallExpression node
                    then processPotentialBusUsage node parents filePath r else r)))).
  { intros r. now rewrite visitNode_children. }
  apply (fixedAppend_compose proj
           (fun r => (fun r1 => if isClassDeclaration node
                                then processHandlerDeclaration decoratorApi node filePath r1
                                else r1)
                       (if isCallExpression node
                        then processPotentialBusUsage node parents filePath r else r))
           (fun start =>
              fold_left (fun acc child =>
                           visitNode decoratorApi (node :: parents) filePath child acc)
                (childrenOf node) start)).
  - apply (fixedAppend_compose proj
             (fun r => if isCallExpression node
                       then processPotentialBusUsage node parents filePath r else r)
             (fun r1 => if isClassDeclaration node
                        then processHandlerDeclaration decoratorApi node filePath r1
                        else r1)).
    + destruct (isCallExpression node); [apply Hbus | apply fixedAppend_id].
    + destruct (isClassDeclaration node); [apply Hhandler | apply fixedAppend_id].
  - induction (childrenOf node) as [ | c cs IHcs].
    + apply fixedAppend_id.
    + inversion IH; subst. cbn [fold_left].
      apply (fixedAppend_compose proj
               (visitNode decoratorApi (node :: parents) filePath c)
               (fun start =>
                  fold_left (fun acc child =>
                               visitNode decoratorApi (node :: parents) filePath child acc)
                    cs start)); auto.
Qed.

Lemma processPotentialBusUsage_shape node parents :
  exists us, forall r,
      processPotentialBusUsage node parents filePath r
      = {| busUsages := busUsages r ++ us; handlerDeclarations := handlerDeclarations r |}
      /\ Forall (fun u => BusUsage.sourceFile u = filePath
                          /\ BusUsage.className u <> "") us.
Proof.
  assert (Hsame : exists us : list BusUsage.t, forall r,
             r = {| busUsages := busUsages r ++ us;
                    handlerDeclarations := handlerDeclarations r |}
             /\ Forall (fun u => BusUsage.sourceFile u = filePath
                                 /\ BusUsage.className u <> "") us).
  { exists []. intros [b h]. cbn. rewrite app_nil_r. split; constructor. }
  destruct node as [ | | | | sp callee targs args | | | | ]; try exact Hsame.
  destruct callee as [ | | spa receiver nm | | | | | | ]; try exact Hsame.
  destruct nm as [spm m | | | | | | | | ]; try exact Hsame.
  destruct (isDispatchMethod m) eqn:Hm.
  - destruct (determineBusType (getObjectName receiver)) as [b | ] eqn:Hb.
    + eexists [_]. intros r. rewrite processPotentialBusUsage_call, Hm, Hb.
      split; [reflexivity | ].
      constructor; [ | constructor]. split; [reflexivity | ].
      cbn [BusUsage.className]. unfold orElse.
      match goal with |- context [findParentClass ?c] =>
        destruct (findParentClass c) as [s | ] end; [ | discriminate].
      destruct (String.eqb_spec s ""); [discriminate | assumption].
    + destruct Hsame as [us Hus]. exists us. intros r.
      rewrite processPotentialBusUsage_call, Hm, Hb. apply Hus.
  - destruct Hsame as [us Hus]. exists us. intros r.
    rewrite processPotentialBusUsage_call, Hm. apply Hus.
Qed.

Lemma structural_fold_shape className pos ds r :
  exists hs,
    fold_left (structuralStep filePath className pos) ds r
    = {| busUsages := busUsages r; handlerDeclarations := handlerDeclarations r ++ hs |}
    /\ Forall (fun h => HandlerDeclaration.sourceFile h = filePath
                        /\ HandlerDeclaration.className h = className
                        /\ HandlerDeclaration.position h = pos) hs.
Proof.
  revert r. induction ds as [ | d ds IH]; intros r.
  - exists []. cbn. rewrite app_nil_r. destruct r. split; [reflexivity | constructor].
  - cbn [fold_left]. unfold structuralStep at 2.
    destruct (structuralHandler d) as [[k e] | ]; [ | apply IH].
    destruct (existsb (sameHandler className k) (handlerDeclarations r)); [apply IH | ].
    destruct (IH (pushHandler
                    {| HandlerDeclaration.sourceFile := filePath;
                       HandlerDeclaration.className := className;
                       HandlerDeclaration.handlerType := k;
                       HandlerDeclaration.eventType := e;
                       HandlerDeclaration.position := pos |} r)) as (hs & -> & Hhs).
    eexists (_ :: hs). cbn [pushHandler busUsages handlerDeclarations].
    rewrite <- app_assoc. split; [reflexivity | ].
    constructor; [repeat split | exact Hhs].
Qed.

Lemma lexicalEdges_tagged className pos text :
  Forall (fun h => HandlerDeclaration.sourceFile h = filePath
                   /\ HandlerDeclaration.className h = className
                   /\ HandlerDeclaration.position h = pos)
    (lexicalEdges filePath className pos text).
Proof.
  unfold lexicalEdges. apply Forall_map, Forall_forall. intros m _. repeat split.
Qed.

Lemma processHandlerDeclaration_shape node r :
  exists hs,
    processHandlerDeclaration decoratorApi node filePath r
    = {| busUsages := busUsages r; handlerDeclarations := handlerDeclarations r ++ hs |}
    /\ Forall (fun h => HandlerDeclaration.sourceFile h = filePath) hs.
Proof.
  assert (Hsame : exists hs : list HandlerDeclaration.t,
             r = {| busUsages := busUsages r;
                    handlerDeclarations := handlerDeclarations r ++ hs |}
             /\ Forall (fun h => HandlerDeclaration.sourceFile h = filePath) hs).
  { exists []. destruct r as [b h]. cbn. rewrite app_nil_r. split; constructor. }
  destruct node as [ | | | | | | sp mods [className | ] her mems | | ]; try exact Hsame.
  rewrite processHandlerDeclaration_class. cbv zeta.
  pose proof (lexicalEdges_tagged className (startPos sp) (sourceText sp)) as Hlex.
  destruct decoratorApi.
  - match goal with |- context [fold_left ?f ?ds ?r1] =>
      destruct (structural_fold_shape className (startPos sp) ds r1) as (hs & -> & Hhs)
    end.
    cbn [busUsages handlerDeclarations]. eexists. rewrite <- app_assoc.
    split; [reflexivity | ].
    apply Forall_app. split; eapply Forall_impl; try eassumption; cbv beta; tauto.
  - eexists. split; [reflexivity | ].
    eapply Forall_impl; try eassumption; cbv beta; tauto.
Qed.

Lemma appended_refl r : appended filePath r r.
Proof. exists [], []. rewrite !app_nil_r. repeat split; constructor. Qed.

Lemma appended_trans r1 r2 r3 :
  appended filePath r1 r2 -> appended filePath r2 r3 -> appended filePath r1 r3.
Proof.
  intros (us & hs & Hb & Hh & Hus & Hhs) (us' & hs' & Hb' & Hh' & Hus' & Hhs').
  exists (us ++ us'), (hs ++ hs'). rewrite Hb', Hh', Hb, Hh, <- !app_assoc.
  repeat split; apply Forall_app; split; assumption.
Qed.

Lemma visitNode_appended node parents r :
  appended filePath r (visitNode decoratorApi parents filePath node r).
Proof.
  apply (visitNode_invariant (appended filePath r)).
  - intros n ps r' Hr'. apply (appended_trans _ _ _ Hr').
    destruct (processPotentialBusUsage_shape n ps) as [us Hus].
    destruct (Hus r') as [-> Hall]. exists us, [].
    cbn [busUsages handlerDeclarations]. rewrite app_nil_r.
    repeat split; [ | constructor].
    eapply Forall_impl; try eassumption; cbv beta; tauto.
  - intros n r' Hr'. apply (appended_trans _ _ _ Hr').
    destruct (processHandlerDeclaration_shape n r') as (hs & -> & Hall).
    exists [], hs. cbn [busUsages handlerDeclarations]. rewrite app_nil_r.
    repeat split; [constructor | assumption].
  - apply appended_refl.
Qed.

Lemma visitNode_classNames node parents r :
  Forall (fun u => BusUsage.className u <> "") (busUsages r) ->
  Forall (fun u => BusUsage.className u <> "")
    (busUsages (visitNode decoratorApi parents filePath node r)).
Proof.
  apply (visitNode_invariant
           (fun r => Forall (fun u => BusUsage.className u <> "") (busUsages r))).
  - intros n ps r' Hr'.
    destruct (processPotentialBusUsage_shape n ps) as [us Hus].
    destruct (Hus r') as [-> Hall]. cbn [busUsages].
    apply Forall_app. split; [assumption | ].
    eapply Forall_impl; try eassumption; cbv beta; tauto.
  - intros n r' Hr'.
    destruct (processHandlerDeclaration_shape n r') as (hs & -> & _). exact Hr'.
Qed.

Lemma visitNode_bus_fixed node parents :
  fixedAppend busUsages (visitNode decoratorApi parents filePath node).
Proof.
  apply visitNode_fixedAppend.
  - intros n ps. destruct (processPotentialBusUsage_shape n ps) as [us Hus].
    exists us. intros r. now destruct (Hus r) as [-> _].
  - intros n. exists []. intros r.
    destruct (processHandlerDeclaration_shape n r) as (hs & -> & _).
    cbn [busUsages]. now rewrite app_nil_r.
Qed.

End Visit.

Lemma visitNode_handlers_fixed filePath node parents :
  fixedAppend handlerDeclarations (visitNode false parents filePath node).
Proof.
  apply visitNode_fixedAppend.
  - intros n ps. exists []. intros r.
    destruct (processPotentialBusUsage_shape filePath n ps) as [us Hus].
    destruct (Hus r) as [-> _]. cbn [handlerDeclarations]. now rewrite app_nil_r.
  - intros n.
    destruct n as [ | | | | | | sp mods [className | ] her mems | | ];
      try (exists []; intros r; now rewrite app_nil_r).
    eexists. intros r. rewrite processHandlerDeclaration_class. reflexivity.
Qed.

Lemma fixedAppend_from_empty {A : Type} (proj : AnalysisResult -> list A) g r :
  proj emptyResult = [] -> fixedAppend proj g -> proj (g r) = proj r ++ proj (g emptyResult).
Proof. intros He [l H]. now rewrite (H emptyResult), He, H. Qed.

(** X2.  Analysing a file only appends: the edges accumulated before
    remain, in place and in order, and every edge that is added carries the
    path of the file as its source file. *)
Theorem analyzeFile_appends (decoratorApi : bool) (filePath : string)
    (sourceFile : Node) (r : AnalysisResult) :
  appended filePath r (analyzeFile decoratorApi filePath sourceFile r).
Proof. apply visitNode_appended. Qed.

(** X3.  The class name of a bus usage is never empty: where the
    enclosing class has an empty name or there is none, it is "Unknown".
    This needs nothing of the tree. *)
Theorem busUsage_className_present (decoratorApi : bool) (filePath : string)
    (sourceFile : Node) (r : AnalysisResult) :
  Forall (fun u => BusUsage.className u <> "") (busUsages r) ->
  Forall (fun u => BusUsage.className u <> "")
    (busUsages (analyzeFile decoratorApi filePath sourceFile r)).
Proof. apply visitNode_classNames. Qed.

Lemma busUsage_className_present_witness :
  Forall (fun u => BusUsage.className u <> "")
    (busUsages (analyzeFile true "nested.ts" Examples.nestedUnit Examples.orders)).
Proof.
  apply busUsage_className_present. repeat constructor; discriminate.
Defined.

(** X4.  The bus usages a file contributes do not depend on what was
    accumulated before; without the decorator API neither do its handler
    declarations.  (With the API they do: path B looks at the result.) *)
Theorem analyzeFile_independent (decoratorApi : bool) (filePath : string)
    (sourceFile : Node) (r : AnalysisResult) :
  busUsages (analyzeFile decoratorApi filePath sourceFile r)
  = busUsages r ++ busUsages (analyzeFile decoratorApi filePath sourceFile emptyResult)
  /\ handlerDeclarations (analyzeFile false filePath sourceFile r)
     = handlerDeclarations r
       ++ handlerDeclarations (analyzeFile false filePath sourceFile emptyResult).
Proof.
  split.
  - apply (fixedAppend_from_empty busUsages); [reflexivity | apply visitNode_bus_fixed].
  - apply (fixedAppend_from_empty handlerDeclarations);
      [reflexivity | apply visitNode_handlers_fixed].
Qed.

Lemma analyzeUnits_flat {A : Type} (proj : AnalysisResult -> list A) api :
  proj emptyResult = [] ->
  (forall filePath node, fixedAppend proj (analyzeFile api filePath node)) ->
  forall units r,
    proj (analyzeUnits api units r)
    = proj r ++ flat_map (fun unit => proj (analyzeFile api (fst unit) (snd unit) emptyResult))
                  units.
Proof.
  intros He Hfix units. unfold analyzeUnits.
  induction units as [ | u units IH]; intros r; cbn [fold_left flat_map].
  - now rewrite app_nil_r.
  - rewrite IH, (fixedAppend_from_empty proj _ r He (Hfix (fst u) (snd u))).
    now rewrite app_assoc.
Qed.

(** X5.  The order in which the files are visited changes the bus usages
    only by a permutation; without the decorator API the same holds of the
    handler declarations. *)
Theorem analyzeUnits_order (decoratorApi : bool) (units units' : list (string * Node))
    (r : AnalysisResult) :
  Permutation units units' ->
  Permutation (busUsages (analyzeUnits decoratorApi units r))
    (busUsages (analyzeUnits decoratorApi units' r))
  /\ Permutation (handlerDeclarations (analyzeUnits false units r))
       (handlerDeclarations (analyzeUnits false units' r)).
Proof.
  intros Hp. split.
  - rewrite !(analyzeUnits_flat busUsages decoratorApi eq_refl
                (fun f n => visitNode_bus_fixed decoratorApi f n [])).
    apply Permutation_app_head. now apply Permutation_flat_map.
  - rewrite !(analyzeUnits_flat handlerDeclarations false eq_refl
                (fun f n => visitNode_handlers_fixed f n [])).
    apply Permutation_app_head. now apply Permutation_flat_map.
Qed.

Lemma analyzeUnits_order_witness :
  let a := ("order.service.ts", Examples.orderServiceUnit) in
  let b := ("nested.ts", Examples.nestedUnit) in
  Permutation (busUsages (analyzeUnits true [a; b] emptyResult))
    (busUsages (analyzeUnits true [b; a] emptyResult)).
Proof.
  intros a b. apply (analyzeUnits_order true [a; b] [b; a] emptyResult).
  apply perm_swap.
Defined.

(** X6.  With the decorator API the handler declarations do depend on
    the order of the files: a class whose handler only path B detects gets
    its edge when its file comes first, and none when a file with a class
    of the same name and handler kind came before. *)
Theorem handlerDeclarations_order_matters :
  ~ (forall units units' r,
        Permutation units units' ->
        Permutation (handlerDeclarations (analyzeUnits true units r))
          (handlerDeclarations (analyzeUnits true units' r))).
Proof.
  intros H.
  specialize (H [Examples2.typedUnit; Examples2.plainUnit]
                [Examples2.plainUnit; Examples2.typedUnit] emptyResult
                (perm_swap _ _ _)).
  apply Permutation_length in H. vm_compute in H. discriminate.
Qed.

(* ------------------------------------------------------------------ *)
(** ** The event type path A reads *)

Section Lexical.

Local Open Scope string_scope.

Lemma space_not_word (c : ascii) : Js.isSpace c = true -> Js.isWordChar c = false.
Proof.
  destruct c as [[] [] [] [] [] [] [] []]; vm_compute; intros H;
    first [reflexivity | discriminate H].
Qed.

Lemma firstWord_trimStart (s : string) :
  Regex.firstWord (Js.trimStart s) = Regex.firstWord s.
Proof.
  induction s as [ | c s IH]; [reflexivity | ].
  cbn [Js.trimStart]. destruct (Js.isSpace c) eqn:Hc; [ | reflexivity].
  cbn [Regex.firstWord]. now rewrite (space_not_word c Hc).
Qed.

Lemma trimEnd_cons (c : ascii) (s : string) :
  Js.trimEnd (String c s)
  = if String.eqb (Js.trimEnd s) "" && Js.isSpace c then ""
    else String c (Js.trimEnd s).
Proof.
  cbn [Js.trimEnd]. destruct (Js.trimEnd s); [ | reflexivity].
  cbn. destruct (Js.isSpace c); reflexivity.
Qed.

Lemma word_trimEnd (s : string) : Regex.word (Js.trimEnd s) = Regex.word s.
Proof.
  induction s as [ | c s IH]; [reflexivity | ].
  rewrite trimEnd_cons. cbn [Regex.word].
  destruct (Js.isWordChar c) eqn:Hw.
  - destruct (Js.isSpace c) eqn:Hs;
      [rewrite (space_not_word c Hs) in Hw; discriminate | ].
    rewrite andb_false_r. cbn [Regex.word]. now rewrite Hw, IH.
  - destruct (String.eqb (Js.trimEnd s) "" && Js.isSpace c); [reflexivity | ].
    cbn [Regex.word]. now rewrite Hw.
Qed.

Lemma firstWord_trimEnd (s : string) :
  Regex.firstWord (Js.trimEnd s) = Regex.firstWord s.
Proof.
  induction s as [ | c s IH]; [reflexivity | ].
  rewrite trimEnd_cons. cbn [Regex.firstWord].
  destruct (Js.isWordChar c) eqn:Hw.
  - destruct (Js.isSpace c) eqn:Hs;
      [rewrite (space_not_word c Hs) in Hw; discriminate | ].
    rewrite andb_false_r. cbn [Regex.firstWord Regex.word].
    now rewrite Hw, word_trimEnd.
  - destruct (String.eqb_spec (Js.trimEnd s) "") as [He | _]; cbn [andb].
    + destruct (Js.isSpace c).
      * rewrite <- IH, He. reflexivity.
      * cbn [Regex.firstWord]. now rewrite Hw.
    + cbn [Regex.firstWord]. now rewrite Hw.
Qed.

(** Trimming the argument text does not change the word that is read. *)
Lemma firstWord_trim (s : string) : Regex.firstWord (Js.trim s) = Regex.firstWord s.
Proof. unfold Js.trim. now rewrite firstWord_trimEnd, firstWord_trimStart. Qed.

Lemma word_wordOnly (s : string) : wordOnly (Regex.word s) = true.
Proof.
  unfold wordOnly. induction s as [ | c s IH]; [reflexivity | ].
  cbn [Regex.word]. destruct (Js.isWordChar c) eqn:Hc; [ | reflexivity].
  cbn [list_ascii_of_string forallb]. now rewrite Hc.
Qed.

Lemma firstWord_wordOnly (s w : string) :
  Regex.firstWord s = Some w -> wordOnly w = true.
Proof.
  revert w. induction s as [ | c s IH]; intros w; [discriminate | ].
  cbn [Regex.firstWord]. destruct (Js.isWordChar c) eqn:Hc; [ | apply IH].
  intros H. injection H as <-. exact (word_wordOnly (String c s)).
Qed.

Lemma firstWord_skip (pre s : string) :
  wordless pre = true -> Regex.firstWord (pre ++ s) = Regex.firstWord s.
Proof.
  unfold wordless. induction pre as [ | c pre IH]; [reflexivity | ].
  cbn [list_ascii_of_string existsb]. intros H.
  apply negb_true_iff, orb_false_iff in H as [Hc Hp].
  cbn [append Regex.firstWord]. rewrite Hc. apply IH. now rewrite Hp.
Qed.

Lemma word_run (w post : string) :
  wordOnly w = true -> wordEnds post = true -> Regex.word (w ++ post) = w.
Proof.
  unfold wordOnly. induction w as [ | c w IH]; intros Hw Hp.
  - destruct post as [ | d post]; [reflexivity | ].
    cbn [append Regex.word]. cbn [wordEnds] in Hp.
    apply negb_true_iff in Hp. now rewrite Hp.
  - cbn [list_ascii_of_string forallb] in Hw. apply andb_true_iff in Hw as [Hc Hw].
    cbn [append Regex.word]. now rewrite Hc, IH.
Qed.

Lemma firstWord_run (pre w post : string) :
  wordless pre = true -> wordOnly w = true -> w <> "" -> wordEnds post = true ->
  Regex.firstWord (pre ++ w ++ post) = Some w.
Proof.
  intros Hpre Hw Hne Hpost. rewrite (firstWord_skip _ _ Hpre).
  destruct w as [ | c w]; [now elim Hne | ].
  pose proof (word_run _ _ Hw Hpost) as Hrun.
  unfold wordOnly in Hw. cbn [list_ascii_of_string forallb] in Hw.
  apply andb_true_iff in Hw as [Hc _].
  cbn [append Regex.firstWord]. rewrite Hc. f_equal. exact Hrun.
Qed.

Lemma firstWord_wordless (s : string) : wordless s = true -> Regex.firstWord s = None.
Proof.
  unfold wordless. induction s as [ | c s IH]; [reflexivity | ].
  cbn [list_ascii_of_string existsb]. intros H.
  apply negb_true_iff, orb_false_iff in H as [Hc Hp].
  cbn [Regex.firstWord]. rewrite Hc. apply IH. now rewrite Hp.
Qed.

(** X7.  Every event type path A infers is a non-empty run of the
    characters [A-Za-z0-9_], whatever the text of the class: it never
    holds a dot, a bracket or white space. *)
Theorem lexical_eventType_word (filePath className : string) (pos : LineAndCharacter)
    (nodeText : string) :
  Forall (fun h => HandlerDeclaration.eventType h <> ""
                   /\ wordOnly (HandlerDeclaration.eventType h) = true)
    (lexicalEdges filePath className pos nodeText).
Proof.
  unfold lexicalEdges. apply Forall_map, Forall_forall. intros m _.
  split; [apply lexicalEdge_eventType | ].
  unfold lexicalEdge. cbn [HandlerDeclaration.eventType].
  destruct (Regex.firstWord (Js.trim (snd m))) as [w | ] eqn:Hw.
  - exact (firstWord_wordOnly _ _ Hw).
  - reflexivity.
Qed.

(** X8.  Path A reads the first word of the argument text: what stands
    before it (white space, brackets, quotes) is skipped and the word ends
    at the first other character, so of a qualified name it reads the
    leftmost segment.  Argument text without a word character gives
    "Unknown". *)
Theorem lexical_eventType_first_word (filePath className : string)
    (pos : LineAndCharacter) (k : HandlerType) :
  (forall pre w post,
      wordless pre = true -> wordOnly w = true -> w <> "" -> wordEnds post = true ->
      HandlerDeclaration.eventType
        (lexicalEdge filePath className pos (k, pre ++ w ++ post)) = w)
  /\ (forall argsText,
         wordless argsText = true ->
         HandlerDeclaration.eventType
           (lexicalEdge filePath className pos (k, argsText)) = "Unknown").
Proof.
  split.
  - intros pre w post Hpre Hw Hne Hpost. unfold lexicalEdge.
    cbn [HandlerDeclaration.eventType snd].
    now rewrite firstWord_trim, (firstWord_run pre w post Hpre Hw Hne Hpost).
  - intros argsText H. unfold lexicalEdge. cbn [HandlerDeclaration.eventType snd].
    now rewrite firstWord_trim, (firstWord_wordless _ H).
Qed.

Lemma lexical_eventType_first_word_witness :
  HandlerDeclaration.eventType
    (lexicalEdge "h.ts" "H" {| line := 0; character := 0 |}
       (CommandHandler, " [" ++ "Commands" ++ ".CreateOrder, Commands.CancelOrder] "))
  = "Commands"
  /\ HandlerDeclaration.eventType
       (lexicalEdge "h.ts" "H" {| line := 0; character := 0 |} (EventsHandler, " ...[] "))
     = "Unknown".
Proof.
  split.
  - apply (proj1 (lexical_eventType_first_word "h.ts" "H"
                    {| line := 0; character := 0 |} CommandHandler));
      [reflexivity | reflexivity | discriminate | reflexivity].
  - apply (proj2 (lexical_eventType_first_word "h.ts" "H"
                    {| line := 0; character := 0 |} EventsHandler)).
    reflexivity.
Defined.

End Lexical.

(* ------------------------------------------------------------------ *)
(** ** Path B on its own *)

Section Structural.

Lemma filter_nil_existsb {A : Type} (p : A -> bool) (l : list A) :
  filter p l = [] -> existsb p l = false.
Proof.
  induction l as [ | a l IH]; [reflexivity | ].
  simpl. destruct (p a); [discriminate | exact IH].
Qed.

Lemma structural_fold_first filePath className pos k ds r :
  existsb (sameHandler className k) (handlerDeclarations r) = false ->
  filter (sameHandler className k)
    (handlerDeclarations (fold_left (structuralStep filePath className pos) ds r))
  = match find (declares k) ds with
    | Some d =>
        match structuralHandler d with
        | Some (_, eventType) =>
            [{| HandlerDeclaration.sourceFile := filePath;
                HandlerDeclaration.className := className;
                HandlerDeclaration.handlerType := k;
                HandlerDeclaration.eventType := eventType;
                HandlerDeclaration.position := pos |}]
        | None => []
        end
    | None => []
    end.
Proof.
  revert r. induction ds as [ | d ds IH]; intros r Hno.
  - cbn [fold_left find]. now apply existsb_filter_nil.
  - assert (Hkk : HandlerType_eqb k k = true) by now apply HandlerType_eqb_eq.
    cbn [fold_left find]. unfold declares at 1, structuralStep at 2.
    destruct (structuralHandler d) as [[k' e] | ] eqn:Hd; [ | now apply IH].
    destruct (HandlerType_eqb k' k) eqn:Hk.
    + apply HandlerType_eqb_eq in Hk. subst k'. rewrite Hno, Hd.
      rewrite structural_fold_keeps.
      * cbn [pushHandler handlerDeclarations]. rewrite filter_app.
        rewrite (existsb_filter_nil _ _ Hno). cbn [app filter].
        unfold sameHandler at 1. cbn [HandlerDeclaration.className
                                        HandlerDeclaration.handlerType].
        now rewrite String.eqb_refl, Hkk.
      * cbn [pushHandler handlerDeclarations]. rewrite existsb_app. cbn [existsb].
        unfold sameHandler at 2. cbn [HandlerDeclaration.className
                                        HandlerDeclaration.handlerType].
        now rewrite String.eqb_refl, Hkk, orb_true_r.
    + destruct (existsb (sameHandler className k') (handlerDeclarations r));
        [now apply IH | ].
      apply IH. cbn [pushHandler handlerDeclarations]. rewrite existsb_app, Hno.
      cbn [existsb orb]. unfold sameHandler.
      cbn [HandlerDeclaration.className HandlerDeclaration.handlerType].
      now rewrite Hk, andb_false_r.
Qed.

(** X9.  Where path A finds no handler of a kind for a class and none
    is accumulated for the pair, path B records at most one edge of that
    kind for the class: the first decorator of the kind decides the event
    type and later decorators of the same kind are dropped. *)
Theorem structural_first_decorator_wins sp mods className her mems filePath r k :
  SpecExtraction.edgesOf className k r = [] ->
  SpecExtraction.lexicallyDetected (sourceText sp) k = false ->
  SpecExtraction.edgesOf className k
    (processHandlerDeclaration true
       (ClassDeclaration sp mods (Some className) her mems) filePath r)
  = match find (declares k) (getDecorators mods) with
    | Some d =>
        match structuralHandler d with
        | Some (_, eventType) =>
            [{| HandlerDeclaration.sourceFile := filePath;
                HandlerDeclaration.className := className;
                HandlerDeclaration.handlerType := k;
                HandlerDeclaration.eventType := eventType;
                HandlerDeclaration.position := startPos sp |}]
        | None => []
        end
    | None => []
    end.
Proof.
  intros Hr Hlex. unfold SpecExtraction.edgesOf in *.
  rewrite processHandlerDeclaration_class. cbv zeta.
  apply structural_fold_first. cbn [handlerDeclarations].
  rewrite existsb_app, (filter_nil_existsb _ _ Hr).
  now rewrite <- (lexicallyDetected_edges filePath className (startPos sp)), Hlex.
Qed.

Lemma structural_first_decorator_wins_witness :
  SpecExtraction.edgesOf "OrderHandler" CommandHandler
    (processHandlerDeclaration true
       (ClassDeclaration (Examples.at_ 0 0 Examples2.twiceTypedText)
          Examples2.twiceTypedModifiers (Some "OrderHandler") [] [])
       "typed.handler.ts" emptyResult)
  = [{| HandlerDeclaration.sourceFile := "typed.handler.ts";
        HandlerDeclaration.className := "OrderHandler";
        HandlerDeclaration.handlerType := CommandHandler;
        HandlerDeclaration.eventType := "CreateOrder";
        HandlerDeclaration.position := {| line := 0; character := 0 |} |}].
Proof.
  apply (structural_first_decorator_wins
           (Examples.at_ 0 0 Examples2.twiceTypedText)); reflexivity.
Defined.

End Structural.

(* ------------------------------------------------------------------ *)
(** ** The size of a limited result *)

Section BudgetSizes.

Local Open Scope Z_scope.

#[local] Abbreviation total r :=
  (Z.of_nat (List.length (busUsages r) + List.length (handlerDeclarations r))).

Lemma truncation_lengths {A B : Type} (maxEdges : Z) (bus : list A) (handlers : list B) :
  0 < maxEdges ->
  let kept := Spec.truncation maxEdges bus handlers in
  Z.of_nat (List.length (fst kept)) = Z.min (Z.of_nat (List.length bus)) (maxEdges / 2)
  /\ Z.of_nat (List.length (snd kept))
     = Z.min (Z.of_nat (List.length handlers))
         (maxEdges - Z.of_nat (List.length (fst kept))).
Proof.
  intros Hpos kept. subst kept. unfold Spec.truncation. cbn [fst snd].
  assert (H2 : 2 * (maxEdges / 2) <= maxEdges) by (apply Z.mul_div_le; lia).
  assert (H2' : maxEdges < 2 * (maxEdges / 2) + 2)
    by (pose proof (Z.mod_pos_bound maxEdges 2); pose proof (Z.div_mod maxEdges 2); lia).
  assert (H0 : 0 <= maxEdges / 2) by (apply Z.div_pos; lia).
  set (bus' := if maxEdges <? 2 * Z.of_nat (List.length bus)
               then firstn (Z.to_nat (maxEdges / 2)) bus else bus).
  assert (Hb : Z.of_nat (List.length bus')
               = Z.min (Z.of_nat (List.length bus)) (maxEdges / 2)).
  { subst bus'. destruct (Z.ltb_spec maxEdges (2 * Z.of_nat (List.length bus))).
    - rewrite length_firstn. lia.
    - lia. }
  split; [exact Hb | ].
  destruct (Z.ltb_spec 0 (maxEdges - Z.of_nat (List.length bus'))); [ | lia].
  destruct (Z.ltb_spec (maxEdges - Z.of_nat (List.length bus'))
              (Z.of_nat (List.length handlers))); cbn [andb].
  - rewrite length_firstn. lia.
  - lia.
Qed.

Lemma applyMaxEdges_fits (maxEdges : Z) (r : AnalysisResult) :
  0 < maxEdges -> total (applyMaxEdges maxEdges r) <= maxEdges.
Proof.
  intros Hpos.
  destruct (Z.lt_ge_cases maxEdges (total r)) as [Hover | Hin].
  - pose proof (applyMaxEdges_over maxEdges r Hpos Hover) as Heq.
    pose proof (truncation_fits maxEdges (busUsages r) (handlerDeclarations r) Hpos Hover)
      as Hfit.
    rewrite <- Heq in Hfit. exact Hfit.
  - rewrite (applyMaxEdges_within maxEdges r) by lia. lia.
Qed.

Lemma applyMaxEdges_unlimited (maxEdges : Z) (r : AnalysisResult) :
  maxEdges <= 0 -> applyMaxEdges maxEdges r = r.
Proof.
  intros Hle. unfold applyMaxEdges.
  destruct (Z.ltb_spec 0 maxEdges); [lia | reflexivity].
Qed.

(** X10.  Under a positive budget the limited result never holds more
    edges than the budget.  Where the budget is exceeded, the bus usages
    kept number min(count, floor(maxEdges/2)) and the handler declarations
    min(count, maxEdges - bus usages kept): bus usages never get more than
    half, handler declarations get whatever the bus usages leave. *)
Theorem applyMaxEdges_sizes (maxEdges : Z) (r : AnalysisResult) :
  0 < maxEdges ->
  let out := applyMaxEdges maxEdges r in
  total out <= maxEdges
  /\ (maxEdges < total r ->
      Z.of_nat (List.length (busUsages out))
      = Z.min (Z.of_nat (List.length (busUsages r))) (maxEdges / 2)
      /\ Z.of_nat (List.length (handlerDeclarations out))
         = Z.min (Z.of_nat (List.length (handlerDeclarations r)))
             (maxEdges - Z.of_nat (List.length (busUsages out)))).
Proof.
  intros Hpos out. subst out. split; [now apply applyMaxEdges_fits | ].
  intros Hover.
  pose proof (applyMaxEdges_over maxEdges r Hpos Hover) as Heq.
  pose proof (truncation_lengths maxEdges (busUsages r) (handlerDeclarations r) Hpos)
    as Hlen.
  cbv zeta in Hlen. rewrite <- Heq in Hlen. exact Hlen.
Qed.

Lemma applyMaxEdges_sizes_witness :
  let u := Examples.usage "A" "m" "X" in
  let h := Examples.handler "B" "X" in
  let r := {| busUsages := [u; u; u; u; u; u; u];
              handlerDeclarations := [h] |} in
  Z.of_nat (List.length (busUsages (applyMaxEdges 6 r))) = 3
  /\ Z.of_nat (List.length (handlerDeclarations (applyMaxEdges 6 r))) = 1.
Proof.
  intros u h r.
  destruct (applyMaxEdges_sizes 6 r) as [_ Hs]; [lia | ].
  destruct Hs as [Hb Hh]; [simpl; lia | ].
  split; [exact Hb | ]. rewrite Hh, Hb. reflexivity.
Defined.

(** X11.  The limit changes a result exactly when the budget is positive
    and the combined edge count exceeds it: a budget of 0, or a negative
    one, is no limit. *)
Theorem applyMaxEdges_unchanged_iff (maxEdges : Z) (r : AnalysisResult) :
  applyMaxEdges maxEdges r = r <-> maxEdges <= 0 \/ total r <= maxEdges.
Proof.
  split.
  - intros Heq.
    destruct (Z.le_gt_cases maxEdges 0) as [ | Hpos]; [now left | right].
    destruct (Z.le_gt_cases (total r) maxEdges) as [ | Hover]; [assumption | ].
    pose proof (applyMaxEdges_over maxEdges r Hpos Hover) as Ho.
    pose proof (truncation_fits maxEdges (busUsages r) (handlerDeclarations r) Hpos Hover)
      as Hfit.
    rewrite <- Ho, Heq in Hfit. cbn [fst snd] in Hfit. lia.
  - intros [Hle | Hle].
    + now apply applyMaxEdges_unlimited.
    + now apply applyMaxEdges_within.
Qed.

Lemma limitAnalysis_applyMaxEdges (maxEdges : Z) (r : AnalysisResult) :
  limitAnalysis maxEdges r = applyMaxEdges maxEdges r.
Proof.
  unfold limitAnalysis, applyMaxEdges.
  destruct (Z.eqb_spec maxEdges 0) as [-> | _]; reflexivity.
Qed.

(** X12.  The budget block of [CQRSAnalyzer.analyze] and the one of
    [generateDiagram] compute the same result, and the diagram generator,
    which is handed the result [analyze] has already limited together with
    the same budget, leaves it as it is. *)
Theorem limit_twice (maxEdges : Z) (r : AnalysisResult) :
  limitAnalysis maxEdges r = applyMaxEdges maxEdges r
  /\ applyMaxEdges maxEdges (limitAnalysis maxEdges r) = limitAnalysis maxEdges r.
Proof.
  split; [apply limitAnalysis_applyMaxEdges | ].
  rewrite limitAnalysis_applyMaxEdges.
  destruct (Z.le_gt_cases maxEdges 0) as [Hle | Hpos].
  - now apply applyMaxEdges_unlimited.
  - apply applyMaxEdges_within. now apply applyMaxEdges_fits.
Qed.

End BudgetSizes.

(* ------------------------------------------------------------------ *)
(** ** Sets in insertion order *)

Section Sets.

Lemma add_In (s : JsSet.t) (x y : string) :
  In y (JsSet.add s x) <-> y = x \/ In y s.
Proof.
  unfold JsSet.add, JsSet.has. destruct (existsb (String.eqb x) s) eqn:He.
  - apply existsb_exists in He as (z & Hz & Hxz). apply String.eqb_eq in Hxz. subst z.
    split; [now right | intros [-> | ?]; assumption].
  - rewrite in_app_iff. cbn [In]. intuition.
Qed.

Lemma add_NoDup (s : JsSet.t) (x : string) : NoDup s -> NoDup (JsSet.add s x).
Proof.
  intros Hs. unfold JsSet.add, JsSet.has.
  destruct (existsb (String.eqb x) s) eqn:He; [exact Hs | ].
  apply NoDup_app; [exact Hs | repeat constructor; intros [] | ].
  intros y Hy [<- | []].
  assert (Ht : existsb (String.eqb x) s = true)
    by (apply existsb_exists; exists x; split; [exact Hy | apply String.eqb_refl]).
  congruence.
Qed.

Lemma added_In (l : list string) (s : JsSet.t) (y : string) :
  In y (fold_left JsSet.add l s) <-> In y s \/ In y l.
Proof.
  revert s. induction l as [ | x l IH]; intros s; cbn [fold_left In].
  - intuition.
  - rewrite IH, add_In. intuition.
Qed.

Lemma added_NoDup (l : list string) (s : JsSet.t) :
  NoDup s -> NoDup (fold_left JsSet.add l s).
Proof.
  revert s. induction l as [ | x l IH]; intros s Hs; [exact Hs | ].
  cbn [fold_left]. apply IH, add_NoDup, Hs.
Qed.

Lemma has_In_set (s : JsSet.t) (x : string) : JsSet.has s x = true <-> In x s.
Proof.
  unfold JsSet.has. rewrite existsb_exists. split.
  - intros (z & Hz & Hxz). apply String.eqb_eq in Hxz. now subst z.
  - intros Hx. exists x. split; [exact Hx | apply String.eqb_refl].
Qed.

(** Adding the selected elements of a duplicate-free list filters it. *)
Lemma add_selected (p : string -> bool) (l : list string) (s : JsSet.t) :
  NoDup (s ++ l) ->
  fold_left (fun acc x => if p x then JsSet.add acc x else acc) l s = s ++ filter p l.
Proof.
  revert s. induction l as [ | x l IH]; intros s Hnd; cbn [fold_left filter].
  - now rewrite app_nil_r.
  - assert (Hx : ~ In x s).
    { intros Hx. apply NoDup_remove_2 in Hnd. apply Hnd, in_or_app. now left. }
    destruct (p x).
    + assert (Ha : JsSet.add s x = s ++ [x]).
      { unfold JsSet.add. destruct (JsSet.has s x) eqn:Hh; [ | reflexivity].
        apply has_In_set in Hh. now elim Hx. }
      rewrite Ha, IH; rewrite <- app_assoc; [reflexivity | exact Hnd].
    + apply IH. apply NoDup_remove_1 in Hnd. exact Hnd.
Qed.

Lemma filter_both_length {A : Type} (p : A -> bool) (l : list A) :
  List.length (filter p l) + List.length (filter (fun x => negb (p x)) l)
  = List.length l.
Proof.
  induction l as [ | a l IH]; [reflexivity | ].
  cbn [filter]. destruct (p a); cbn [negb List.length]; lia.
Qed.

End Sets.

(* ------------------------------------------------------------------ *)
(** ** The indices of the analyzer *)

Section Indices.

Variable r : AnalysisResult.

Lemma busUsers_In c : In c (busUsers r) <-> In c (producerNames r).
Proof.
  unfold busUsers, producerNames.
  rewrite (fold_left_map JsSet.add BusUsage.className), added_In. cbn [In]. intuition.
Qed.

Lemma handlerClasses_In c : In c (handlerClasses r) <-> In c (consumerNames r).
Proof.
  unfold handlerClasses, consumerNames.
  rewrite (fold_left_map JsSet.add HandlerDeclaration.className), added_In.
  cbn [In]. intuition.
Qed.

Lemma busUsers_NoDup : NoDup (busUsers r).
Proof.
  unfold busUsers. rewrite (fold_left_map JsSet.add BusUsage.className).
  apply added_NoDup. constructor.
Qed.

Lemma handlerClasses_NoDup : NoDup (handlerClasses r).
Proof.
  unfold handlerClasses. rewrite (fold_left_map JsSet.add HandlerDeclaration.className).
  apply added_NoDup. constructor.
Qed.

Lemma dualRoleClasses_filter :
  dualRoleClasses r = filter (JsSet.has (handlerClasses r)) (busUsers r).
Proof.
  unfold dualRoleClasses.
  now rewrite (add_selected (JsSet.has (handlerClasses r)) (busUsers r) [] busUsers_NoDup).
Qed.

Lemma dualRoleClasses_In c :
  In c (dualRoleClasses r) <-> In c (producerNames r) /\ In c (consumerNames r).
Proof.
  rewrite dualRoleClasses_filter, filter_In, has_In_set, busUsers_In, handlerClasses_In.
  reflexivity.
Qed.

Lemma dualRoleClasses_NoDup : NoDup (dualRoleClasses r).
Proof. rewrite dualRoleClasses_filter. apply NoDup_filter, busUsers_NoDup. Qed.

Lemma classNames_In c :
  In c (SpecAnalyzer.classNames r) <-> In c (producerNames r) \/ In c (consumerNames r).
Proof. unfold SpecAnalyzer.classNames. apply in_app_iff. Qed.

Lemma coupling_pos c :
  (SpecAnalyzer.coupling r c =? 0)%nat = false <-> In c (SpecAnalyzer.classNames r).
Proof.
  unfold SpecAnalyzer.coupling. rewrite (count_occ_In string_dec).
  destruct (Nat.eqb_spec (count_occ string_dec (SpecAnalyzer.classNames r) c) 0);
    split; intros; try lia; try reflexivity; discriminate.
Qed.

Lemma classCouplingCount_keys c :
  In c (JsMap.keys (classCouplingCount r)) <-> In c (SpecAnalyzer.classNames r).
Proof.
  destruct (classCouplingCount_counts r) as [_ Hget].
  rewrite <- coupling_pos. specialize (Hget c). cbv zeta in Hget.
  fold (SpecAnalyzer.coupling r c) in Hget.
  destruct (In_dec string_dec c (JsMap.keys (classCouplingCount r))) as [Hin | Hout].
  - split; [ | intros _; exact Hin]. intros _.
    destruct (SpecAnalyzer.coupling r c =? 0)%nat; [ | reflexivity].
    apply get_None in Hget. now elim Hget.
  - split; [intros Hin; now elim Hout | ]. intros Hc. rewrite Hc in Hget.
    apply get_None in Hout. congruence.
Qed.

Lemma classes_le_edges :
  JsMap.size (classCouplingCount r)
  <= List.length (busUsages r) + List.length (handlerDeclarations r).
Proof.
  destruct (classCouplingCount_counts r) as [Hnd _].
  replace (List.length (busUsages r) + List.length (handlerDeclarations r))
    with (List.length (SpecAnalyzer.classNames r))
    by (unfold SpecAnalyzer.classNames; now rewrite length_app, !length_map).
  replace (JsMap.size (classCouplingCount r))
    with (List.length (JsMap.keys (classCouplingCount r)))
    by (unfold JsMap.keys, JsMap.size; apply length_map).
  apply NoDup_incl_length; [exact Hnd | ].
  intros c Hc. now apply classCouplingCount_keys.
Qed.

End Indices.

(** X13.  The dual-role classes are, once each, exactly the classes that
    have both a bus-usage edge and a handler edge. *)
Theorem dualRoleClasses_both (r : AnalysisResult) :
  NoDup (dualRoleClasses r)
  /\ forall c, In c (dualRoleClasses r)
               <-> In c (producerNames r) /\ In c (consumerNames r).
Proof. split; [apply dualRoleClasses_NoDup | apply dualRoleClasses_In]. Qed.

(** X14.  The class counts of the metrics add up: every class is a
    producer, a consumer or both, so the total number of classes plus the
    number of dual-role classes is the number of producers plus the
    number of consumers. *)
Theorem metrics_class_counts (r : AnalysisResult) :
  let m := metrics (analyzeArchitecture r) in
  totalClasses m + dualRoleClassesCount m = eventProducers m + eventConsumers m.
Proof.
  cbn [analyzeArchitecture metrics totalClasses dualRoleClassesCount
         eventProducers eventConsumers]. unfold JsSet.size.
  set (A := busUsers r). set (B := handlerClasses r).
  set (inA := JsSet.has A).
  assert (HK : Permutation (JsMap.keys (classCouplingCount r))
                 (A ++ filter (fun x => negb (inA x)) B)).
  { apply NoDup_Permutation.
    - apply (classCouplingCount_counts r).
    - apply NoDup_app; [apply busUsers_NoDup | apply NoDup_filter, handlerClasses_NoDup | ].
      intros x Hx Hf. apply filter_In in Hf as [_ Hf]. subst inA.
      apply negb_true_iff in Hf.
      assert (Ht : JsSet.has A x = true) by now apply has_In_set.
      congruence.
    - intros c. rewrite classCouplingCount_keys, classNames_In, in_app_iff, filter_In.
      subst A B inA. rewrite busUsers_In, handlerClasses_In.
      split; [ | tauto]. intros [Hp | Hc]; [now left | ].
      destruct (JsSet.has (busUsers r) c) eqn:Hh.
      + left. now apply busUsers_In, has_In_set.
      + right. split; [exact Hc | reflexivity]. }
  assert (HD : Permutation (dualRoleClasses r) (filter inA B)).
  { apply NoDup_Permutation.
    - apply dualRoleClasses_NoDup.
    - apply NoDup_filter, handlerClasses_NoDup.
    - intros c. rewrite dualRoleClasses_In, filter_In. subst A B inA.
      rewrite has_In_set, busUsers_In, handlerClasses_In. tauto. }
  apply Permutation_length in HK, HD.
  unfold JsMap.keys in HK. rewrite length_map in HK. unfold JsMap.size.
  rewrite HK, HD, length_app.
  pose proof (filter_both_length inA B). lia.
Qed.

(* ------------------------------------------------------------------ *)
(** ** High coupling *)

Section HighCoupling.

Lemma get_In {V : Type} (m : JsMap.t V) (k : string) (v : V) :
  JsMap.get m k = Some v -> In (k, v) m.
Proof.
  induction m as [ | [k0 v0] m IH]; cbn [JsMap.get In]; [discriminate | ].
  destruct (String.eqb_spec k0 k) as [-> | _].
  - intros H. injection H as ->. now left.
  - intros H. right. now apply IH.
Qed.

Lemma filter_entries {V : Type} (p : string * V -> bool) (m : JsMap.t V) acc :
  fold_left (fun acc (entry : string * V) =>
               if p entry then acc ++ [(fst entry, snd entry)] else acc) m acc
  = acc ++ filter p m.
Proof.
  revert acc. induction m as [ | [k v] m IH]; intros acc; cbn [fold_left filter].
  - now rewrite app_nil_r.
  - rewrite IH. destruct (p (k, v)); [ | reflexivity].
    cbn [fst snd]. now rewrite <- app_assoc.
Qed.

Variable r : AnalysisResult.

Lemma highCouplingClasses_In c n :
  In (c, n) (highCouplingClasses r) <-> n = SpecAnalyzer.coupling r c /\ 5 < n.
Proof.
  unfold highCouplingClasses.
  rewrite (filter_entries (fun entry => (5 <? snd entry)%nat)). cbn [app].
  rewrite filter_In. cbn [snd]. rewrite Nat.ltb_lt.
  destruct (classCouplingCount_counts r) as [Hnd Hget].
  specialize (Hget c). cbv zeta in Hget. fold (SpecAnalyzer.coupling r c) in Hget.
  split.
  - intros [Hin Hn]. split; [ | exact Hn].
    rewrite (In_get _ _ _ Hnd Hin) in Hget.
    destruct (SpecAnalyzer.coupling r c =? 0)%nat; congruence.
  - intros [-> Hn]. split; [ | exact Hn]. apply get_In. rewrite Hget.
    destruct (Nat.eqb_spec (SpecAnalyzer.coupling r c) 0); [lia | reflexivity].
Qed.

End HighCoupling.

(** X15.  A class is reported as highly coupled, with its number of
    connections, exactly when the number of its bus-usage and handler edges
    is greater than 5: a class with 6 edges is reported with 6, a class
    with 5 is not. *)
Theorem highCoupling_more_than_five (r : AnalysisResult) (c : string) (n : nat) :
  In (c, n) (highCouplingClasses r) <-> n = SpecAnalyzer.coupling r c /\ 5 < n.
Proof. apply highCouplingClasses_In. Qed.

Lemma highCoupling_more_than_five_witness :
  let u := Examples.usage "Busy" "m" "X" in
  let h := Examples.handler "Busy" "X" in
  In ("Busy", 6)
    (highCouplingClasses {| busUsages := [u; u; u; u]; handlerDeclarations := [h; h] |})
  /\ ~ In ("Busy", 5)
       (highCouplingClasses {| busUsages := [u; u; u; u]; handlerDeclarations := [h] |}).
Proof.
  intros u h. split.
  - apply highCoupling_more_than_five. split; [reflexivity | lia].
  - intros H. apply highCoupling_more_than_five in H as [_ H]. lia.
Defined.

(* ------------------------------------------------------------------ *)
(** ** Producers and consumers, in order *)

Section Recorded.

Lemma record_get m k c e :
  JsMap.get (record m k c) e
  = if String.eqb k e then Some (orEmpty (JsMap.get m e) ++ [c]) else JsMap.get m e.
Proof.
  unfold record, JsMap.has.
  destruct (JsMap.get m k) as [l | ] eqn:Hk; cbn [negb].
  - rewrite Hk, get_set.
    destruct (String.eqb_spec k e) as [<- | _]; [ | reflexivity].
    now rewrite Hk.
  - rewrite get_set, String.eqb_refl, !get_set.
    destruct (String.eqb_spec k e) as [<- | _]; [ | reflexivity].
    now rewrite Hk.
Qed.

Lemma whenPopulated_app l c : whenPopulated (l ++ [c]) = Some (l ++ [c]).
Proof. now destruct l. Qed.

Lemma recorded_get (l : list (string * string)) m e :
  SpecAnalyzer.populated m ->
  JsMap.get (fold_left (fun m p => record m (fst p) (snd p)) l m) e
  = whenPopulated (orEmpty (JsMap.get m e)
                   ++ map snd (filter (fun p => String.eqb (fst p) e) l)).
Proof.
  revert m. induction l as [ | [k c] l IH]; intros m Hm; cbn [fold_left filter map].
  - rewrite app_nil_r. destruct (JsMap.get m e) as [l0 | ] eqn:He; [ | reflexivity].
    specialize (Hm e l0 He). cbn [orEmpty]. now destruct l0.
  - rewrite IH by now apply record_populated.
    cbn [fst snd]. rewrite record_get.
    destruct (String.eqb k e); cbn [orEmpty map]; [ | reflexivity].
    now rewrite <- app_assoc.
Qed.

Variable r : AnalysisResult.

Lemma eventEmitters_get e :
  JsMap.get (eventEmitters r) e = whenPopulated (producersOf r e).
Proof.
  unfold eventEmitters, producersOf.
  rewrite (fold_left_map (fun m p => record m (fst p) (snd p))
             (fun usage => (BusUsage.eventType usage, BusUsage.className usage))).
  rewrite recorded_get by (intros k l H; discriminate).
  cbn [JsMap.get orEmpty app]. f_equal.
  induction (busUsages r) as [ | u us IH]; [reflexivity | ].
  cbn [map filter fst]. destruct (String.eqb (BusUsage.eventType u) e);
    cbn [map snd]; now rewrite IH.
Qed.

Lemma eventHandlers_get e :
  JsMap.get (eventHandlers r) e = whenPopulated (consumersOf r e).
Proof.
  unfold eventHandlers, consumersOf.
  rewrite (fold_left_map (fun m p => record m (fst p) (snd p))
             (fun h => (HandlerDeclaration.eventType h, HandlerDeclaration.className h))).
  rewrite recorded_get by (intros k l H; discriminate).
  cbn [JsMap.get orEmpty app]. f_equal.
  induction (handlerDeclarations r) as [ | h hs IH]; [reflexivity | ].
  cbn [map filter fst]. destruct (String.eqb (HandlerDeclaration.eventType h) e);
    cbn [map snd]; now rewrite IH.
Qed.

End Recorded.

(** X16.  The emitter map holds for an event type the class names of all
    bus-usage edges of that type, one per edge and in the order of the
    edges, and holds no entry for a type without such an edge; the handler
    map does the same for the handler edges. *)
Theorem event_maps_in_order (r : AnalysisResult) (e : string) :
  JsMap.get (eventEmitters r) e = whenPopulated (producersOf r e)
  /\ JsMap.get (eventHandlers r) e = whenPopulated (consumersOf r e).
Proof. split; [apply eventEmitters_get | apply eventHandlers_get]. Qed.

(* ------------------------------------------------------------------ *)
(** ** The average and the issues *)

Section Issues.

Variable r : AnalysisResult.

Lemma average_quotient :
  average r
  = if (0 <? JsMap.size (classCouplingCount r))%nat
    then (inject_Z (Z.of_nat (List.length (busUsages r)
                              + List.length (handlerDeclarations r)))
          / inject_Z (Z.of_nat (JsMap.size (classCouplingCount r))))%Q
    else 0%Q.
Proof.
  unfold average. rewrite classCount_keys, totalConnections_sum.
  rewrite <- classCouplingCount_values, classCouplingCount_names, sum_bumped.
  unfold SpecAnalyzer.classNames at 2. rewrite length_app, !length_map.
  unfold JsMap.keys, JsMap.size. rewrite length_map.
  rewrite <- classCouplingCount_names. reflexivity.
Qed.

Lemma conditional_nil {A B : Type} (l : list A) (x : B) :
  (if (0 <? List.length l)%nat then [x] else []) = [] <-> l = [].
Proof. destruct l; cbn; split; congruence. Qed.

Lemma issueList_nil :
  issueList r = []
  <-> dualRoleClasses r = [] /\ highCouplingClasses r = []
      /\ unhandledEvents r = [] /\ orphanHandlers r = [].
Proof.
  unfold issueList, JsSet.size.
  split.
  - intros H.
    apply app_eq_nil in H as [H1 H]. apply app_eq_nil in H as [H2 H].
    apply app_eq_nil in H as [H3 H4].
    apply conditional_nil in H1, H2, H3, H4. now repeat split.
  - intros (-> & -> & -> & ->). reflexivity.
Qed.

Lemma nil_iff_no_element {A : Type} (l : list A) : l = [] <-> forall x, ~ In x l.
Proof.
  split; [intros -> x [] | ].
  destruct l as [ | a l]; [reflexivity | ]. intros H. elim (H a). now left.
Qed.

End Issues.

(** X17.  The number of classes never exceeds the number of edges, so
    the average number of connections is at least 1 as soon as there is an
    edge (and 0 only when there is none). *)
Theorem average_at_least_one (r : AnalysisResult) :
  let m := metrics (analyzeArchitecture r) in
  totalClasses m <= List.length (busUsages r) + List.length (handlerDeclarations r)
  /\ (0 < List.length (busUsages r) + List.length (handlerDeclarations r) ->
      (1 <= averageConnections m)%Q).
Proof.
  cbn [analyzeArchitecture metrics totalClasses averageConnections].
  pose proof (classes_le_edges r) as Hle. split; [exact Hle | ].
  intros Hpos. rewrite average_quotient.
  assert (Hsize : 0 < JsMap.size (classCouplingCount r)).
  { destruct (Nat.eq_dec (JsMap.size (classCouplingCount r)) 0) as [H0 | ]; [ | lia].
    destruct (no_class_no_edge r H0) as [Hb Hh]. rewrite Hb, Hh in Hpos.
    simpl in Hpos. lia. }
  destruct (Nat.ltb_spec 0 (JsMap.size (classCouplingCount r))) as [_ | ]; [ | lia].
  apply Qle_shift_div_l.
  - replace 0%Q with (inject_Z 0) by reflexivity. rewrite <- Zlt_Qlt. lia.
  - rewrite Qmult_1_l, <- Zle_Qle. lia.
Qed.

Lemma average_at_least_one_witness :
  (1 <= averageConnections (metrics (analyzeArchitecture Examples.orders)))%Q.
Proof.
  apply (average_at_least_one Examples.orders). simpl. lia.
Defined.

(** X18.  The analyzer reports no issue exactly when no class both
    sends and handles, no class has more than 5 edges, and the event types
    that are sent are the event types that are handled. *)
Theorem no_issue_iff (r : AnalysisResult) :
  issues (analyzeArchitecture r) = []
  <-> (forall c, ~ (In c (producerNames r) /\ In c (consumerNames r)))
      /\ (forall c, SpecAnalyzer.coupling r c <= 5)
      /\ (forall e, In e (SpecAnalyzer.emitted r) <-> In e (SpecAnalyzer.handled r)).
Proof.
  cbn [analyzeArchitecture issues]. rewrite issueList_nil.
  rewrite (nil_iff_no_element (dualRoleClasses r)).
  rewrite (nil_iff_no_element (highCouplingClasses r)).
  rewrite (nil_iff_no_element (unhandledEvents r)).
  rewrite (nil_iff_no_element (orphanHandlers r)).
  split.
  - intros (Hd & Hh & Hu & Ho). split; [ | split].
    + intros c Hc. apply (Hd c). now apply dualRoleClasses_In.
    + intros c. destruct (Nat.le_gt_cases (SpecAnalyzer.coupling r c) 5) as [ | Hgt];
        [assumption | ].
      elim (Hh (c, SpecAnalyzer.coupling r c)).
      apply highCouplingClasses_In. split; [reflexivity | exact Hgt].
    + intros e. split; intros He.
      * destruct (In_dec string_dec e (SpecAnalyzer.handled r)) as [ | Hn];
          [assumption | ].
        elim (Hu e). apply unhandledEvents_In. now split.
      * destruct (In_dec string_dec e (SpecAnalyzer.emitted r)) as [ | Hn];
          [assumption | ].
        elim (Ho e). apply orphanHandlers_In. now split.
  - intros (Hd & Hh & He). repeat split.
    + intros c Hc. apply (Hd c). now apply dualRoleClasses_In.
    + intros [c n] Hc. apply highCouplingClasses_In in Hc as [-> Hn].
      specialize (Hh c). lia.
    + intros e Hu. apply unhandledEvents_In in Hu as [H1 H2]. now apply H2, He.
    + intros e Ho. apply orphanHandlers_In in Ho as [H1 H2]. now apply H2, He.
Qed.

Section EventCounts.

Lemma record_NoDup m k c :
  NoDup (JsMap.keys m) -> NoDup (JsMap.keys (record m k c)).
Proof.
  intros Hm. unfold record.
  set (m1 := if negb (JsMap.has m k) then JsMap.set m k [] else m).
  assert (H1 : NoDup (JsMap.keys m1))
    by (subst m1; destruct (negb (JsMap.has m k)); [now apply NoDup_keys_set | exact Hm]).
  destruct (JsMap.get m1 k); [now apply NoDup_keys_set | exact H1].
Qed.

Lemma recorded_NoDup (l : list (string * string)) m :
  NoDup (JsMap.keys m) ->
  NoDup (JsMap.keys (fold_left (fun m p => record m (fst p) (snd p)) l m)).
Proof.
  revert m. induction l as [ | p l IH]; intros m Hm; [exact Hm | ].
  cbn [fold_left]. apply IH, record_NoDup, Hm.
Qed.

Variable r : AnalysisResult.

Lemma eventEmitters_NoDup : NoDup (JsMap.keys (eventEmitters r)).
Proof.
  unfold eventEmitters.
  rewrite (fold_left_map (fun m p => record m (fst p) (snd p))
             (fun usage => (BusUsage.eventType usage, BusUsage.className usage))).
  apply recorded_NoDup. constructor.
Qed.

Lemma eventHandlers_NoDup : NoDup (JsMap.keys (eventHandlers r)).
Proof.
  unfold eventHandlers.
  rewrite (fold_left_map (fun m p => record m (fst p) (snd p))
             (fun h => (HandlerDeclaration.eventType h, HandlerDeclaration.className h))).
  apply recorded_NoDup. constructor.
Qed.

Lemma allEventTypes_In e :
  In e (allEventTypes r) <-> In e (SpecAnalyzer.emitted r) \/ In e (SpecAnalyzer.handled r).
Proof.
  unfold allEventTypes, SpecAnalyzer.emitted, SpecAnalyzer.handled.
  rewrite (fold_left_map JsSet.add HandlerDeclaration.eventType).
  rewrite (fold_left_map JsSet.add BusUsage.eventType).
  rewrite !added_In. cbn [In]. intuition.
Qed.

Lemma allEventTypes_NoDup : NoDup (allEventTypes r).
Proof.
  unfold allEventTypes.
  rewrite (fold_left_map JsSet.add HandlerDeclaration.eventType).
  rewrite (fold_left_map JsSet.add BusUsage.eventType).
  apply added_NoDup, added_NoDup. constructor.
Qed.

End EventCounts.

(** X19.  An event type is listed at most once among the unhandled
    events and at most once among the orphan handlers, however many edges
    carry it, and the two counts of the metrics together never exceed the
    number of distinct event types. *)
Theorem event_counts (r : AnalysisResult) :
  let m := metrics (analyzeArchitecture r) in
  NoDup (unhandledEvents r) /\ NoDup (orphanHandlers r)
  /\ NoDup (allEventTypes r)
  /\ (forall e, In e (allEventTypes r)
                <-> In e (SpecAnalyzer.emitted r) \/ In e (SpecAnalyzer.handled r))
  /\ orphanEvents m + orphanHandlersCount m <= totalEvents m.
Proof.
  cbn [analyzeArchitecture metrics orphanEvents orphanHandlersCount totalEvents].
  assert (Hu : NoDup (unhandledEvents r))
    by (rewrite unhandledEvents_filter; apply NoDup_filter, eventEmitters_NoDup).
  assert (Ho : NoDup (orphanHandlers r))
    by (rewrite orphanHandlers_filter; apply NoDup_filter, eventHandlers_NoDup).
  split; [exact Hu | split; [exact Ho | split; [apply allEventTypes_NoDup | split]]].
  - apply allEventTypes_In.
  - unfold JsSet.size. rewrite <- length_app. apply NoDup_incl_length.
    + apply NoDup_app; [exact Hu | exact Ho | ].
      intros e H1 H2. apply unhandledEvents_In in H1. apply orphanHandlers_In in H2. tauto.
    + intros e He. apply allEventTypes_In. apply in_app_iff in He as [He | He].
      * apply unhandledEvents_In in He. tauto.
      * apply orphanHandlers_In in He. tauto.
Qed.

(** X20.  [CQRSAnalyzer.analyze] analyses the result after the budget
    has been applied: under a positive budget the metrics count at most
    [maxEdges] classes, and the edges the analysis sees are a prefix of the
    bus usages and a prefix of the handler declarations that were found. *)
Theorem analysis_after_limit (maxEdges : Z) (r : AnalysisResult) :
  (0 < maxEdges)%Z ->
  let out := analyzeLimited maxEdges r in
  snd out = analyzeArchitecture (fst out)
  /\ (Z.of_nat (totalClasses (metrics (snd out))) <= maxEdges)%Z
  /\ (exists dropped, busUsages r = busUsages (fst out) ++ dropped)
  /\ (exists dropped, handlerDeclarations r = handlerDeclarations (fst out) ++ dropped).
Proof.
  intros Hpos out. subst out. unfold analyzeLimited. cbn [fst snd].
  rewrite limitAnalysis_applyMaxEdges. split; [reflexivity | split; [ | split]].
  - cbn [analyzeArchitecture metrics totalClasses].
    pose proof (classes_le_edges (applyMaxEdges maxEdges r)) as Hc.
    pose proof (applyMaxEdges_fits maxEdges r Hpos) as Hf. lia.
  - unfold applyMaxEdges.
    destruct ((0 <? maxEdges)%Z && (maxEdges <? _)%Z);
      [ | exists []; symmetry; apply app_nil_r].
    cbn [busUsages]. destruct (exceeds _ _); [ | exists []; symmetry; apply app_nil_r].
    rewrite floor_half, slice0_firstn by (apply Z.div_pos; lia). apply firstn_prefix.
  - unfold applyMaxEdges.
    destruct ((0 <? maxEdges)%Z && (maxEdges <? _)%Z);
      [ | exists []; symmetry; apply app_nil_r].
    cbn [handlerDeclarations].
    match goal with |- context [(0 <? ?rem)%Z && _] =>
      destruct (Z.ltb_spec 0 rem) as [Hrem | ]; cbn [andb];
        [ | exists []; symmetry; apply app_nil_r]
    end.
    match goal with |- context [if ?c then _ else _] =>
      destruct c; [ | exists []; symmetry; apply app_nil_r]
    end.
    rewrite slice0_firstn by lia. apply firstn_prefix.
Qed.

Lemma analysis_after_limit_witness :
  let u := Examples.usage "A" "m" "X" in
  let h := Examples.handler "B" "X" in
  let r := {| busUsages := [u; u; u; u]; handlerDeclarations := [h; h] |} in
  (Z.of_nat (totalClasses (metrics (snd (analyzeLimited 3 r)))) <= 3)%Z.
Proof.
  intros u h r. apply (analysis_after_limit 3 r). lia.
Defined.

(* ------------------------------------------------------------------ *)
(** ** The diagram text *)

Section Diagram.

Import Mermaid.

Local Open Scope string_scope.

Lemma concat_app (a b : list string) :
  Mermaid.concat (a ++ b)%list = Mermaid.concat a ++ Mermaid.concat b.
Proof.
  induction a as [ | x a IH]; [reflexivity | ].
  cbn [app Mermaid.concat]. now rewrite IH, append_assoc.
Qed.

Lemma append_nil_r (s : string) : s ++ "" = s.
Proof. induction s as [ | c s IH]; [reflexivity | ]. cbn [append]. now rewrite IH. Qed.

Lemma set_fresh {V : Type} (m : JsMap.t V) (k : string) (v : V) :
  ~ In k (JsMap.keys m) -> JsMap.set m k v = (m ++ [(k, v)])%list.
Proof.
  unfold JsMap.keys. induction m as [ | [k0 v0] m IH]; intros Hk; [reflexivity | ].
  cbn [map fst In] in Hk. cbn [JsMap.set app].
  destruct (String.eqb_spec k0 k) as [-> | _]; [elim Hk; now left | ].
  rewrite IH; [reflexivity | ]. intros H. apply Hk. now right.
Qed.

Lemma numbered_keys (prefix : string) (n : nat) (names : list string) :
  JsMap.keys (numbered prefix n names) = names.
Proof.
  revert n. induction names as [ | x names IH]; intros n; [reflexivity | ].
  cbn [numbered]. unfold JsMap.keys in *. cbn [map fst]. now rewrite IH.
Qed.

Lemma numbered_length (prefix : string) (n : nat) (names : list string) :
  List.length (numbered prefix n names) = List.length names.
Proof.
  revert n. induction names as [ | x names IH]; intros n; [reflexivity | ].
  cbn [numbered List.length]. now rewrite IH.
Qed.

Lemma classNode_loop busUsers handlerClasses names content m n :
  NoDup (JsMap.keys m ++ names)%list ->
  (forall c, In c names -> In c busUsers \/ In c handlerClasses) ->
  fold_left (classNode busUsers handlerClasses) names (content, m, n)
  = (content ++ Mermaid.concat (map (classLines busUsers handlerClasses)
                                  (numbered "class_" n names)),
     (m ++ numbered "class_" n names)%list,
     n + List.length names).
Proof.
  revert content m n. induction names as [ | c names IH]; intros content m n Hnd Hin.
  - cbn [fold_left numbered map Mermaid.concat List.length].
    now rewrite append_nil_r, app_nil_r, Nat.add_0_r.
  - assert (Hc : ~ In c (JsMap.keys m)).
    { intros Hc. apply NoDup_remove_2 in Hnd. apply Hnd, in_or_app. now left. }
    cbn [fold_left]. unfold classNode at 2. rewrite (set_fresh m c _ Hc).
    replace (n + 1) with (S n) by lia. rewrite IH.
    + cbn [numbered map Mermaid.concat List.length]. rewrite <- app_assoc.
      replace (S n + List.length names) with (n + S (List.length names)) by lia.
      f_equal. f_equal. unfold classLines. cbn [fst snd].
      assert (Hrole : In c busUsers \/ In c handlerClasses) by (apply Hin; now left).
      rewrite <- !has_In_set in Hrole.
      destruct (JsSet.has busUsers c), (JsSet.has handlerClasses c);
        cbn [andb negb String.eqb Ascii.eqb Bool.eqb];
        try (destruct Hrole; discriminate);
        now rewrite !append_assoc.
    + unfold JsMap.keys in *. rewrite map_app. cbn [map fst].
      rewrite <- app_assoc. exact Hnd.
    + intros x Hx. apply Hin. now right.
Qed.

Lemma eventNode_loop names content m n :
  NoDup (JsMap.keys m ++ names)%list ->
  fold_left eventNode names (content, m, n)
  = (content ++ Mermaid.concat (map eventLines (numbered "event_" n names)),
     (m ++ numbered "event_" n names)%list,
     n + List.length names).
Proof.
  revert content m n. induction names as [ | c names IH]; intros content m n Hnd.
  - cbn [fold_left numbered map Mermaid.concat List.length].
    now rewrite append_nil_r, app_nil_r, Nat.add_0_r.
  - assert (Hc : ~ In c (JsMap.keys m)).
    { intros Hc. apply NoDup_remove_2 in Hnd. apply Hnd, in_or_app. now left. }
    cbn [fold_left]. unfold eventNode at 2. rewrite (set_fresh m c _ Hc).
    replace (n + 1) with (S n) by lia. rewrite IH.
    + cbn [numbered map Mermaid.concat List.length]. rewrite <- app_assoc.
      replace (S n + List.length names) with (n + S (List.length names)) by lia.
      f_equal. f_equal. unfold eventLines. cbn [fst snd].
      now rewrite !append_assoc.
    + unfold JsMap.keys in *. rewrite map_app. cbn [map fst].
      rewrite <- app_assoc. exact Hnd.
Qed.

Lemma numbered_truthy (prefix : string) (n : nat) (names : list string) (c : string) :
  prefix <> "" -> In c names ->
  truthy (JsMap.get (numbered prefix n names) c) = true.
Proof.
  intros Hp. revert n. induction names as [ | x names IH]; intros n Hc; [contradiction | ].
  cbn [numbered JsMap.get]. destruct (String.eqb_spec x c) as [_ | Hne].
  - cbn [truthy]. destruct prefix; [now elim Hp | reflexivity].
  - apply IH. destruct Hc as [-> | Hc]; [now elim Hne | exact Hc].
Qed.

Lemma usageArrow_loop classNodes eventNodes usages content :
  (forall u, In u usages ->
             truthy (JsMap.get classNodes (BusUsage.className u)) = true
             /\ truthy (JsMap.get eventNodes (BusUsage.eventType u)) = true) ->
  fold_left (usageArrow classNodes eventNodes) usages content
  = content ++ Mermaid.concat (map (usageLine classNodes eventNodes) usages).
Proof.
  revert content. induction usages as [ | u usages IH]; intros content Hall.
  - cbn [fold_left map Mermaid.concat]. now rewrite append_nil_r.
  - cbn [fold_left map Mermaid.concat]. rewrite IH by (intros x Hx; apply Hall; now right).
    unfold usageArrow. destruct (Hall u (or_introl eq_refl)) as [-> ->].
    cbn [andb]. unfold usageLine. now rewrite !append_assoc.
Qed.

Lemma handlerArrow_loop classNodes eventNodes handlers content :
  (forall h, In h handlers ->
             truthy (JsMap.get classNodes (HandlerDeclaration.className h)) = true
             /\ truthy (JsMap.get eventNodes (HandlerDeclaration.eventType h)) = true) ->
  fold_left (handlerArrow classNodes eventNodes) handlers content
  = content ++ Mermaid.concat (map (handlerLine classNodes eventNodes) handlers).
Proof.
  revert content. induction handlers as [ | h handlers IH]; intros content Hall.
  - cbn [fold_left map Mermaid.concat]. now rewrite append_nil_r.
  - cbn [fold_left map Mermaid.concat]. rewrite IH by (intros x Hx; apply Hall; now right).
    unfold handlerArrow. destruct (Hall h (or_introl eq_refl)) as [-> ->].
    cbn [andb]. unfold handlerLine. now rewrite !append_assoc.
Qed.

Variable usages : list BusUsage.t.
Variable handlers : list HandlerDeclaration.t.

Lemma busUsersOf_In c : In c (busUsersOf usages) <-> In c (map BusUsage.className usages).
Proof.
  unfold busUsersOf. rewrite (fold_left_map JsSet.add BusUsage.className), added_In.
  cbn [In]. intuition.
Qed.

Lemma handlerClassesOf_In c :
  In c (handlerClassesOf handlers) <-> In c (map HandlerDeclaration.className handlers).
Proof.
  unfold handlerClassesOf.
  rewrite (fold_left_map JsSet.add HandlerDeclaration.className), added_In.
  cbn [In]. intuition.
Qed.

Lemma allClassesOf_In c :
  In c (allClassesOf (busUsersOf usages) (handlerClassesOf handlers))
  <-> In c (map BusUsage.className usages)
      \/ In c (map HandlerDeclaration.className handlers).
Proof.
  unfold allClassesOf. rewrite added_In, in_app_iff, busUsersOf_In, handlerClassesOf_In.
  cbn [In]. intuition.
Qed.

Lemma allClassesOf_NoDup :
  NoDup (allClassesOf (busUsersOf usages) (handlerClassesOf handlers)).
Proof. unfold allClassesOf. apply added_NoDup. constructor. Qed.

Lemma eventTypesOf_In e :
  In e (eventTypesOf usages handlers)
  <-> In e (map BusUsage.eventType usages)
      \/ In e (map HandlerDeclaration.eventType handlers).
Proof.
  unfold eventTypesOf.
  rewrite (fold_left_map JsSet.add HandlerDeclaration.eventType).
  rewrite (fold_left_map JsSet.add BusUsage.eventType).
  rewrite !added_In. cbn [In]. intuition.
Qed.

Lemma eventTypesOf_NoDup : NoDup (eventTypesOf usages handlers).
Proof.
  unfold eventTypesOf.
  rewrite (fold_left_map JsSet.add HandlerDeclaration.eventType).
  rewrite (fold_left_map JsSet.add BusUsage.eventType).
  apply added_NoDup, added_NoDup. constructor.
Qed.

Lemma every_edge_has_nodes :
  let classNodes :=
    numbered "class_" 1 (allClassesOf (busUsersOf usages) (handlerClassesOf handlers)) in
  let eventNodes := numbered "event_" 1 (eventTypesOf usages handlers) in
  (forall u, In u usages ->
             truthy (JsMap.get classNodes (BusUsage.className u)) = true
             /\ truthy (JsMap.get eventNodes (BusUsage.eventType u)) = true)
  /\ (forall h, In h handlers ->
                truthy (JsMap.get classNodes (HandlerDeclaration.className h)) = true
                /\ truthy (JsMap.get eventNodes (HandlerDeclaration.eventType h)) = true).
Proof.
  cbv zeta. split.
  - intros u Hu. split; apply numbered_truthy; try discriminate.
    + apply allClassesOf_In. left. now apply in_map.
    + apply eventTypesOf_In. left. now apply in_map.
  - intros h Hh. split; apply numbered_truthy; try discriminate.
    + apply allClassesOf_In. right. now apply in_map.
    + apply eventTypesOf_In. right. now apply in_map.
Qed.

Lemma generateMermaidContent_text options :
  generateMermaidContent usages handlers options = diagramText usages handlers options.
Proof.
  unfold generateMermaidContent, diagramText. cbv zeta.
  rewrite classNode_loop.
  - rewrite eventNode_loop by (cbn [JsMap.keys map app]; apply eventTypesOf_NoDup).
    cbn [app]. destruct every_edge_has_nodes as [Hu Hh].
    rewrite handlerArrow_loop by exact Hh.
    rewrite usageArrow_loop by exact Hu.
    destruct (includeLegend options); rewrite !append_assoc; [reflexivity | ].
    cbn [append]. reflexivity.
  - cbn [JsMap.keys map app]. apply allClassesOf_NoDup.
  - intros c Hc. apply allClassesOf_In in Hc.
    rewrite busUsersOf_In, handlerClassesOf_In. exact Hc.
Qed.

End Diagram.

Lemma showNat_inj (a b : nat) : Mermaid.showNat a = Mermaid.showNat b -> a = b.
Proof.
  unfold Mermaid.showNat. intros H.
  assert (Hu : Nat.to_uint a = Nat.to_uint b).
  { pose proof (NilEmpty.usu (Nat.to_uint a)) as Ha.
    pose proof (NilEmpty.usu (Nat.to_uint b)) as Hb.
    rewrite H in Ha. congruence. }
  rewrite <- (DecimalNat.Unsigned.of_to a), <- (DecimalNat.Unsigned.of_to b).
  now rewrite Hu.
Qed.

Lemma append_inj_l (p a b : string) : (p ++ a = p ++ b)%string -> a = b.
Proof. induction p as [ | c p IH]; [easy | ]. cbn [append]. intros H. injection H. exact IH. Qed.

Lemma numbered_get_bounds (prefix : string) (n : nat) (names : list string) c id :
  JsMap.get (Mermaid.numbered prefix n names) c = Some id ->
  exists k, n <= k /\ id = (prefix ++ Mermaid.showNat k)%string
            /\ nth_error names (k - n) = Some c.
Proof.
  revert n. induction names as [ | x names IH]; intros n; cbn [Mermaid.numbered JsMap.get];
    [discriminate | ].
  destruct (String.eqb_spec x c) as [-> | _].
  - intros H. injection H as <-. exists n. rewrite Nat.sub_diag. repeat split. lia.
  - intros H. destruct (IH (S n) H) as (k & Hk & -> & Hnth).
    exists k. split; [lia | split; [reflexivity | ]].
    replace (k - n) with (S (k - S n)) by lia. exact Hnth.
Qed.

(** X21.  The diagram text is the text written without the loops, maps
    and counters: the classes in the order producers first, then the
    classes that only handle, numbered class_1, class_2, ...; the event
    types numbered event_1, event_2, ... in their order of appearance; then
    one arrow per bus usage and one per handler declaration, in the order
    of the edges.  Every class and event type of an edge has a node id, so
    no edge is left out of the diagram. *)
Theorem diagram_draws_every_edge (usages : list BusUsage.t)
    (handlers : list HandlerDeclaration.t) (options : Mermaid.Options) :
  let classNodes :=
    Mermaid.numbered "class_" 1
      (Mermaid.allClassesOf (Mermaid.busUsersOf usages) (Mermaid.handlerClassesOf handlers)) in
  let eventNodes := Mermaid.numbered "event_" 1 (Mermaid.eventTypesOf usages handlers) in
  Mermaid.generateMermaidContent usages handlers options
  = Mermaid.diagramText usages handlers options
  /\ (forall u, In u usages ->
                Mermaid.truthy (JsMap.get classNodes (BusUsage.className u)) = true
                /\ Mermaid.truthy (JsMap.get eventNodes (BusUsage.eventType u)) = true)
  /\ (forall h, In h handlers ->
                Mermaid.truthy (JsMap.get classNodes (HandlerDeclaration.className h)) = true
                /\ Mermaid.truthy (JsMap.get eventNodes (HandlerDeclaration.eventType h))
                   = true).
Proof.
  cbv zeta. split; [apply generateMermaidContent_text | ].
  apply every_edge_has_nodes.
Qed.

(** X22.  Node ids do not collide: the loop over the classes gives
    different ids to different classes, the loop over the event types
    different ids to different event types, and no class shares its id
    with an event type. *)
Theorem node_ids_distinct (usages : list BusUsage.t)
    (handlers : list HandlerDeclaration.t) (content content' : string) :
  let busUsers := Mermaid.busUsersOf usages in
  let handlerClasses := Mermaid.handlerClassesOf handlers in
  let classNodes :=
    snd (fst (fold_left (Mermaid.classNode busUsers handlerClasses)
                (Mermaid.allClassesOf busUsers handlerClasses) (content, [], 1))) in
  let eventNodes :=
    snd (fst (fold_left Mermaid.eventNode (Mermaid.eventTypesOf usages handlers)
                (content', [], 1))) in
  (forall c1 c2 id1 id2,
      c1 <> c2 -> JsMap.get classNodes c1 = Some id1 ->
      JsMap.get classNodes c2 = Some id2 -> id1 <> id2)
  /\ (forall e1 e2 id1 id2,
         e1 <> e2 -> JsMap.get eventNodes e1 = Some id1 ->
         JsMap.get eventNodes e2 = Some id2 -> id1 <> id2)
  /\ (forall c e id1 id2,
         JsMap.get classNodes c = Some id1 -> JsMap.get eventNodes e = Some id2 ->
         id1 <> id2).
Proof.
  cbv zeta.
  rewrite classNode_loop;
    [ | cbn [JsMap.keys map app]; apply allClassesOf_NoDup
      | intros c Hc; apply allClassesOf_In in Hc;
        rewrite busUsersOf_In, handlerClassesOf_In; exact Hc ].
  rewrite eventNode_loop by (cbn [JsMap.keys map app]; apply eventTypesOf_NoDup).
  cbn [fst snd app].
  assert (Hinj : forall prefix names a b id1 id2,
             a <> b ->
             JsMap.get (Mermaid.numbered prefix 1 names) a = Some id1 ->
             JsMap.get (Mermaid.numbered prefix 1 names) b = Some id2 -> id1 <> id2).
  { intros prefix names a b id1 id2 Hab H1 H2 He. subst id2.
    destruct (numbered_get_bounds _ _ _ _ _ H1) as (k1 & Hk1 & -> & Hn1).
    destruct (numbered_get_bounds _ _ _ _ _ H2) as (k2 & Hk2 & He & Hn2).
    apply append_inj_l, showNat_inj in He. subst k2. congruence. }
  split; [apply Hinj | split; [apply Hinj | ]].
  intros c e id1 id2 H1 H2 He. subst id2.
  destruct (numbered_get_bounds _ _ _ _ _ H1) as (k1 & _ & -> & _).
  destruct (numbered_get_bounds _ _ _ _ _ H2) as (k2 & _ & He & _).
  discriminate He.
Qed.

Lemma node_ids_distinct_witness :
  "class_1"%string <> "class_3"%string.
Proof.
  apply (proj1 (node_ids_distinct (busUsages Examples.orders)
                  (handlerDeclarations Examples.orders) "" "")
           "OrderService" "AuditHandler"); [discriminate | reflexivity | reflexivity].
Defined.

(* ------------------------------------------------------------------ *)
(** ** The report *)

Section ReportSections.

Variable toFixed2 : Q -> string.

(** Takes a hypothesis that a heading is among lines apart, down to the
    lines it could be, and closes the cases in which it is none of them. *)
Ltac find_line :=
  repeat match goal with
    | H : False |- _ => contradiction
    | H : _ \/ _ |- _ => destruct H
    | H : exists _, _ |- _ => destruct H
    | H : _ /\ _ |- _ => destruct H
    | H : In _ (map _ _) |- _ => apply in_map_iff in H
    | H : In _ (List.app _ _) |- _ => apply in_app_iff in H
    | H : In _ (_ :: _) |- _ => cbn [In] in H
    | H : In _ [] |- _ => contradiction
    | H : @eq string _ _ |- _ => discriminate H
    | H : @eq string _ _ |- _ => cbn [append] in H; discriminate H
    end.

Lemma positive_length {A : Type} (l : list A) :
  (0 <? List.length l)%nat = true <-> l <> [].
Proof. destruct l; cbn; split; congruence. Qed.

Lemma not_positive_length {A : Type} (l : list A) :
  (0 <? List.length l)%nat = false <-> l = [].
Proof. destruct l; cbn; split; congruence. Qed.

Variable r : AnalysisResult.

Let lines : list string := Report.reportLines toFixed2 (analyzeArchitecture r).

Lemma report_no_issue_line :
  In "No issues detected in the architecture." lines <-> issueList r = [].
Proof.
  subst lines. unfold Report.reportLines. cbn [analyzeArchitecture issues metrics].
  split.
  - intros H. unfold Report.issueSection in H.
    destruct (issueList r) as [ | i l] eqn:Hi; [reflexivity | exfalso].
    cbn [List.length Nat.eqb] in H. cbv zeta in H.
    assert (Hsub : forall i', In i' (i :: l) ->
                              ~ In "No issues detected in the architecture."
                                  (Report.issueLines i')).
    { rewrite <- Hi. unfold issueList. intros i' Hi' Hl.
      repeat (apply in_app_iff in Hi' as [Hi' | Hi']);
        match type of Hi' with In _ (if ?c then _ else _) => destruct c end;
        cbn [In] in Hi'; try contradiction; destruct Hi' as [<- | []];
        unfold Report.issueLines in Hl; cbn [type_ description elements] in Hl;
        find_line. }
    assert (Hgroup : forall heading p,
               heading <> "No issues detected in the architecture." ->
               ~ In "No issues detected in the architecture."
                   (Report.severityLines heading (filter p (i :: l)))).
    { intros heading p Hh Hl. unfold Report.severityLines in Hl.
      destruct (0 <? List.length (filter p (i :: l)))%nat; [ | contradiction].
      apply in_app_iff in Hl as [Hl | Hl].
      - cbn [In] in Hl. destruct Hl as [Hl | [Hl | []]]; [now elim Hh | discriminate].
      - apply in_flat_map in Hl as (i' & Hi' & Hl).
        apply filter_In in Hi' as [Hi' _]. exact (Hsub i' Hi' Hl). }
    unfold Report.metricLines, Report.recommendations in H.
    repeat match goal with
      | H : In _ (List.app _ _) |- _ => apply in_app_iff in H as [H | H]
      end;
      try (eapply Hgroup; [ | exact H]; discriminate);
      find_line.
  - intros ->. unfold Report.issueSection. cbn [List.length Nat.eqb].
    apply in_or_app. right. apply in_or_app. right. apply in_or_app. left.
    right. right. left. reflexivity.
Qed.

Lemma analyzer_issue_lines (heading : string) (i : ArchitectureIssue) :
  heading = "### Errors" \/ heading = "### Warnings" \/ heading = "### Information" ->
  In i (issueList r) -> ~ In heading (Report.issueLines i).
Proof.
  intros Hh Hi Hl. unfold issueList in Hi.
  repeat (apply in_app_iff in Hi as [Hi | Hi]);
    match type of Hi with In _ (if ?c then _ else _) => destruct c end;
    cbn [In] in Hi; try contradiction; destruct Hi as [<- | []];
    unfold Report.issueLines in Hl; cbn [type_ description elements] in Hl;
    destruct Hh as [-> | [-> | ->]]; find_line.
Qed.

Lemma report_heading (heading : string) (sev : IssueSeverity) :
  (heading, sev) = ("### Errors", ERROR)
  \/ (heading, sev) = ("### Warnings", WARNING)
  \/ (heading, sev) = ("### Information", INFO) ->
  In heading lines
  <-> filter (fun i => Report.IssueSeverity_eqb (severity i) sev) (issueList r) <> [].
Proof.
  intros Hpair.
  assert (Hh : heading = "### Errors" \/ heading = "### Warnings"
               \/ heading = "### Information")
    by (destruct Hpair as [H | [H | H]]; injection H as -> _; auto).
  assert (Hgroup : forall heading' p,
             In heading (Report.severityLines heading' (filter p (issueList r))) ->
             heading = heading' /\ filter p (issueList r) <> []).
  { intros heading' p Hl. unfold Report.severityLines in Hl.
    destruct (0 <? List.length (filter p (issueList r)))%nat eqn:Hpos; [ | contradiction].
    apply positive_length in Hpos.
    apply in_app_iff in Hl as [Hl | Hl].
    - cbn [In] in Hl. destruct Hl as [Hl | [Hl | []]].
      + now split.
      + destruct Hh as [-> | [-> | ->]]; discriminate.
    - apply in_flat_map in Hl as (i' & Hi' & Hl).
      apply filter_In in Hi' as [Hi' _].
      now elim (analyzer_issue_lines heading i' Hh Hi'). }
  subst lines. unfold Report.reportLines. cbn [analyzeArchitecture issues metrics].
  split.
  - intros H. unfold Report.issueSection in H.
    destruct (List.length (issueList r) =? 0)%nat.
    + unfold Report.metricLines, Report.recommendations in H.
      destruct Hh as [-> | [-> | ->]];
        repeat match goal with
          | H : In _ (List.app _ _) |- _ => apply in_app_iff in H as [H | H]
          end; find_line.
    + cbv zeta in H. unfold Report.metricLines, Report.recommendations in H.
      repeat match goal with
        | H : In _ (List.app _ _) |- _ => apply in_app_iff in H as [H | H]
        end;
        try (apply Hgroup in H as [He Hne];
             destruct Hpair as [Hp | [Hp | Hp]]; injection Hp as -> ->;
             first [exact Hne | discriminate He]);
        destruct Hh as [-> | [-> | ->]]; find_line.
  - intros Hne.
    assert (Hlen : (List.length (issueList r) =? 0)%nat = false).
    { destruct (issueList r); [now elim Hne | reflexivity]. }
    unfold Report.issueSection. rewrite Hlen. cbv zeta.
    apply positive_length in Hne.
    apply in_or_app. right. apply in_or_app. right. apply in_or_app. left.
    apply in_or_app. right.
    destruct Hpair as [Hp | [Hp | Hp]]; injection Hp as -> ->.
    + apply in_or_app. left. unfold Report.severityLines. rewrite Hne. now left.
    + apply in_or_app. right. apply in_or_app. left.
      unfold Report.severityLines. rewrite Hne. now left.
    + apply in_or_app. right. apply in_or_app. right.
      unfold Report.severityLines. rewrite Hne. now left.
Qed.

Lemma issueList_by_severity :
  (filter (fun i => Report.IssueSeverity_eqb (severity i) ERROR) (issueList r) <> []
   <-> unhandledEvents r <> [])
  /\ (filter (fun i => Report.IssueSeverity_eqb (severity i) WARNING) (issueList r) <> []
      <-> dualRoleClasses r <> [] \/ highCouplingClasses r <> []
          \/ orphanHandlers r <> [])
  /\ filter (fun i => Report.IssueSeverity_eqb (severity i) INFO) (issueList r) = [].
Proof.
  unfold issueList, JsSet.size. rewrite !filter_app.
  destruct (dualRoleClasses r), (highCouplingClasses r), (unhandledEvents r),
    (orphanHandlers r);
    cbn [app filter severity Report.IssueSeverity_eqb List.length Nat.ltb Nat.leb];
    repeat split; try reflexivity; intros; try discriminate; auto;
    try (right; left; discriminate); try (right; right; discriminate);
    try (left; discriminate);
    repeat match goal with
      | H : _ \/ _ |- _ => destruct H
      | H : ?x <> ?x |- _ => now elim H
      end.
Qed.

End ReportSections.

(** X23.  In the report of an analysis the sentence "No issues detected
    in the architecture." stands exactly when the analyzer found no issue;
    the heading "### Errors" stands exactly when there are unhandled
    events, the heading "### Warnings" exactly when there are dual-role
    classes, highly coupled classes or orphan handlers, and the heading
    "### Information" never, whatever the names of classes and event
    types are. *)
Theorem report_sections (toFixed2 : Q -> string) (r : AnalysisResult) :
  let lines := Report.reportLines toFixed2 (analyzeArchitecture r) in
  (In "No issues detected in the architecture." lines
   <-> issues (analyzeArchitecture r) = [])
  /\ (In "### Errors" lines <-> unhandledEvents r <> [])
  /\ (In "### Warnings" lines
      <-> dualRoleClasses r <> [] \/ highCouplingClasses r <> []
          \/ orphanHandlers r <> [])
  /\ ~ In "### Information" lines.
Proof.
  cbv zeta. destruct (issueList_by_severity r) as (He & Hw & Hi).
  split; [apply report_no_issue_line | split; [ | split]].
  - rewrite <- He. apply report_heading. now left.
  - rewrite <- Hw. apply report_heading. right. now left.
  - intros H. apply (report_heading toFixed2 r "### Information" INFO) in H; auto.
Qed.

(** X24.  No issue is left out of the report: whatever its severity,
    the heading with its type, its description and a line for each of its
    affected elements are among the lines of the report. *)
Theorem report_holds_every_issue (toFixed2 : Q -> string)
    (analysis : ArchitectureAnalysisResult) (issue : ArchitectureIssue) (line : string) :
  In issue (issues analysis) ->
  In line (Report.issueLines issue) ->
  In line (Report.reportLines toFixed2 analysis).
Proof.
  intros Hi Hl. unfold Report.reportLines, Report.issueSection.
  destruct (issues analysis) as [ | i0 l0] eqn:Hissues; [contradiction | ].
  cbn [List.length Nat.eqb]. cbv zeta.
  assert (Hgroup : forall heading sev,
             severity issue = sev ->
             In line (Report.severityLines heading
                        (filter (fun i => Report.IssueSeverity_eqb (severity i) sev)
                           (i0 :: l0)))).
  { intros heading sev Hsev.
    assert (Hin : In issue (filter (fun i => Report.IssueSeverity_eqb (severity i) sev)
                              (i0 :: l0)))
      by (apply filter_In; split; [exact Hi | rewrite Hsev; now destruct sev]).
    unfold Report.severityLines.
    destruct (filter (fun i => Report.IssueSeverity_eqb (severity i) sev) (i0 :: l0))
      as [ | a g] eqn:Hf; [contradiction | ].
    cbn [List.length Nat.ltb Nat.leb]. apply in_or_app. right.
    apply in_flat_map. now exists issue. }
  apply in_or_app. right. apply in_or_app. right. apply in_or_app. left.
  apply in_or_app. right.
  destruct (severity issue) eqn:Hsev.
  - apply in_or_app. right. apply in_or_app. right. now apply Hgroup.
  - apply in_or_app. right. apply in_or_app. left. now apply Hgroup.
  - apply in_or_app. left. now apply Hgroup.
Qed.

Lemma report_holds_every_issue_witness :
  In "- ShipOrderCommand"
    (Report.reportLines (fun _ => "1.33"%string) (analyzeArchitecture Examples.orders)).
Proof.
  apply (report_holds_every_issue (fun _ => "1.33"%string)
           (analyzeArchitecture Examples.orders)
           {| type_ := "UnhandledEvents";
              severity := ERROR;
              description := "Events that are produced but not handled may indicate incomplete implementation";
              elements := ["ShipOrderCommand"];
              context := Producers [("ShipOrderCommand", ["OrderService"])] |}).
  - vm_compute. left. reflexivity.
  - vm_compute. tauto.
Defined.
